(** * Discord message extractor: pagination loop and per-user aggregation

    A shallow embedding of [extract_messages_with_content] and
    [organize_messages_by_user] (discord_server_extractor.py) and of
    [extract_content_only] (discord_psycho_analyzer.py), with the properties
    their specification states about them; and of the code around them:
    [enumerate_channels], [extract_server_content] and the file names and
    CSV rows of [save_user_data] (discord_server_extractor.py), and
    [chunk_messages] (discord_psycho_analyzer.py).

    Conventions of the embedding.
    - A Python [str] is a Rocq [string]; each [ascii] stands for one code
      point below 256, so [len] is [String.length] and the order on [str]
      is [String.compare].
    - A dictionary key that may be absent is an [option] field; a mandatory
      access [d['k']] of an absent key raises [KeyError].
    - Python integers are [Z]; the quotient [a / b] that Python computes as
      a float is the exact rational in [Q].
    - The [datetime] library is not part of the repository: the type of
      parsed timestamps, its parser, its printers and its order are
      variables of a Section. *)

From Stdlib Require Import List String Ascii Bool ZArith QArith Lia.
From Stdlib Require Import Permutation Sorted OrderedTypeEx.
Import ListNotations.

Local Open Scope string_scope.
Local Open Scope list_scope.

(** ** Exceptions *)

Inductive exn : Type :=
| KeyError (key : string)
| ValueError
| ZeroDivisionError.

Inductive py (A : Type) : Type :=
| Ret (a : A)
| Raise (e : exn).

Arguments Ret {A} a.
Arguments Raise {A} e.

Definition bind {A B : Type} (m : py A) (k : A -> py B) : py B :=
  match m with
  | Ret a => k a
  | Raise e => Raise e
  end.

Notation "x <- m ;; k" := (bind m (fun x => k))
  (at level 61, m at next level, right associativity).

(** [d[key]] on a dictionary whose entry [key] is [o]. *)
Definition item {A : Type} (key : string) (o : option A) : py A :=
  match o with
  | Some a => Ret a
  | None => Raise (KeyError key)
  end.

(** [d.get(key, default)]. *)
Definition get {A : Type} (o : option A) (default : A) : A :=
  match o with
  | Some a => a
  | None => default
  end.

Fixpoint mapM {A B : Type} (f : A -> py B) (l : list A) : py (list B) :=
  match l with
  | [] => Ret []
  | a :: l' => b <- f a ;; bs <- mapM f l' ;; Ret (b :: bs)
  end.

Definition raises {A : Type} (m : py A) : Prop := exists e, m = Raise e.

(** ** Python string primitives *)

Module Py.

(** [s.replace('Z', '+00:00')] *)
Fixpoint replace_Z (s : string) : string :=
  match s with
  | EmptyString => EmptyString
  | String c s' =>
      if Ascii.eqb c "Z"%char then "+00:00" ++ replace_Z s'
      else String c (replace_Z s')
  end.

(** [c.isspace()] on the code points below 256. *)
Definition isspace (c : ascii) : bool :=
  let n := N_of_ascii c in
  ((9 <=? n) && (n <=? 13) || (28 <=? n) && (n <=? 32)
   || (n =? 133) || (n =? 160))%N.

Definition nonempty (s : string) : bool :=
  match s with
  | EmptyString => false
  | String _ _ => true
  end.

(** [s.split()]: the maximal runs of non-whitespace characters. *)
Fixpoint split_from (word : string) (s : string) : list string :=
  match s with
  | EmptyString => if nonempty word then [word] else []
  | String c s' =>
      if isspace c
      then (if nonempty word then word :: split_from "" s'
            else split_from "" s')
      else split_from (word ++ String c "") s'
  end.

Definition split (s : string) : list string := split_from "" s.

Fixpoint lstrip (s : string) : string :=
  match s with
  | EmptyString => EmptyString
  | String c s' => if isspace c then lstrip s' else s
  end.

Fixpoint rstrip (s : string) : string :=
  match s with
  | EmptyString => EmptyString
  | String c s' =>
      let r := rstrip s' in
      if isspace c && negb (nonempty r) then EmptyString else String c r
  end.

(** [s.strip()] *)
Definition strip (s : string) : string := rstrip (lstrip s).

(** [len(s)] *)
Definition len (s : string) : Z := Z.of_nat (String.length s).

End Py.

(** ** Raw API records

    Fields are read by name and never assumed complete.  Values that the
    extractor only passes through are kept as opaque JSON text. *)

Definition json := string.

Record raw_author : Type := {
  ra_id : option string;
  ra_username : option string;
  ra_discriminator : option string;
  ra_global_name : option string;
  ra_bot : option bool;
  ra_avatar : option string
}.

Record raw_attachment : Type := {
  rt_id : option string;
  rt_filename : option string;
  rt_size : option Z;
  rt_url : option string;
  rt_content_type : option string;
  rt_width : option Z;
  rt_height : option Z
}.

Record raw_embed : Type := {
  re_type : option json;
  re_title : option json;
  re_description : option json;
  re_url : option json;
  re_color : option json;
  re_timestamp : option json;
  re_fields : option json;
  re_author : option json;
  re_footer : option json;
  re_image : option json;
  re_thumbnail : option json
}.

Record raw_reaction : Type := {
  rr_emoji : option json;
  rr_count : option Z;
  rr_me : option bool
}.

Record raw_mention : Type := {
  rm_id : option string;
  rm_username : option string;
  rm_discriminator : option string;
  rm_global_name : option string
}.

(** [message_reference], when present, is a dictionary with some entry (an
    empty one is falsy in Python and is taken as absent). *)
Record raw_reference : Type := {
  rf_message_id : option string;
  rf_channel_id : option string;
  rf_guild_id : option string
}.

Record raw_message : Type := {
  r_id : option string;
  r_timestamp : option string;
  r_author : option raw_author;
  r_content : option string;
  r_attachments : option (list raw_attachment);
  r_embeds : option (list raw_embed);
  r_reactions : option (list raw_reaction);
  r_mentions : option (list raw_mention);
  r_mention_roles : option (list string);
  r_message_reference : option raw_reference;
  r_pinned : option bool;
  r_edited_timestamp : option string;
  r_type : option Z;
  r_flags : option Z
}.

(** ** Canonical records built by the extractor *)

Record author_info : Type := {
  id : string;
  username : string;
  discriminator : string;
  display_name : string;
  bot : bool;
  avatar : option string
}.

Record attachment : Type := {
  at_id : string;
  at_filename : string;
  at_size : Z;
  at_url : string;
  at_content_type : option string;
  at_width : option Z;
  at_height : option Z
}.

Record reaction : Type := {
  emoji : json;
  count : Z;
  me : bool
}.

Record mention : Type := {
  mn_id : string;
  mn_username : string;
  mn_discriminator : string;
  mn_display_name : string
}.

Record message : Type := {
  message_id : string;
  channel_id : string;
  channel_name : string;
  timestamp : string;
  timestamp_iso : string;
  author : author_info;
  full_username : string;
  content : string;
  attachments : list attachment;
  embeds : list raw_embed;
  reactions : list reaction;
  mentions : list mention;
  role_mentions : list string;
  channel_mentions : list string;
  reply_to : option raw_reference;
  pinned : bool;
  edited_timestamp : option string;
  message_type : Z;
  flags : Z
}.

(** [x or y] on strings, [x] possibly [None]. *)
Definition or_else (x : option string) (y : string) : string :=
  match x with
  | Some s => if Py.nonempty s then s else y
  | None => y
  end.

Definition extract_author (a : raw_author) : py author_info :=
  i <- item "id" (ra_id a) ;;
  u <- item "username" (ra_username a) ;;
  Ret {| id := i;
         username := u;
         discriminator := get (ra_discriminator a) "0";
         display_name := or_else (ra_global_name a) u;
         bot := get (ra_bot a) false;
         avatar := ra_avatar a |}.

Definition make_full_username (a : author_info) : string :=
  if negb (String.eqb (discriminator a) "0")
  then username a ++ "#" ++ discriminator a
  else username a.

Definition extract_attachment (t : raw_attachment) : py attachment :=
  i <- item "id" (rt_id t) ;;
  f <- item "filename" (rt_filename t) ;;
  s <- item "size" (rt_size t) ;;
  u <- item "url" (rt_url t) ;;
  Ret {| at_id := i; at_filename := f; at_size := s; at_url := u;
         at_content_type := rt_content_type t;
         at_width := rt_width t;
         at_height := rt_height t |}.

Definition extract_reaction (r : raw_reaction) : py reaction :=
  e <- item "emoji" (rr_emoji r) ;;
  c <- item "count" (rr_count r) ;;
  Ret {| emoji := e; count := c; me := get (rr_me r) false |}.

Definition extract_mention (m : raw_mention) : py mention :=
  i <- item "id" (rm_id m) ;;
  u <- item "username" (rm_username m) ;;
  Ret {| mn_id := i; mn_username := u;
         mn_discriminator := get (rm_discriminator m) "0";
         mn_display_name := or_else (rm_global_name m) u |}.

(** [re.findall(r'<#(\d+)>', s)] as a scan: [None] outside a candidate,
    [Some None] after [<], [Some (Some ds)] after [<#] and the digits [ds]. *)
Definition is_digit (c : ascii) : bool :=
  let n := N_of_ascii c in ((48 <=? n) && (n <=? 57))%N.

Fixpoint find_channel_mentions (st : option (option string)) (s : string)
  : list string :=
  match s with
  | EmptyString => []
  | String c s' =>
      if Ascii.eqb c "<"%char then find_channel_mentions (Some None) s'
      else
        match st with
        | None => find_channel_mentions None s'
        | Some None =>
            if Ascii.eqb c "#"%char
            then find_channel_mentions (Some (Some "")) s'
            else find_channel_mentions None s'
        | Some (Some ds) =>
            if is_digit c
            then find_channel_mentions (Some (Some (ds ++ String c "")%string)) s'
            else if Ascii.eqb c ">"%char && Py.nonempty ds
            then ds :: find_channel_mentions None s'
            else find_channel_mentions None s'
        end
  end.

(** ** HTTP responses to a page request *)

Inductive response : Type :=
| Ok200 (batch : list raw_message)
| RateLimited (retry_after : option Q)
| HttpError (status_code : Z) (text : string).

(** What the loop does to the outside world, in order. *)
Record params : Type := {
  p_limit : Z;
  p_before : option string
}.

Inductive event : Type :=
| Request (p : params)
| Sleep (seconds : Q).

(** [if before: params['before'] = before] *)
Definition truthy (before : option string) : option string :=
  match before with
  | Some s => if Py.nonempty s then Some s else None
  | None => None
  end.

Fixpoint requests (tr : list event) : list params :=
  match tr with
  | [] => []
  | Request p :: tr' => p :: requests tr'
  | Sleep _ :: tr' => requests tr'
  end.

Fixpoint sleeps (tr : list event) : list Q :=
  match tr with
  | [] => []
  | Request _ :: tr' => sleeps tr'
  | Sleep d :: tr' => d :: sleeps tr'
  end.

Definition page_size (r : response) : Z :=
  match r with
  | Ok200 batch => Z.of_nat (List.length batch)
  | _ => 0
  end.

Fixpoint sumZ (l : list Z) : Z :=
  match l with
  | [] => 0
  | x :: l' => x + sumZ l'
  end.

(** ** A concrete [datetime]: UTC timestamps to the second

    The fragment of [fromisoformat] on the form [YYYY-MM-DDTHH:MM:SS+00:00],
    the form in which the platform sends timestamps.  A parsed value is kept
    as that text, which is also its [isoformat()], and on which the order of
    text is the order of time. *)

Module Utc.

Definition datetime : Type := string.

Fixpoint num_from (acc : Z) (s : string) : option Z :=
  match s with
  | EmptyString => Some acc
  | String c s' =>
      if is_digit c
      then num_from (10 * acc + (Z.of_N (N_of_ascii c) - 48)) s'
      else None
  end.

Definition num (s : string) : option Z := num_from 0 s.

Definition sep (s : string) (n : nat) (c : ascii) : bool :=
  match String.get n s with
  | Some c' => Ascii.eqb c c'
  | None => false
  end.

Definition leap (y : Z) : bool :=
  ((y mod 4 =? 0) && negb (y mod 100 =? 0) || (y mod 400 =? 0))%Z.

Definition days_in_month (y m : Z) : Z :=
  if (m =? 2)%Z then (if leap y then 29 else 28)
  else if ((m =? 4) || (m =? 6) || (m =? 9) || (m =? 11))%Z then 30
  else 31.

Definition in_range (y mo d h mi se : Z) : bool :=
  ((1 <=? y) && (1 <=? mo) && (mo <=? 12) && (1 <=? d)
   && (d <=? days_in_month y mo) && (h <? 24) && (mi <? 60) && (se <? 60))%Z.

Definition fromisoformat (s : string) : option datetime :=
  if (String.length s =? 25)%nat && sep s 4 "-" && sep s 7 "-"
     && sep s 10 "T" && sep s 13 ":" && sep s 16 ":"
     && String.eqb (substring 19 6 s) "+00:00"
  then
    match num (substring 0 4 s), num (substring 5 2 s),
          num (substring 8 2 s), num (substring 11 2 s),
          num (substring 14 2 s), num (substring 17 2 s) with
    | Some y, Some mo, Some d, Some h, Some mi, Some se =>
        if in_range y mo d h mi se then Some s else None
    | _, _, _, _, _, _ => None
    end
  else None.

Definition isoformat (d : datetime) : string := d.

Definition strftime (d : datetime) : string :=
  substring 0 10 d ++ " " ++ substring 11 8 d.

Definition ltb (d1 d2 : datetime) : bool := String.ltb d1 d2.

End Utc.

(** ** A concrete [datetime]: timestamps with an offset

    The fragment of [fromisoformat] on the forms
    [YYYY-MM-DDTHH:MM:SS+HH:MM] and [YYYY-MM-DDTHH:MM:SS.ffffff+HH:MM],
    the sign of the offset being [+] or [-].  A parsed value holds the
    fields as they are written, and the offset; two values are compared by
    the instants they denote, so that values written with different offsets
    can be neither before nor after one another without being the same
    value.  All the values carry an offset: the [TypeError] of comparing a
    value that has one with a value that has none does not arise. *)

Module Iso.

Record datetime : Type := {
  year : Z;
  month : Z;
  day : Z;
  hour : Z;
  minute : Z;
  second : Z;
  microsecond : Z;
  (** minutes east of UTC *)
  utcoffset : Z
}.

(** The six fields of [YYYY-MM-DDTHH:MM:SS], the first 19 characters. *)
Definition fields (s : string) : option (Z * Z * Z * Z * Z * Z) :=
  if Utc.sep s 4 "-" && Utc.sep s 7 "-" && Utc.sep s 10 "T"
     && Utc.sep s 13 ":" && Utc.sep s 16 ":"
  then
    match Utc.num (substring 0 4 s), Utc.num (substring 5 2 s),
          Utc.num (substring 8 2 s), Utc.num (substring 11 2 s),
          Utc.num (substring 14 2 s), Utc.num (substring 17 2 s) with
    | Some y, Some mo, Some d, Some h, Some mi, Some se =>
        if Utc.in_range y mo d h mi se
        then Some (y, mo, d, h, mi, se) else None
    | _, _, _, _, _, _ => None
    end
  else None.

(** The offset [+HH:MM] or [-HH:MM], in minutes. *)
Definition offset (s : string) : option Z :=
  if (String.length s =? 6)%nat && Utc.sep s 3 ":"
  then
    match Utc.num (substring 1 2 s), Utc.num (substring 4 2 s) with
    | Some h, Some m =>
        if ((h <? 24) && (m <? 60))%Z
        then if Utc.sep s 0 "+" then Some (60 * h + m)%Z
             else if Utc.sep s 0 "-" then Some (- (60 * h + m))%Z
                  else None
        else None
    | _, _ => None
    end
  else None.

Definition make (f : Z * Z * Z * Z * Z * Z) (us off : Z) : datetime :=
  let '(y, mo, d, h, mi, se) := f in
  {| year := y; month := mo; day := d; hour := h; minute := mi;
     second := se; microsecond := us; utcoffset := off |}.

Definition fromisoformat (s : string) : option datetime :=
  if (String.length s =? 25)%nat then
    match fields s, offset (substring 19 6 s) with
    | Some f, Some off => Some (make f 0 off)
    | _, _ => None
    end
  else if (String.length s =? 32)%nat && Utc.sep s 19 "." then
    match fields s, Utc.num (substring 20 6 s),
          offset (substring 26 6 s) with
    | Some f, Some us, Some off => Some (make f us off)
    | _, _, _ => None
    end
  else None.

(** The days from 1970-01-01 to a date of the Gregorian calendar. *)
Definition days_from_civil (y m d : Z) : Z :=
  let y' := if (m <=? 2)%Z then (y - 1)%Z else y in
  let era := (y' / 400)%Z in
  let yoe := (y' - era * 400)%Z in
  let mp := if (m <=? 2)%Z then (m + 9)%Z else (m - 3)%Z in
  let doy := ((153 * mp + 2) / 5 + d - 1)%Z in
  let doe := (yoe * 365 + yoe / 4 - yoe / 100 + doy)%Z in
  (era * 146097 + doe - 719468)%Z.

(** The instant a value denotes, in microseconds of UTC. *)
Definition instant (t : datetime) : Z :=
  ((days_from_civil (year t) (month t) (day t) * 86400
    + hour t * 3600 + minute t * 60 + second t - utcoffset t * 60)
   * 1000000 + microsecond t)%Z.

(** [t1 < t2] *)
Definition ltb (t1 t2 : datetime) : bool := (instant t1 <? instant t2)%Z.

(** The last [n] decimal digits of a number. *)
Fixpoint digits (n : nat) (z : Z) : string :=
  match n with
  | O => ""
  | S n' =>
      digits n' (z / 10)
      ++ String (ascii_of_N (Z.to_N (48 + z mod 10))) ""
  end.

Definition date_text (t : datetime) : string :=
  digits 4 (year t) ++ "-" ++ digits 2 (month t) ++ "-"
  ++ digits 2 (day t).

Definition time_text (t : datetime) : string :=
  digits 2 (hour t) ++ ":" ++ digits 2 (minute t) ++ ":"
  ++ digits 2 (second t).

Definition offset_text (off : Z) : string :=
  (if (off <? 0)%Z then "-" else "+")
  ++ digits 2 (Z.abs off / 60) ++ ":" ++ digits 2 (Z.abs off mod 60).

(** [t.isoformat()]: the microseconds are written when they are not 0. *)
Definition isoformat (t : datetime) : string :=
  date_text t ++ "T" ++ time_text t
  ++ (if (microsecond t =? 0)%Z then ""
      else "." ++ digits 6 (microsecond t))
  ++ offset_text (utcoffset t).

(** [t.strftime("%Y-%m-%d %H:%M:%S")] *)
Definition strftime (t : datetime) : string :=
  date_text t ++ " " ++ time_text t.

End Iso.

(** ** Sample records *)

Module Sample.

Definition raw_user (uid name : string) : raw_author :=
  {| ra_id := Some uid; ra_username := Some name;
     ra_discriminator := Some "0"; ra_global_name := None;
     ra_bot := None; ra_avatar := None |}.

(** A raw record of user 42 with the given id, timestamp and content. *)
Definition raw (i : string) (ts : option string) (c : string)
  : raw_message :=
  {| r_id := Some i; r_timestamp := ts;
     r_author := Some (raw_user "42" "ada");
     r_content := Some c;
     r_attachments := None; r_embeds := None; r_reactions := None;
     r_mentions := None; r_mention_roles := None;
     r_message_reference := None; r_pinned := None;
     r_edited_timestamp := None; r_type := None; r_flags := None |}.

Definition t1 : string := "2024-03-01T10:00:00+00:00".
Definition t2 : string := "2024-03-01T10:05:00+00:00".
Definition t3 : string := "2024-03-02T08:30:00+00:00".

Definition raw1 : raw_message := raw "1001" (Some t1) "hi".
Definition raw2 : raw_message := raw "1002" (Some t2) "".
Definition raw3 : raw_message := raw "1003" (Some t3) "bye".
Definition raw_untimed : raw_message := raw "1004" None "lost".

Definition user (uid name : string) : author_info :=
  {| id := uid; username := name; discriminator := "0";
     display_name := name; bot := false; avatar := None |}.

(** A message as the extractor builds it. *)
Definition msg (a : author_info) (i ts c chan : string) : message :=
  {| message_id := i; channel_id := chan; channel_name := "general";
     timestamp := Utc.strftime ts; timestamp_iso := ts;
     author := a; full_username := make_full_username a;
     content := c; attachments := []; embeds := []; reactions := [];
     mentions := []; role_mentions := []; channel_mentions := [];
     reply_to := None; pinned := false; edited_timestamp := None;
     message_type := 0; flags := 0 |}.

Definition ada : author_info := user "42" "ada".
Definition ada_renamed : author_info := user "42" "countess".
Definition bob : author_info := user "7" "bob".

Definition a1 : message := msg ada "1001" t1 "hi" "c1".
Definition a2 : message := msg ada_renamed "1002" t2 "" "c2".
Definition a3 : message := msg ada "1003" t3 "bye" "c1".
Definition b1 : message := msg bob "1005" t2 "hello there" "c1".

(** Two pages of a crawl with page size 2, newest first, a rate limit in
    between. *)
Definition pages : list response :=
  [Ok200 [raw3; raw2]; RateLimited None; Ok200 [raw1]].

(** Messages of user 42 whose timestamps are written in several ways. *)
Definition stamp (ts : string) : string :=
  match Iso.fromisoformat (Py.replace_Z ts) with
  | Some t => Iso.strftime t
  | None => ""
  end.

Definition msg_at (i ts c : string) : message :=
  {| message_id := i; channel_id := "c1"; channel_name := "general";
     timestamp := stamp ts; timestamp_iso := ts;
     author := ada; full_username := make_full_username ada;
     content := c; attachments := []; embeds := []; reactions := [];
     mentions := []; role_mentions := []; channel_mentions := [];
     reply_to := None; pinned := false; edited_timestamp := None;
     message_type := 0; flags := 0 |}.

(** One instant, written with two offsets. *)
Definition utc_ten : message :=
  msg_at "2001" "2024-03-01T10:00:00+00:00" "here".
Definition cet_noon : message :=
  msg_at "2002" "2024-03-01T12:00:00+02:00" "there".

(** A later instant, with yet another offset. *)
Definition est_nine : message :=
  msg_at "2003" "2024-03-01T09:00:00-05:00" "later".

(** Three instants in ascending order, the first on a whole second. *)
Definition whole : message := msg_at "2011" "2024-03-01T10:00:00Z" "hi".
Definition tenth : message :=
  msg_at "2012" "2024-03-01T10:00:00.100000Z" "".
Definition fifth : message :=
  msg_at "2013" "2024-03-01T10:00:00.200000Z" "bye".

End Sample.

Section Extractor.

(** The [datetime] library. *)
Variable datetime : Type.
(** [datetime.datetime.fromisoformat]; [None] is its [ValueError]. *)
Variable fromisoformat : string -> option datetime.
(** [d.strftime("%Y-%m-%d %H:%M:%S")] *)
Variable strftime : datetime -> string.
(** [d.isoformat()] *)
Variable isoformat : datetime -> string.
(** [d1 < d2].  Between a value that has an offset and a value that has
    none the library raises [TypeError]; the values here are taken to be
    comparable with one another, as are the timestamps of the platform,
    which all carry an offset. *)
Variable dt_ltb : datetime -> datetime -> bool.

Definition parse_timestamp (s : string) : py datetime :=
  match fromisoformat (Py.replace_Z s) with
  | Some d => Ret d
  | None => Raise ValueError
  end.

(** *** The body of [for msg in batch] *)
Definition extract_message (channel_id channel_name : string)
           (msg : raw_message) : py message :=
  ts <- item "timestamp" (r_timestamp msg) ;;
  created_at <- parse_timestamp ts ;;
  a <- item "author" (r_author msg) ;;
  author_info <- extract_author a ;;
  attachments <- mapM extract_attachment (get (r_attachments msg) []) ;;
  reactions <- mapM extract_reaction (get (r_reactions msg) []) ;;
  mentions <- mapM extract_mention (get (r_mentions msg) []) ;;
  i <- item "id" (r_id msg) ;;
  Ret {| message_id := i;
         channel_id := channel_id;
         channel_name := channel_name;
         timestamp := strftime created_at;
         timestamp_iso := ts;
         author := author_info;
         full_username := make_full_username author_info;
         content := get (r_content msg) "";
         attachments := attachments;
         embeds := get (r_embeds msg) [];
         reactions := reactions;
         mentions := mentions;
         role_mentions := get (r_mention_roles msg) [];
         channel_mentions :=
           match r_content msg with
           | Some c => if Py.nonempty c
                       then find_channel_mentions None c else []
           | None => []
           end;
         reply_to := r_message_reference msg;
         pinned := get (r_pinned msg) false;
         edited_timestamp := r_edited_timestamp msg;
         message_type := get (r_type msg) 0%Z;
         flags := get (r_flags msg) 0%Z |}.

(** *** The [while] loop of [extract_messages_with_content]

    Every iteration issues one request, so the loop is a recursion on the
    responses still to come.  [None]: the loop asks for a page although no
    response is left. *)
Record run : Type := {
  returned : py (list message);
  trace : list event;
  unread : list response
}.

Definition emit (ev : list event) (r : option run) : option run :=
  match r with
  | Some r' => Some {| returned := returned r';
                       trace := ev ++ trace r';
                       unread := unread r' |}
  | None => None
  end.

Definition under_budget (max_messages : option Z) (total_messages : Z)
  : bool :=
  match max_messages with
  | None => true
  | Some m => (total_messages <? m)%Z
  end.

Definition batch_limit_of (limit : Z) (max_messages : option Z)
           (total_messages : Z) : Z :=
  match max_messages with
  | None => limit
  | Some m => Z.min limit (m - total_messages)
  end.

Definition last_id (batch : list raw_message) : option string :=
  last (map r_id batch) None.

Section Loop.

Variables (channel_id channel_name : string).
Variables (limit : Z) (max_messages : option Z).

Fixpoint extract_loop (rs : list response) (messages : list message)
         (before : option string) (total_messages : Z) (has_more : bool)
  : option run :=
  if has_more && under_budget max_messages total_messages then
    match rs with
    | [] => None
    | r :: rs' =>
        let batch_limit :=
          batch_limit_of limit max_messages total_messages in
        let req := Request {| p_limit := batch_limit;
                              p_before := truthy before |} in
        match r with
        | Ok200 [] =>
            emit [req]
                 (extract_loop rs' messages before total_messages false)
        | Ok200 batch =>
            match mapM (extract_message channel_id channel_name) batch with
            | Raise e =>
                Some {| returned := Raise e; trace := [req];
                        unread := rs' |}
            | Ret ms =>
                emit [req]
                  (extract_loop rs' (messages ++ ms) (last_id batch)
                     (total_messages + Z.of_nat (List.length batch))
                     (if (Z.of_nat (List.length batch) <? batch_limit)%Z
                      then false else has_more))
            end
        | RateLimited retry_after =>
            emit [req; Sleep (get retry_after 5 + (1 # 2))%Q]
                 (extract_loop rs' messages before total_messages has_more)
        | HttpError _ _ =>
            emit [req]
                 (extract_loop rs' messages before total_messages false)
        end
    end
  else
    Some {| returned := Ret messages; trace := []; unread := rs |}.

End Loop.

Definition extract_messages_with_content (channel_id channel_name : string)
           (limit : Z) (before : option string) (max_messages : option Z)
           (rs : list response) : option run :=
  extract_loop channel_id channel_name limit max_messages rs [] before 0 true.

(** ** Per-user aggregation *)

(** [msg['author'].copy()] with the key [full_username] added. *)
Record user_snapshot : Type := {
  snapshot : author_info;
  ui_full_username : string
}.

(** The [stats] dictionary while the fold runs: [channels_used] is a set,
    [first_message] and [last_message] are [datetime] values.  The set is
    a duplicate-free list; the order in which Python enumerates a set is
    not fixed by the language, and here it is the order of insertion. *)
Record stats_acc : Type := {
  s_total_messages : Z;
  s_total_characters : Z;
  s_total_words : Z;
  s_channels_used : list string;
  s_attachments_sent : Z;
  s_embeds_sent : Z;
  s_reactions_received : Z;
  s_mentions_made : Z;
  s_first_message : option datetime;
  s_last_message : option datetime
}.

(** The [stats] dictionary as returned. *)
Record user_stats : Type := {
  total_messages : Z;
  total_characters : Z;
  total_words : Z;
  channels_used : list string;
  attachments_sent : Z;
  embeds_sent : Z;
  reactions_received : Z;
  mentions_made : Z;
  first_message : option string;
  last_message : option string;
  unique_channels : Z;
  avg_message_length : Q;
  avg_words_per_message : Q
}.

Record entry : Type := {
  e_user_info : option user_snapshot;
  e_messages : list message;
  e_stats : stats_acc
}.

Record user_aggregate : Type := {
  user_info : option user_snapshot;
  messages : list message;
  stats : user_stats
}.

(** The value the [defaultdict] builds for a new key. *)
Definition new_entry : entry :=
  {| e_user_info := None;
     e_messages := [];
     e_stats := {| s_total_messages := 0;
                   s_total_characters := 0;
                   s_total_words := 0;
                   s_channels_used := [];
                   s_attachments_sent := 0;
                   s_embeds_sent := 0;
                   s_reactions_received := 0;
                   s_mentions_made := 0;
                   s_first_message := None;
                   s_last_message := None |} |}.

(** [s.add(x)] *)
Definition set_add (x : string) (s : list string) : list string :=
  if existsb (String.eqb x) s then s else s ++ [x].

Definition len {A : Type} (l : list A) : Z := Z.of_nat (List.length l).

(** [len(content.split()) if content else 0] *)
Definition word_count (content : string) : Z :=
  if Py.nonempty content then len (Py.split content) else 0%Z.

(** [sum(reaction['count'] for reaction in msg['reactions'])] *)
Definition reaction_total (rs : list reaction) : Z := sumZ (map count rs).

(** [if first is None or msg_time < first: first = msg_time] *)
Definition track_first (first : option datetime) (msg_time : datetime)
  : option datetime :=
  match first with
  | None => Some msg_time
  | Some f => if dt_ltb msg_time f then Some msg_time else Some f
  end.

(** [if last is None or msg_time > last: last = msg_time] *)
Definition track_last (last : option datetime) (msg_time : datetime)
  : option datetime :=
  match last with
  | None => Some msg_time
  | Some l => if dt_ltb l msg_time then Some msg_time else Some l
  end.

Definition update_stats (st : stats_acc) (msg : message)
           (msg_time : datetime) : stats_acc :=
  {| s_total_messages := s_total_messages st + 1;
     s_total_characters := s_total_characters st + Py.len (content msg);
     s_total_words := s_total_words st + word_count (content msg);
     s_channels_used := set_add (channel_id msg) (s_channels_used st);
     s_attachments_sent := s_attachments_sent st + len (attachments msg);
     s_embeds_sent := s_embeds_sent st + len (embeds msg);
     s_reactions_received :=
       s_reactions_received st + reaction_total (reactions msg);
     s_mentions_made := s_mentions_made st + len (mentions msg);
     s_first_message := track_first (s_first_message st) msg_time;
     s_last_message := track_last (s_last_message st) msg_time |}.

(** One message folded into the aggregate of its author. *)
Definition update_entry (e : entry) (msg : message) (msg_time : datetime)
  : entry :=
  {| e_user_info :=
       match e_user_info e with
       | None => Some {| snapshot := author msg;
                         ui_full_username := full_username msg |}
       | Some ui => Some ui
       end;
     e_messages := e_messages e ++ [msg];
     e_stats := update_stats (e_stats e) msg msg_time |}.

(** The dictionary keyed by user id, in insertion order. *)
Definition dict (V : Type) : Type := list (string * V).

Fixpoint lookup {V : Type} (k : string) (d : dict V) : option V :=
  match d with
  | [] => None
  | (k', v) :: d' => if String.eqb k k' then Some v else lookup k d'
  end.

Fixpoint store {V : Type} (k : string) (v : V) (d : dict V) : dict V :=
  match d with
  | [] => [(k, v)]
  | (k', v') :: d' =>
      if String.eqb k k' then (k', v) :: d' else (k', v') :: store k v d'
  end.

Definition keys {V : Type} (d : dict V) : list string := map fst d.

(** The body of [for msg in messages].  The source parses the timestamp
    after it has updated the entry; as an exception leaves the function
    with no result, the order cannot be observed, and the parse comes first
    here. *)
Definition organize_step (user_data : dict entry) (msg : message)
  : py (dict entry) :=
  let user_id := id (author msg) in
  let e := get (lookup user_id user_data) new_entry in
  msg_time <- parse_timestamp (timestamp_iso msg) ;;
  Ret (store user_id (update_entry e msg msg_time) user_data).

Fixpoint foldM {A B : Type} (f : B -> A -> py B) (l : list A) (b : B)
  : py B :=
  match l with
  | [] => Ret b
  | a :: l' => b' <- f b a ;; foldM f l' b'
  end.

(** [a / b] on integers. *)
Definition truediv (a b : Z) : py Q :=
  if (b =? 0)%Z then Raise ZeroDivisionError
  else Ret (inject_Z a / inject_Z b)%Q.

(** [l.sort(key=...)]: the stable sort by a string key. *)
Fixpoint insert_by {A : Type} (key : A -> string) (x : A) (l : list A)
  : list A :=
  match l with
  | [] => [x]
  | y :: l' =>
      if String.ltb (key y) (key x) then y :: insert_by key x l'
      else x :: l
  end.

Definition sort_by {A : Type} (key : A -> string) (l : list A) : list A :=
  fold_right (insert_by key) [] l.

(** The body of [for user_id in user_data]. *)
Definition finalize_stats (st : stats_acc) : py user_stats :=
  let channels := s_channels_used st in
  avgs <- (if (s_total_messages st >? 0)%Z
           then a <- truediv (s_total_characters st) (s_total_messages st) ;;
                w <- truediv (s_total_words st) (s_total_messages st) ;;
                Ret (a, w)
           else Ret (0%Q, 0%Q)) ;;
  Ret {| total_messages := s_total_messages st;
         total_characters := s_total_characters st;
         total_words := s_total_words st;
         channels_used := channels;
         attachments_sent := s_attachments_sent st;
         embeds_sent := s_embeds_sent st;
         reactions_received := s_reactions_received st;
         mentions_made := s_mentions_made st;
         first_message := option_map isoformat (s_first_message st);
         last_message := option_map isoformat (s_last_message st);
         unique_channels := len channels;
         avg_message_length := fst avgs;
         avg_words_per_message := snd avgs |}.

Definition finalize (ke : string * entry) : py (string * user_aggregate) :=
  st <- finalize_stats (e_stats (snd ke)) ;;
  Ret (fst ke,
       {| user_info := e_user_info (snd ke);
          messages := sort_by timestamp_iso (e_messages (snd ke));
          stats := st |}).

Definition organize_messages_by_user (msgs : list message)
  : py (dict user_aggregate) :=
  user_data <- foldM organize_step msgs [] ;;
  mapM finalize user_data.

(** ** [extract_content_only] of the analyzer *)
Fixpoint content_list (msgs : list message) : list string :=
  match msgs with
  | [] => []
  | msg :: msgs' =>
      let c := Py.strip (content msg) in
      if Py.nonempty c then c :: content_list msgs' else content_list msgs'
  end.

Definition extract_content_only (user_data : user_aggregate) : list string :=
  content_list (messages user_data).

(** The timestamp of a raw record is present and parses. *)
Definition has_timestamp (msg : raw_message) : bool :=
  match r_timestamp msg with
  | Some ts =>
      match fromisoformat (Py.replace_Z ts) with
      | Some _ => true
      | None => false
      end
  | None => false
  end.

(** What a finished call hands back after reading [consumed], having
    started with [msgs]: either every page read was normalised whole and all
    its records are in the result, or the normalisation of a page raised and
    so did the call. *)
Definition loop_post (cid cname : string) (msgs : list message)
           (consumed : list response) (r : run) : Prop :=
  match returned r with
  | Ret out =>
      len out = (len msgs + sumZ (map page_size consumed))%Z /\
      forall batch, In (Ok200 batch) consumed ->
                    ~ raises (mapM (extract_message cid cname) batch)
  | Raise e =>
      exists batch, In (Ok200 batch) consumed /\
                    mapM (extract_message cid cname) batch = Raise e
  end.

(** The cursor after a response: a page with records moves it to the id of
    its last record, anything else leaves it. *)
Definition next_cursor (r : response) (before : option string)
  : option string :=
  match r with
  | Ok200 (m :: batch) => last_id (m :: batch)
  | _ => before
  end.

(** The reading of "a record with a bad timestamp never aborts the crawl":
    every finished call hands back a list of messages. *)
Definition crawl_survives (cid cname : string) (limit : Z)
           (before : option string) (max_messages : option Z)
           (rs : list response) : Prop :=
  forall r,
    extract_messages_with_content cid cname limit before max_messages rs
    = Some r ->
    exists out, returned r = Ret out.

(** ** Reading the aggregation one user at a time *)

(** [msg['author']['id'] == uid] *)
Definition is_author (uid : string) (msg : message) : bool :=
  String.eqb (id (author msg)) uid.

(** The parsed [timestamp_iso] of a message, when it parses. *)
Definition message_time (msg : message) : option datetime :=
  fromisoformat (Py.replace_Z (timestamp_iso msg)).

Definition parses (msg : message) : bool :=
  match message_time msg with
  | Some _ => true
  | None => false
  end.

(** The parsed timestamps of a list of messages. *)
Definition times (msgs : list message) : list datetime :=
  flat_map (fun m => match message_time m with
                     | Some t => [t]
                     | None => []
                     end) msgs.

(** The step of the fold on a message whose timestamp parses. *)
Definition fold_message (user_data : dict entry) (msg : message)
  : dict entry :=
  match message_time msg with
  | Some t =>
      store (id (author msg))
            (update_entry (get (lookup (id (author msg)) user_data) new_entry)
                          msg t)
            user_data
  | None => user_data
  end.

Definition add_message (e : entry) (msg : message) : entry :=
  match message_time msg with
  | Some t => update_entry e msg t
  | None => e
  end.

(** The statistics of the messages [l] added to [st]. *)
Definition stats_from (st : stats_acc) (l : list message) : stats_acc :=
  {| s_total_messages := s_total_messages st + len l;
     s_total_characters :=
       s_total_characters st + sumZ (map (fun m => Py.len (content m)) l);
     s_total_words :=
       s_total_words st + sumZ (map (fun m => word_count (content m)) l);
     s_channels_used :=
       fold_left (fun s c => set_add c s) (map channel_id l)
                 (s_channels_used st);
     s_attachments_sent :=
       s_attachments_sent st + sumZ (map (fun m => len (attachments m)) l);
     s_embeds_sent :=
       s_embeds_sent st + sumZ (map (fun m => len (embeds m)) l);
     s_reactions_received :=
       s_reactions_received st
       + sumZ (map (fun m => reaction_total (reactions m)) l);
     s_mentions_made :=
       s_mentions_made st + sumZ (map (fun m => len (mentions m)) l);
     s_first_message := fold_left track_first (times l) (s_first_message st);
     s_last_message := fold_left track_last (times l) (s_last_message st) |}.

(** [finalize_stats] without its monad. *)
Definition finalized_stats (st : stats_acc) : user_stats :=
  {| total_messages := s_total_messages st;
     total_characters := s_total_characters st;
     total_words := s_total_words st;
     channels_used := s_channels_used st;
     attachments_sent := s_attachments_sent st;
     embeds_sent := s_embeds_sent st;
     reactions_received := s_reactions_received st;
     mentions_made := s_mentions_made st;
     first_message := option_map isoformat (s_first_message st);
     last_message := option_map isoformat (s_last_message st);
     unique_channels := len (s_channels_used st);
     avg_message_length :=
       if (s_total_messages st >? 0)%Z
       then (inject_Z (s_total_characters st)
             / inject_Z (s_total_messages st))%Q
       else 0%Q;
     avg_words_per_message :=
       if (s_total_messages st >? 0)%Z
       then (inject_Z (s_total_words st) / inject_Z (s_total_messages st))%Q
       else 0%Q |}.

Definition finalized_entry (e : entry) : user_aggregate :=
  {| user_info := e_user_info e;
     messages := sort_by timestamp_iso (e_messages e);
     stats := finalized_stats (e_stats e) |}.

Definition finalized (ke : string * entry) : string * user_aggregate :=
  (fst ke, finalized_entry (snd ke)).

(** The aggregate of the messages [l] of one user, in arrival order. *)
Definition aggregate_of (l : list message) : user_aggregate :=
  finalized_entry (fold_left add_message l new_entry).

(** The author snapshot a message carries. *)
Definition snapshot_of (msg : message) : user_snapshot :=
  {| snapshot := author msg; ui_full_username := full_username msg |}.

(** [d] is a timestamp of [ts] that none of [ts] precedes. *)
Definition is_earliest (d : datetime) (ts : list datetime) : Prop :=
  In d ts /\ forall t, In t ts -> dt_ltb t d = false.

(** [d] is a timestamp of [ts] that precedes none of [ts]. *)
Definition is_latest (d : datetime) (ts : list datetime) : Prop :=
  In d ts /\ forall t, In t ts -> dt_ltb d t = false.

(** Two [stats] dictionaries with the same values, [channels_used] being
    compared as a set. *)
Definition same_stats (a b : user_stats) : Prop :=
  total_messages a = total_messages b /\
  total_characters a = total_characters b /\
  total_words a = total_words b /\
  (forall c, In c (channels_used a) <-> In c (channels_used b)) /\
  unique_channels a = unique_channels b /\
  attachments_sent a = attachments_sent b /\
  embeds_sent a = embeds_sent b /\
  reactions_received a = reactions_received b /\
  mentions_made a = mentions_made b /\
  avg_message_length a = avg_message_length b /\
  avg_words_per_message a = avg_words_per_message b /\
  first_message a = first_message b /\
  last_message a = last_message b.

(** Ascending order of the sort key. *)
Definition by_timestamp (a b : message) : Prop :=
  String.leb (timestamp_iso a) (timestamp_iso b) = true.

(** The sum of [total_messages] over all users. *)
Definition total_over_users (d : dict user_aggregate) : Z :=
  sumZ (map (fun kv => total_messages (stats (snd kv))) d).

(** The sum of [total_messages] over the entries of the fold. *)
Definition total_in_fold (ud : dict entry) : Z :=
  sumZ (map (fun ke => s_total_messages (e_stats (snd ke))) ud).

(** Two [stats] dictionaries with the same values but for
    [first_message] and [last_message]. *)
Definition same_counts (a b : user_stats) : Prop :=
  total_messages a = total_messages b /\
  total_characters a = total_characters b /\
  total_words a = total_words b /\
  (forall c, In c (channels_used a) <-> In c (channels_used b)) /\
  unique_channels a = unique_channels b /\
  attachments_sent a = attachments_sent b /\
  embeds_sent a = embeds_sent b /\
  reactions_received a = reactions_received b /\
  mentions_made a = mentions_made b /\
  avg_message_length a = avg_message_length b /\
  avg_words_per_message a = avg_words_per_message b.

(** On the timestamps [ts], [<] is a strict total order: no two of them
    that differ denote the same instant. *)
Definition strict_total_on (ts : list datetime) : Prop :=
  (forall x, In x ts -> dt_ltb x x = false) /\
  (forall x y z, In x ts -> In y ts -> In z ts ->
                 dt_ltb x y = true -> dt_ltb y z = true ->
                 dt_ltb x z = true) /\
  (forall x y, In x ts -> In y ts ->
               dt_ltb x y = false -> dt_ltb y x = false -> x = y).

(** The message [a] was written before the message [b]. *)
Definition precedes (a b : message) : bool :=
  match message_time a, message_time b with
  | Some ta, Some tb => dt_ltb ta tb
  | _, _ => false
  end.

(** No message of the list was written before one that stands earlier in
    the list. *)
Definition oldest_first (l : list message) : Prop :=
  StronglySorted (fun a b => precedes b a = false) l.

(** Among the messages [l], the order of the timestamp texts goes with the
    order of time. *)
Definition text_order_is_time_order (l : list message) : Prop :=
  forall a b, In a l -> In b l ->
              String.leb (timestamp_iso a) (timestamp_iso b) = true ->
              precedes b a = false.

(** ** [chunk_messages] of the analyzer *)

(** The double quote that the chunker puts around a message. *)
Definition quote : string := String "034"%char EmptyString.

(** [len(f'"{content}"') + 1], the newline counted. *)
Definition content_length (content : string) : Z :=
  (Py.len (quote ++ content ++ quote) + 1)%Z.

(** The three variables of the loop. *)
Record chunker : Type := {
  chunks : list (list string);
  current_chunk : list string;
  current_length : Z
}.

Definition is_empty {A : Type} (l : list A) : bool :=
  match l with
  | [] => true
  | _ :: _ => false
  end.

(** The body of [for content in content_list]. *)
Definition chunk_step (max_chars_per_chunk : Z) (st : chunker)
           (content : string) : chunker :=
  if (current_length st + content_length content >? max_chars_per_chunk)%Z
     && negb (is_empty (current_chunk st))
  then {| chunks := chunks st ++ [current_chunk st];
          current_chunk := [content];
          current_length := content_length content |}
  else {| chunks := chunks st;
          current_chunk := current_chunk st ++ [content];
          current_length :=
            (current_length st + content_length content)%Z |}.

Definition chunk_messages (content_list : list string)
           (max_chars_per_chunk : Z) : list (list string) :=
  let st := fold_left (chunk_step max_chars_per_chunk) content_list
                      {| chunks := []; current_chunk := [];
                         current_length := 0 |} in
  if negb (is_empty (current_chunk st))
  then chunks st ++ [current_chunk st]
  else chunks st.

(** What a chunk costs against the limit. *)
Definition chunk_size (chunk : list string) : Z :=
  sumZ (map content_length chunk).

(** The chunks still to come from the messages [l], the chunk [cur] being
    open. *)
Fixpoint chunks_from (max_chars_per_chunk : Z) (cur : list string)
         (l : list string) : list (list string) :=
  match l with
  | [] => if is_empty cur then [] else [cur]
  | c :: l' =>
      if (chunk_size cur + content_length c >? max_chars_per_chunk)%Z
         && negb (is_empty cur)
      then cur :: chunks_from max_chars_per_chunk [c] l'
      else chunks_from max_chars_per_chunk (cur ++ [c]) l'
  end.

(** Each chunk is closed only because the message that follows it did not
    fit. *)
Fixpoint packed (max_chars_per_chunk : Z) (cs : list (list string)) : Prop :=
  match cs with
  | c1 :: (c2 :: _) as tl =>
      match c2 with
      | m :: _ => (chunk_size c1 + content_length m > max_chars_per_chunk)%Z
      | [] => False
      end /\ packed max_chars_per_chunk tl
  | _ => True
  end.


(** ** Reading the extractor's results *)

(** The records of the pages in a list of responses, in order. *)
Definition records (rs : list response) : list raw_message :=
  flat_map (fun r => match r with
                     | Ok200 batch => batch
                     | _ => []
                     end) rs.

Definition present {A : Type} (o : option A) : bool :=
  match o with
  | Some _ => true
  | None => false
  end.

(** The keys that the loop body reads with [d['k']]. *)
Definition attachment_complete (t : raw_attachment) : bool :=
  present (rt_id t) && present (rt_filename t) && present (rt_size t)
  && present (rt_url t).

Definition reaction_complete (r : raw_reaction) : bool :=
  present (rr_emoji r) && present (rr_count r).

Definition mention_complete (m : raw_mention) : bool :=
  present (rm_id m) && present (rm_username m).

Definition author_complete (a : option raw_author) : bool :=
  match a with
  | Some a' => present (ra_id a') && present (ra_username a')
  | None => false
  end.

(** A record that the loop body can turn into a message. *)
Definition well_formed (msg : raw_message) : bool :=
  has_timestamp msg
  && author_complete (r_author msg)
  && forallb attachment_complete (get (r_attachments msg) [])
  && forallb reaction_complete (get (r_reactions msg) [])
  && forallb mention_complete (get (r_mentions msg) [])
  && present (r_id msg).


(** ** Reading the aggregator's results *)

(** The elements of a list, each kept at its first appearance. *)
Fixpoint distinct (l : list string) : list string :=
  match l with
  | [] => []
  | x :: l' => x :: filter (fun y => negb (String.eqb y x)) (distinct l')
  end.

(** Strictly descending timestamps, as one channel's crawl delivers its
    messages. *)
Definition newest_first (l : list message) : Prop :=
  StronglySorted
    (fun a b => String.ltb (timestamp_iso b) (timestamp_iso a) = true) l.

(** The messages that carry a given timestamp text. *)
Definition stamped (ts : string) (l : list message) : list message :=
  filter (fun m => String.eqb (timestamp_iso m) ts) l.


(** ** [save_user_data]: file names and the CSV summary

    The files themselves are not modelled; what is modelled is the name
    under which a user is saved and the rows of [user_summary.csv]. *)

(** [c.isalnum()] on the code points below 256. *)
Definition isalnum (c : ascii) : bool :=
  let n := N_of_ascii c in
  ((48 <=? n) && (n <=? 57) || (65 <=? n) && (n <=? 90)
   || (97 <=? n) && (n <=? 122)
   || (n =? 170) || (n =? 178) || (n =? 179) || (n =? 181) || (n =? 185)
   || (n =? 186) || (188 <=? n) && (n <=? 190)
   || (192 <=? n) && (n <=? 214) || (216 <=? n) && (n <=? 246)
   || (248 <=? n) && (n <=? 255))%N.

(** [c.isalnum() or c in "._-"] *)
Definition safe_char (c : ascii) : bool :=
  isalnum c || Ascii.eqb c "."%char || Ascii.eqb c "_"%char
  || Ascii.eqb c "-"%char.

Fixpoint keep (f : ascii -> bool) (s : string) : string :=
  match s with
  | EmptyString => EmptyString
  | String c s' => if f c then String c (keep f s') else keep f s'
  end.

(** ["".join(c for c in username if c.isalnum() or c in "._-")] *)
Definition safe_username (username : string) : string :=
  keep safe_char username.

(** [round(x, 2)], a function of the language. *)
Variable round2 : Q -> Q.

Record csv_row : Type := {
  row_user_id : string;
  row_username : string;
  row_display_name : string;
  row_full_username : string;
  row_is_bot : bool;
  row_total_messages : Z;
  row_total_characters : Z;
  row_total_words : Z;
  row_avg_message_length : Q;
  row_avg_words_per_message : Q;
  row_unique_channels : Z;
  row_attachments_sent : Z;
  row_embeds_sent : Z;
  row_reactions_received : Z;
  row_mentions_made : Z;
  row_first_message : option string;
  row_last_message : option string
}.

(** The row of one user; [None] is the [TypeError] of subscripting a
    [user_info] that is [None]. *)
Definition csv_row_of (kv : string * user_aggregate) : option csv_row :=
  match user_info (snd kv) with
  | None => None
  | Some ui =>
      let st := stats (snd kv) in
      Some {| row_user_id := fst kv;
              row_username := username (snapshot ui);
              row_display_name := display_name (snapshot ui);
              row_full_username := ui_full_username ui;
              row_is_bot := bot (snapshot ui);
              row_total_messages := total_messages st;
              row_total_characters := total_characters st;
              row_total_words := total_words st;
              row_avg_message_length := round2 (avg_message_length st);
              row_avg_words_per_message :=
                round2 (avg_words_per_message st);
              row_unique_channels := unique_channels st;
              row_attachments_sent := attachments_sent st;
              row_embeds_sent := embeds_sent st;
              row_reactions_received := reactions_received st;
              row_mentions_made := mentions_made st;
              row_first_message := first_message st;
              row_last_message := last_message st |}
  end.

Fixpoint all_rows (d : dict user_aggregate) : option (list csv_row) :=
  match d with
  | [] => Some []
  | kv :: d' =>
      match csv_row_of kv, all_rows d' with
      | Some row, Some rows => Some (row :: rows)
      | _, _ => None
      end
  end.

(** [l.sort(key=..., reverse=True)]: the stable sort in descending order
    of an integer key. *)
Fixpoint insert_desc {A : Type} (key : A -> Z) (x : A) (l : list A)
  : list A :=
  match l with
  | [] => [x]
  | y :: l' =>
      if (key x <? key y)%Z then y :: insert_desc key x l' else x :: l
  end.

Definition sort_desc {A : Type} (key : A -> Z) (l : list A) : list A :=
  fold_right (insert_desc key) [] l.

(** [csv_data], as written to [user_summary.csv]. *)
Definition csv_data (user_data : dict user_aggregate)
  : option (list csv_row) :=
  match all_rows user_data with
  | Some rows => Some (sort_desc row_total_messages rows)
  | None => None
  end.


(** ** [enumerate_channels] and [extract_server_content] *)

(** A channel object of the API.  [None]: the object has no such key.  Of
    [parent_id] the value may be JSON's [null], the inner [None]; the ids
    and names are strings. *)
Record raw_channel : Type := {
  ch_id : option string;
  ch_name : option string;
  ch_type : option Z;
  ch_parent_id : option (option string)
}.

Record channel_entry : Type := {
  ce_name : string;
  ce_type : string;
  ce_category : string
}.

(** The answer to a request: [None] when [requests.get] raises, else the
    status code and, for a status 200, the decoded body. *)
Definition http (A : Type) : Type := option (Z * A).

(** The first loop of [enumerate_channels]: the categories, by id.  In
    [categories[channel['id']] = channel['name']] the right-hand side is
    evaluated first. *)
Definition add_category (categories : dict string) (channel : raw_channel)
  : py (dict string) :=
  t <- item "type" (ch_type channel) ;;
  if (t =? 4)%Z then
    n <- item "name" (ch_name channel) ;;
    i <- item "id" (ch_id channel) ;;
    Ret (store i n categories)
  else Ret categories.

Definition type_label (t : Z) : string :=
  if (t =? 0)%Z then "Text"
  else if (t =? 2)%Z then "Voice"
  else if (t =? 5)%Z then "Announcement"
  else if (t =? 13)%Z then "Stage"
  else if (t =? 15)%Z then "Forum"
  else if (t =? 16)%Z then "MediaChannel"
  else "Unknown".

(** [channel.get('parent_id', '')] *)
Definition parent_key (channel : raw_channel) : option string :=
  get (ch_parent_id channel) (Some "").

(** [categories.get(channel.get('parent_id', ''), 'Uncategorized')]; the
    keys of [categories] are strings, so [null] is none of them. *)
Definition category_of (categories : dict string) (channel : raw_channel)
  : string :=
  match parent_key channel with
  | Some p => get (lookup p categories) "Uncategorized"
  | None => "Uncategorized"
  end.

(** The second loop: one entry for each channel that is not a category.
    A text or announcement channel is first put on the list that is
    printed, which reads its [id] and [name]. *)
Definition add_channel (categories : dict string)
           (channel_info : dict channel_entry) (channel : raw_channel)
  : py (dict channel_entry) :=
  t <- item "type" (ch_type channel) ;;
  if (t =? 4)%Z then Ret channel_info
  else
    _ <- (if (t =? 0)%Z || (t =? 5)%Z
          then i <- item "id" (ch_id channel) ;;
               n <- item "name" (ch_name channel) ;;
               Ret tt
          else Ret tt) ;;
    n <- item "name" (ch_name channel) ;;
    i <- item "id" (ch_id channel) ;;
    Ret (store i {| ce_name := n; ce_type := type_label t;
                    ce_category := category_of categories channel |}
               channel_info).

Definition build_channel_info (channels : list raw_channel)
  : py (dict channel_entry) :=
  categories <- foldM add_category channels [] ;;
  foldM (add_channel categories) channels [].

(** [None]: the function returns [None]. *)
Definition enumerate_channels (server : http unit)
           (channel_list : http (list raw_channel))
  : py (option (dict channel_entry)) :=
  match server with
  | None => Ret None
  | Some (status, _) =>
      if (status =? 200)%Z then
        match channel_list with
        | None => Ret None
        | Some (status', channels) =>
            if (status' =? 200)%Z
            then info <- build_channel_info channels ;; Ret (Some info)
            else Ret None
        end
      else Ret None
  end.

(** The name under which a channel is crawled. *)
Definition channel_name_of (text_channels : dict channel_entry)
           (channel_id : string) : string :=
  match lookup channel_id text_channels with
  | Some info => ce_name info
  | None => "Unknown"
  end.

(** [info['type'] in ['Text', 'Announcement']] *)
Definition is_text (info : channel_entry) : bool :=
  String.eqb (ce_type info) "Text" || String.eqb (ce_type info) "Announcement".

(** The [for] loop over the channels of [extract_server_content]: the
    answers of the network come one list for each channel.  [None]: a crawl
    asks for a page although no response is left. *)
Fixpoint crawl_channels (text_channels : dict channel_entry)
         (max_messages : option Z) (channel_ids : list string)
         (answers : list (list response)) (all_messages : list message)
  : option (py (list message)) :=
  match channel_ids with
  | [] => Some (Ret all_messages)
  | channel_id :: ids =>
      let channel_name :=
        match lookup channel_id text_channels with
        | Some info => ce_name info
        | None => "Unknown"
        end in
      match answers with
      | [] => None
      | rs :: answers' =>
          match extract_messages_with_content channel_id channel_name
                  100 None max_messages rs with
          | None => None
          | Some r =>
              match returned r with
              | Raise e => Some (Raise e)
              | Ret channel_messages =>
                  crawl_channels text_channels max_messages ids answers'
                                 (all_messages ++ channel_messages)
              end
          end
      end
  end.

(** How [extract_server_content] ends. *)
Inductive outcome : Type :=
| Saved (user_data : dict user_aggregate)
| Nothing
| Uncaught (e : exn)
| AttributeError.

(** The text channels and the ids to crawl, or how the function ends
    before the crawl. *)
Definition select_channels (channel_ids : option (list string))
           (all_channels : option (dict channel_entry))
  : outcome + (dict channel_entry * list string) :=
  match channel_ids with
  | None =>
      match all_channels with
      | None | Some [] => inl Nothing
      | Some info =>
          let text_channels := filter (fun kv => is_text (snd kv)) info in
          match keys text_channels with
          | [] => inl Nothing
          | ids => inr (text_channels, ids)
          end
      end
  | Some ids =>
      match all_channels with
      | None => inl AttributeError
      | Some info =>
          let text_channels :=
            filter (fun kv => existsb (String.eqb (fst kv)) ids
                              && is_text (snd kv)) info in
          match ids with
          | [] => inl Nothing
          | _ => inr (text_channels, ids)
          end
      end
  end.

(** [server] and [channel_list] are the answers to the two requests of
    [enumerate_channels], [answers] those to the requests of the crawl,
    channel by channel.  The request for the server name, made first, only
    names the directory that [save_user_data] writes; [Saved] is the call
    of [save_user_data] on the aggregation.  [None]: a crawl asks for a
    page although no response is left. *)
Definition extract_server_content (server : http unit)
           (channel_list : http (list raw_channel))
           (channel_ids : option (list string)) (max_messages : option Z)
           (answers : list (list response)) : option outcome :=
  match enumerate_channels server channel_list with
  | Raise e => Some (Uncaught e)
  | Ret all_channels =>
      match select_channels channel_ids all_channels with
      | inl o => Some o
      | inr (text_channels, ids) =>
          match crawl_channels text_channels max_messages ids answers [] with
          | None => None
          | Some (Raise e) => Some (Uncaught e)
          | Some (Ret []) => Some Nothing
          | Some (Ret all_messages) =>
              match organize_messages_by_user all_messages with
              | Raise e => Some (Uncaught e)
              | Ret user_data => Some (Saved user_data)
              end
          end
      end
  end.


(** A channel record with the keys that [enumerate_channels] reads. *)
Definition channel_complete (channel : raw_channel) : bool :=
  present (ch_id channel) && present (ch_name channel)
  && present (ch_type channel).

Definition is_category (channel : raw_channel) : bool :=
  match ch_type channel with
  | Some t => (t =? 4)%Z
  | None => false
  end.

Definition has_id (i : string) (channel : raw_channel) : bool :=
  match ch_id channel with
  | Some i' => String.eqb i' i
  | None => false
  end.

(** The two loops on complete records, without their monad. *)
Definition with_category (categories : dict string) (channel : raw_channel)
  : dict string :=
  match ch_id channel, ch_name channel with
  | Some i, Some n =>
      if is_category channel then store i n categories else categories
  | _, _ => categories
  end.

Definition with_channel (categories : dict string)
           (channel_info : dict channel_entry) (channel : raw_channel)
  : dict channel_entry :=
  match ch_id channel, ch_name channel, ch_type channel with
  | Some i, Some n, Some t =>
      if (t =? 4)%Z then channel_info
      else store i {| ce_name := n; ce_type := type_label t;
                      ce_category := category_of categories channel |}
                 channel_info
  | _, _, _ => channel_info
  end.


(** The delays named by the rate-limit responses of a list, in order. *)
Definition rate_limits (rs : list response) : list (option Q) :=
  flat_map (fun r => match r with
                     | RateLimited ra => [ra]
                     | _ => []
                     end) rs.

Fixpoint all_digits (s : string) : bool :=
  match s with
  | EmptyString => true
  | String c s' => is_digit c && all_digits s'
  end.


(** ** Facts about the error monad *)

Lemma mapM_length {A B : Type} (f : A -> py B) (l : list A) (l' : list B) :
  mapM f l = Ret l' -> List.length l' = List.length l.
Proof.
  revert l'; induction l as [|a l IH]; simpl; intros l' H.
  - inversion H; reflexivity.
  - destruct (f a) as [b|e]; simpl in H; [|discriminate].
    destruct (mapM f l) as [bs|e]; simpl in H; [|discriminate].
    inversion H; subst; simpl. now rewrite (IH bs).
Qed.

Lemma mapM_raises_in {A B : Type} (f : A -> py B) (l : list A) (a : A) :
  In a l -> raises (f a) -> raises (mapM f l).
Proof.
  induction l as [|x l IH]; simpl; intros Hin Hr; [contradiction|].
  destruct Hin as [->|Hin].
  - destruct Hr as [e ->]. now exists e.
  - destruct (f x) as [b|e]; simpl; [|now exists e].
    destruct (IH Hin Hr) as [e ->]. now exists e.
Qed.

Lemma emit_Some (ev : list event) (o : option run) (r : run) :
  emit ev o = Some r ->
  exists r', o = Some r' /\ returned r = returned r'
             /\ trace r = ev ++ trace r' /\ unread r = unread r'.
Proof.
  destruct o as [r'|]; simpl; intros H; [|discriminate].
  inversion H; subst; simpl. now exists r'.
Qed.

(** ** The pagination loop *)

Lemma extract_message_timestamp (cid cname : string) (msg : raw_message) :
  has_timestamp msg = false -> raises (extract_message cid cname msg).
Proof.
  unfold has_timestamp, extract_message, parse_timestamp.
  destruct (r_timestamp msg) as [ts|]; simpl.
  - destruct (fromisoformat (Py.replace_Z ts)); [discriminate|].
    intros _. now exists ValueError.
  - intros _. now exists (KeyError "timestamp").
Qed.

Lemma returned_emit (ev : list event) (o : option run) :
  option_map returned (emit ev o) = option_map returned o.
Proof. now destruct o. Qed.

Section LoopFacts.

Variables (cid cname : string) (limit : Z) (max_messages : option Z).

Local Abbreviation loop := (extract_loop cid cname limit max_messages).
Local Abbreviation normalize := (mapM (extract_message cid cname)).
Local Abbreviation continuing hm total :=
  (hm && under_budget max_messages total).
Local Abbreviation request_of before total :=
  (Request {| p_limit := batch_limit_of limit max_messages total;
              p_before := truthy before |}).

Lemma loop_post_stop (msgs : list message) (l : list response) :
  loop_post cid cname msgs []
            {| returned := Ret msgs; trace := []; unread := l |}.
Proof. unfold loop_post; simpl. split; [lia|]. intros batch []. Qed.

Lemma loop_post_cons (msgs msgs' : list message) (r0 : response)
      (c : list response) (r r' : run) :
  loop_post cid cname msgs' c r' ->
  returned r = returned r' ->
  (forall batch, r0 = Ok200 batch -> ~ raises (normalize batch)) ->
  len msgs' = (len msgs + page_size r0)%Z ->
  loop_post cid cname msgs (r0 :: c) r.
Proof.
  unfold loop_post. intros H -> H0 Hlen.
  destruct (returned r') as [out|e].
  - destruct H as [Hout Hall]. split; [simpl; lia|].
    intros batch [->|Hin]; [now apply H0|now apply Hall].
  - destruct H as (batch & Hin & Hb). exists batch. split; [now right|easy].
Qed.

Lemma loop_spec (rs : list response) :
  forall msgs before total hm r,
    loop rs msgs before total hm = Some r ->
    exists consumed, rs = consumed ++ unread r /\ loop_post cid cname msgs consumed r.
Proof.
  induction rs as [|r0 rs IH]; intros msgs before total hm r H.
  - simpl in H. destruct (continuing hm total); [discriminate|].
    inversion H; subst. exists []. split; [reflexivity|].
    apply loop_post_stop.
  - simpl in H. destruct (continuing hm total).
    2:{ inversion H; subst. exists []. split; [reflexivity|].
        apply loop_post_stop. }
    destruct r0 as [[|m batch]|ra|code text].
    + apply emit_Some in H. destruct H as (r' & H & Hr & _ & Hu).
      destruct (IH _ _ _ _ _ H) as (c & -> & Hc).
      exists (Ok200 [] :: c). rewrite Hu. split; [reflexivity|].
      apply (loop_post_cons _ _ _ _ _ _ Hc Hr); [|simpl; lia].
      intros b Hb. inversion Hb; subst. intros [e He]. discriminate.
    + destruct (normalize (m :: batch)) as [ms|e] eqn:E.
      * apply emit_Some in H. destruct H as (r' & H & Hr & _ & Hu).
        destruct (IH _ _ _ _ _ H) as (c & -> & Hc).
        exists (Ok200 (m :: batch) :: c). rewrite Hu.
        split; [reflexivity|].
        apply (loop_post_cons _ _ _ _ _ _ Hc Hr).
        -- intros b Hb. inversion Hb; subst. intros [e He].
           rewrite E in He. discriminate.
        -- apply mapM_length in E. unfold len, page_size.
           rewrite length_app, <- E. lia.
      * inversion H; subst. exists [Ok200 (m :: batch)].
        split; [reflexivity|]. unfold loop_post; simpl.
        exists (m :: batch). split; [now left|exact E].
    + apply emit_Some in H. destruct H as (r' & H & Hr & _ & Hu).
      destruct (IH _ _ _ _ _ H) as (c & -> & Hc).
      exists (RateLimited ra :: c). rewrite Hu. split; [reflexivity|].
      apply (loop_post_cons _ _ _ _ _ _ Hc Hr); [|simpl; lia].
      intros b Hb. discriminate.
    + apply emit_Some in H. destruct H as (r' & H & Hr & _ & Hu).
      destruct (IH _ _ _ _ _ H) as (c & -> & Hc).
      exists (HttpError code text :: c). rewrite Hu.
      split; [reflexivity|].
      apply (loop_post_cons _ _ _ _ _ _ Hc Hr); [|simpl; lia].
      intros b Hb. discriminate.
Qed.

(** The loop stops at the latest on a page that is empty or shorter
    than [limit]. *)
Lemma loop_terminates (last : list raw_message) (rs : list response) :
  last = [] \/ (len last < limit)%Z ->
  forall msgs before total hm,
    exists r, loop (rs ++ [Ok200 last]) msgs before total hm = Some r.
Proof.
  intros Hlast.
  induction rs as [|r0 rs IH]; intros msgs before total hm.
  - simpl. destruct (continuing hm total) eqn:C; [|eexists; reflexivity].
    destruct last as [|m last]; [simpl; eexists; reflexivity|].
    destruct (normalize (m :: last)) as [ms|e]; [|eexists; reflexivity].
    destruct Hlast as [Hlast|Hlast]; [discriminate|].
    apply andb_prop in C. destruct C as [-> C].
    unfold len in Hlast.
    destruct (Z.of_nat (List.length (m :: last))
              <? batch_limit_of limit max_messages total)%Z eqn:Hlt;
      [simpl; eexists; reflexivity|].
    apply Z.ltb_ge in Hlt.
    assert (Hb : under_budget max_messages
                   (total + Z.of_nat (List.length (m :: last))) = false).
    { unfold under_budget, batch_limit_of in *.
      destruct max_messages as [mx|]; [|lia].
      apply Z.ltb_ge. lia. }
    simpl. simpl in Hb. rewrite Hb. simpl. eexists; reflexivity.
  - simpl. destruct (continuing hm total); [|eexists; reflexivity].
    destruct r0 as [[|m batch]|ra|code text].
    + destruct (IH msgs before total false) as [r ->].
      simpl. eexists; reflexivity.
    + destruct (normalize (m :: batch)) as [ms|e]; [|eexists; reflexivity].
      match goal with
      | |- context [loop _ ?a ?b ?c ?d] =>
          destruct (IH a b c d) as [r ->]
      end.
      simpl. eexists; reflexivity.
    + destruct (IH msgs before total hm) as [r ->].
      simpl. eexists; reflexivity.
    + destruct (IH msgs before total false) as [r ->].
      simpl. eexists; reflexivity.
Qed.

Lemma loop_stop (rs : list response) (msgs : list message)
      (before : option string) (total : Z) (hm : bool) :
  continuing hm total = false ->
  loop rs msgs before total hm
  = Some {| returned := Ret msgs; trace := []; unread := rs |}.
Proof. intros C. destruct rs; simpl; now rewrite C. Qed.

(** A loop that goes on first sends the request of its current state. *)
Lemma loop_first_request (rs : list response) (msgs : list message)
      (before : option string) (total : Z) (hm : bool) (r : run) :
  continuing hm total = true ->
  loop rs msgs before total hm = Some r ->
  exists tr, trace r = request_of before total :: tr.
Proof.
  intros C H. destruct rs as [|r0 rs]; simpl in H; rewrite C in H;
    [discriminate|].
  destruct r0 as [[|m batch]|ra|code text].
  - apply emit_Some in H. destruct H as (r' & _ & _ & Ht & _).
    rewrite Ht. simpl. eauto.
  - destruct (normalize (m :: batch)) as [ms|e].
    + apply emit_Some in H. destruct H as (r' & _ & _ & Ht & _).
      rewrite Ht. simpl. eauto.
    + inversion H; subst; simpl. eauto.
  - apply emit_Some in H. destruct H as (r' & _ & _ & Ht & _).
    rewrite Ht. simpl. eauto.
  - apply emit_Some in H. destruct H as (r' & _ & _ & Ht & _).
    rewrite Ht. simpl. eauto.
Qed.

(** One request is sent for each response read. *)
Lemma loop_requests_count (rs : list response) :
  forall msgs before total hm r,
    loop rs msgs before total hm = Some r ->
    (List.length (requests (trace r)) + List.length (unread r)
     = List.length rs)%nat.
Proof.
  induction rs as [|r0 rs IH]; intros msgs before total hm r H.
  - simpl in H. destruct (continuing hm total); [discriminate|].
    inversion H; subst; reflexivity.
  - simpl in H. destruct (continuing hm total);
      [|inversion H; subst; reflexivity].
    destruct r0 as [[|m batch]|ra|code text].
    + apply emit_Some in H. destruct H as (r' & H & _ & Ht & Hu).
      rewrite Ht, Hu. simpl. now rewrite (IH _ _ _ _ _ H).
    + destruct (normalize (m :: batch)) as [ms|e].
      * apply emit_Some in H. destruct H as (r' & H & _ & Ht & Hu).
        rewrite Ht, Hu. simpl. now rewrite (IH _ _ _ _ _ H).
      * inversion H; subst; reflexivity.
    + apply emit_Some in H. destruct H as (r' & H & _ & Ht & Hu).
      rewrite Ht, Hu. simpl. now rewrite (IH _ _ _ _ _ H).
    + apply emit_Some in H. destruct H as (r' & H & _ & Ht & Hu).
      rewrite Ht, Hu. simpl. now rewrite (IH _ _ _ _ _ H).
Qed.

(** A rate-limited response leaves the result of the call unchanged. *)
Lemma loop_skip_429 (ra : option Q) (pre post : list response) :
  forall msgs before total hm,
    option_map returned
               (loop (pre ++ RateLimited ra :: post) msgs before total hm)
    = option_map returned (loop (pre ++ post) msgs before total hm).
Proof.
  induction pre as [|r0 pre IH]; intros msgs before total hm.
  - destruct (continuing hm total) eqn:C.
    + simpl app. cbn [extract_loop]. rewrite C. now rewrite returned_emit.
    + now rewrite !loop_stop.
  - simpl. destruct (continuing hm total); [|reflexivity].
    destruct r0 as [[|m batch]|ra0|code text].
    + now rewrite !returned_emit.
    + destruct (normalize (m :: batch)); [|reflexivity].
      now rewrite !returned_emit.
    + now rewrite !returned_emit.
    + now rewrite !returned_emit.
Qed.

(** After a rate-limited response the loop sleeps and sends the request
    again. *)
Lemma loop_retry (ra : option Q) (pre post : list response) :
  forall msgs before total hm r,
    loop (pre ++ RateLimited ra :: post) msgs before total hm = Some r ->
    (List.length (unread r) <= List.length post)%nat ->
    exists tr1 p tr2,
      trace r = tr1 ++ [Request p; Sleep (get ra 5 + (1 # 2))%Q; Request p]
                    ++ tr2 /\
      List.length (requests tr1) = List.length pre.
Proof.
  induction pre as [|r0 pre IH]; intros msgs before total hm r H Hlen.
  - simpl app in H. cbn [extract_loop] in H.
    destruct (continuing hm total) eqn:C.
    + apply emit_Some in H. destruct H as (r' & H & _ & Ht & _).
      destruct (loop_first_request _ _ _ _ _ _ C H) as [tr Htr].
      exists [], {| p_limit := batch_limit_of limit max_messages total;
                    p_before := truthy before |}, tr.
      rewrite Ht, Htr. split; reflexivity.
    + inversion H; subst; simpl in Hlen. lia.
  - simpl in H. destruct (continuing hm total).
    2:{ inversion H; subst; simpl in Hlen. rewrite length_app in Hlen.
        simpl in Hlen. lia. }
    destruct r0 as [[|m batch]|ra0|code text].
    + apply emit_Some in H. destruct H as (r' & H & _ & Ht & Hu).
      rewrite Hu in Hlen.
      destruct (IH _ _ _ _ _ H Hlen) as (tr1 & p & tr2 & Htr & Hn).
      exists (request_of before total :: tr1), p, tr2.
      rewrite Ht, Htr. split; [reflexivity|]. simpl. now rewrite Hn.
    + destruct (normalize (m :: batch)) as [ms|e].
      * apply emit_Some in H. destruct H as (r' & H & _ & Ht & Hu).
        rewrite Hu in Hlen.
        destruct (IH _ _ _ _ _ H Hlen) as (tr1 & p & tr2 & Htr & Hn).
        exists (request_of before total :: tr1), p, tr2.
        rewrite Ht, Htr. split; [reflexivity|]. simpl. now rewrite Hn.
      * inversion H; subst; simpl in Hlen. rewrite length_app in Hlen.
        simpl in Hlen. lia.
    + apply emit_Some in H. destruct H as (r' & H & _ & Ht & Hu).
      rewrite Hu in Hlen.
      destruct (IH _ _ _ _ _ H Hlen) as (tr1 & p & tr2 & Htr & Hn).
      exists (request_of before total
                :: Sleep (get ra0 5 + (1 # 2))%Q :: tr1), p, tr2.
      rewrite Ht, Htr. split; [reflexivity|]. simpl. now rewrite Hn.
    + apply emit_Some in H. destruct H as (r' & H & _ & Ht & Hu).
      rewrite Hu in Hlen.
      destruct (IH _ _ _ _ _ H Hlen) as (tr1 & p & tr2 & Htr & Hn).
      exists (request_of before total :: tr1), p, tr2.
      rewrite Ht, Htr. split; [reflexivity|]. simpl. now rewrite Hn.
Qed.

(** One turn of the loop: the request is sent, and unless the page makes
    the normalisation raise the loop goes on with the next cursor. *)
Lemma loop_step (r0 : response) (rs : list response) (msgs : list message)
      (before : option string) (total : Z) (hm : bool) (r : run) :
  continuing hm total = true ->
  loop (r0 :: rs) msgs before total hm = Some r ->
  requests (trace r)
  = [{| p_limit := batch_limit_of limit max_messages total;
        p_before := truthy before |}] \/
  exists msgs' total' hm' r',
    loop rs msgs' (next_cursor r0 before) total' hm' = Some r' /\
    requests (trace r)
    = {| p_limit := batch_limit_of limit max_messages total;
         p_before := truthy before |} :: requests (trace r').
Proof.
  intros C H. simpl in H. rewrite C in H.
  destruct r0 as [[|m batch]|ra|code text].
  - apply emit_Some in H. destruct H as (r' & H & _ & Ht & _).
    right. exists msgs, total, false, r'. rewrite Ht. now split.
  - destruct (normalize (m :: batch)) as [ms|e].
    + apply emit_Some in H. destruct H as (r' & H & _ & Ht & _).
      right. eexists _, _, _, r'. rewrite Ht. split; [exact H|reflexivity].
    + inversion H; subst. now left.
  - apply emit_Some in H. destruct H as (r' & H & _ & Ht & _).
    right. exists msgs, total, hm, r'. rewrite Ht. now split.
  - apply emit_Some in H. destruct H as (r' & H & _ & Ht & _).
    right. exists msgs, total, false, r'. rewrite Ht. now split.
Qed.

(** As long as the responses are rate limits the cursor stays what it was. *)
Lemma loop_cursor_kept (rs : list response) :
  forall msgs before total hm r,
    loop rs msgs before total hm = Some r ->
    forall j p,
      (forall k, (k < j)%nat ->
                 exists ra, nth_error rs k = Some (RateLimited ra)) ->
      nth_error (requests (trace r)) j = Some p ->
      p_before p = truthy before.
Proof.
  induction rs as [|r0 rs IH]; intros msgs before total hm r H j p Hk Hp.
  - simpl in H. destruct (continuing hm total); [discriminate|].
    inversion H; subst. destruct j; discriminate.
  - destruct (continuing hm total) eqn:C.
    2:{ rewrite (loop_stop _ _ _ _ _ C) in H. inversion H; subst.
        destruct j; discriminate. }
    destruct (loop_step _ _ _ _ _ _ _ C H)
      as [Hr|(msgs' & total' & hm' & r' & H' & Hr)];
      rewrite Hr in Hp.
    + destruct j as [|[|j]]; try discriminate.
      inversion Hp; subst. reflexivity.
    + destruct j as [|j]; [inversion Hp; subst; reflexivity|].
      simpl in Hp.
      destruct (Hk 0%nat) as [ra Hra]; [lia|].
      inversion Hra; subst r0. simpl in H'.
      apply (IH _ _ _ _ _ H' j p); [|exact Hp].
      intros k Hlt. apply (Hk (S k)). lia.
Qed.

(** The requests that follow a page with records carry the id of its last
    record, up to the next response that is not a rate limit. *)
Lemma loop_cursor_page (rs : list response) :
  forall msgs before total hm r,
    loop rs msgs before total hm = Some r ->
    forall i j m batch p,
      nth_error rs i = Some (Ok200 (m :: batch)) ->
      (i < j)%nat ->
      (forall k, (i < k < j)%nat ->
                 exists ra, nth_error rs k = Some (RateLimited ra)) ->
      nth_error (requests (trace r)) j = Some p ->
      p_before p = truthy (last_id (m :: batch)).
Proof.
  induction rs as [|r0 rs IH];
    intros msgs before total hm r H i j m batch p Hi Hij Hk Hp.
  - destruct i; discriminate.
  - destruct (continuing hm total) eqn:C.
    2:{ rewrite (loop_stop _ _ _ _ _ C) in H. inversion H; subst.
        destruct j; discriminate. }
    destruct j as [|j]; [lia|].
    destruct (loop_step _ _ _ _ _ _ _ C H)
      as [Hr|(msgs' & total' & hm' & r' & H' & Hr)];
      rewrite Hr in Hp.
    + destruct j; discriminate.
    + simpl in Hp. destruct i as [|i].
      * inversion Hi; subst r0. simpl in H'.
        apply (loop_cursor_kept _ _ _ _ _ _ H' j p); [|exact Hp].
        intros k Hlt. apply (Hk (S k)). lia.
      * simpl in Hi.
        apply (IH _ _ _ _ _ H' i j m batch p Hi); [lia| |exact Hp].
        intros k Hlt. apply (Hk (S k)). lia.
Qed.

(** *** Properties of [extract_messages_with_content] *)

Local Abbreviation crawl before rs :=
  (extract_messages_with_content cid cname limit before max_messages rs).

(** C1. Whatever responses come first, once the sequence ends with a page
    that is empty or shorter than the requested size the call terminates:
    it reads a prefix [consumed] of the responses and stops.  When it
    returns, the number of messages returned is the sum of the sizes of the
    pages read, and it does return when no record read makes the
    normalisation raise. *)
Theorem pagination_terminates (before : option string)
        (rs : list response) (last : list raw_message) :
  last = [] \/ (len last < limit)%Z ->
  exists r consumed,
    crawl before (rs ++ [Ok200 last]) = Some r /\
    rs ++ [Ok200 last] = consumed ++ unread r /\
    (forall out, returned r = Ret out ->
                 len out = sumZ (map page_size consumed)) /\
    ((forall batch, In (Ok200 batch) consumed -> ~ raises (normalize batch))
     -> exists out, returned r = Ret out).
Proof.
  intros Hlast.
  destruct (loop_terminates last rs Hlast [] before 0%Z true) as [r Hr].
  destruct (loop_spec _ _ _ _ _ _ Hr) as (consumed & Hc & Hpost).
  exists r, consumed. split; [exact Hr|]. split; [exact Hc|].
  unfold loop_post in Hpost. destruct (returned r) as [out|e].
  - destruct Hpost as [Hlen _]. split.
    + intros out' Hout. inversion Hout; subst. exact Hlen.
    + intros _. now exists out.
  - destruct Hpost as (batch & Hin & Hb). split.
    + intros out Hout. discriminate.
    + intros Hall. exfalso. apply (Hall batch Hin). now exists e.
Qed.

(** C2, as the code has it.  A record whose timestamp is missing or does
    not parse is not skipped: when a page that the call has read holds such
    a record, the call raises and hands back no message at all. *)
Theorem bad_timestamp_raises (before : option string) (rs : list response)
        (r : run) (consumed : list response) (batch : list raw_message)
        (msg : raw_message) :
  crawl before rs = Some r ->
  rs = consumed ++ unread r ->
  In (Ok200 batch) consumed ->
  In msg batch ->
  has_timestamp msg = false ->
  raises (returned r).
Proof.
  intros Hr Hc Hin Hmsg Hts.
  destruct (loop_spec _ _ _ _ _ _ Hr) as (consumed' & Hc' & Hpost).
  assert (consumed' = consumed) as ->.
  { rewrite Hc in Hc'. now apply app_inv_tail in Hc'. }
  unfold loop_post in Hpost. destruct (returned r) as [out|e].
  - destruct Hpost as [_ Hall]. exfalso. apply (Hall batch Hin).
    apply (mapM_raises_in _ _ msg Hmsg).
    now apply extract_message_timestamp.
  - now exists e.
Qed.

(** C3. A response 429 costs one sleep of the delay the server names (5
    when it names none) plus 0.5, after which the same request, cursor
    included, is sent again; and the call hands back exactly what it hands
    back on the same responses without the 429. *)
Theorem rate_limit_is_transparent (before : option string) (ra : option Q)
        (pre post : list response) :
  option_map returned (crawl before (pre ++ RateLimited ra :: post))
  = option_map returned (crawl before (pre ++ post)) /\
  forall r,
    crawl before (pre ++ RateLimited ra :: post) = Some r ->
    (List.length (unread r) <= List.length post)%nat ->
    exists tr1 p tr2,
      trace r = tr1 ++ [Request p; Sleep (get ra 5 + (1 # 2))%Q; Request p]
                    ++ tr2 /\
      List.length (requests tr1) = List.length pre.
Proof.
  split.
  - apply loop_skip_429.
  - intros r Hr Hlen. exact (loop_retry ra pre post _ _ _ _ r Hr Hlen).
Qed.

(** C8. In a crawl started without a cursor the first request carries no
    cursor.  Request [j] is the one answered by response [j]; when response
    [i] is a page with at least one record and only rate limits come
    between it and request [j], so that [j] asks for the next page, request
    [j] carries as cursor the id of the last record of page [i] (ids being
    non-empty text). *)
Theorem cursor_follows_last_record (rs : list response) (r : run) :
  crawl None rs = Some r ->
  (List.length (requests (trace r)) + List.length (unread r)
   = List.length rs)%nat /\
  (forall p, nth_error (requests (trace r)) 0 = Some p ->
             p_before p = None) /\
  (forall i j batch last p,
      nth_error rs i = Some (Ok200 batch) ->
      last_id batch = Some last ->
      last <> "" ->
      (i < j)%nat ->
      (forall k, (i < k < j)%nat ->
                 exists ra, nth_error rs k = Some (RateLimited ra)) ->
      nth_error (requests (trace r)) j = Some p ->
      p_before p = Some last).
Proof.
  intros Hr. split; [exact (loop_requests_count _ _ _ _ _ _ Hr)|]. split.
  - intros p Hp.
    apply (loop_cursor_kept _ _ _ _ _ _ Hr 0%nat p); [|exact Hp].
    intros k Hk. lia.
  - intros i j batch last p Hi Hlast Hne Hij Hk Hp.
    destruct batch as [|m batch]; [discriminate|].
    rewrite (loop_cursor_page _ _ _ _ _ _ Hr i j m batch p Hi Hij Hk Hp),
      Hlast.
    simpl. destruct last; [congruence|reflexivity].
Qed.

End LoopFacts.

(** ** The aggregation *)

(** *** The dictionary *)

Lemma lookup_store_same {V : Type} (k : string) (v : V) (d : dict V) :
  lookup k (store k v d) = Some v.
Proof.
  induction d as [|[k' v'] d IH]; simpl.
  - now rewrite String.eqb_refl.
  - destruct (String.eqb k k') eqn:E; simpl; now rewrite E.
Qed.

Lemma lookup_store_other {V : Type} (k k0 : string) (v : V) (d : dict V) :
  k <> k0 -> lookup k (store k0 v d) = lookup k d.
Proof.
  intros Hne. induction d as [|[k' v'] d IH]; simpl.
  - apply String.eqb_neq in Hne. now rewrite Hne.
  - destruct (String.eqb k0 k') eqn:E; simpl.
    + apply String.eqb_eq in E. subst k'.
      apply String.eqb_neq in Hne. now rewrite Hne.
    + now rewrite IH.
Qed.

Lemma lookup_map {V W : Type} (f : V -> W) (k : string) (d : dict V) :
  lookup k (map (fun kv => (fst kv, f (snd kv))) d)
  = option_map f (lookup k d).
Proof.
  induction d as [|[k' v'] d IH]; simpl; [reflexivity|].
  now destruct (String.eqb k k').
Qed.

Lemma lookup_in_keys {V : Type} (k : string) (d : dict V) :
  In k (keys d) <-> lookup k d <> None.
Proof.
  induction d as [|[k' v'] d IH]; simpl; [tauto|].
  destruct (String.eqb k k') eqn:E.
  - apply String.eqb_eq in E. subst. split; [discriminate|now left].
  - apply String.eqb_neq in E. rewrite <- IH. split; [|tauto].
    intros [->|H]; [contradiction|exact H].
Qed.

(** Storing under a key keeps the keys apart. *)
Lemma keys_store_nodup {V : Type} (k : string) (v : V) (d : dict V) :
  NoDup (keys d) -> NoDup (keys (store k v d)).
Proof.
  assert (Hin : forall k0 d0, In k0 (keys (store k v d0)) ->
                              k0 = k \/ In k0 (keys (d0 : dict V))).
  { intros k0 d0. induction d0 as [|[k' v'] d0 IH]; simpl.
    - intros [<-|[]]. now left.
    - destruct (String.eqb k k'); simpl; [tauto|].
      intros [<-|H]; [tauto|]. destruct (IH H); tauto. }
  induction d as [|[k' v'] d IH]; simpl; intros Hnd.
  - constructor; [intros []|constructor].
  - destruct (String.eqb k k') eqn:E; simpl; [exact Hnd|].
    inversion Hnd; subst. constructor; [|now apply IH].
    intros H. destruct (Hin _ _ H) as [->|H']; [|contradiction].
    now rewrite String.eqb_refl in E.
Qed.

(** *** The fold, without its monad *)

Lemma foldM_organize (msgs : list message) :
  forall ud,
    forallb parses msgs = true ->
    foldM organize_step msgs ud = Ret (fold_left fold_message msgs ud).
Proof.
  induction msgs as [|m msgs IH]; simpl; intros ud H; [reflexivity|].
  apply andb_prop in H. destruct H as [Hm H].
  unfold organize_step, fold_message, parse_timestamp, parses, message_time
    in *.
  destruct (fromisoformat (Py.replace_Z (timestamp_iso m)));
    [|discriminate].
  simpl. now apply IH.
Qed.

Lemma foldM_organize_raise (msgs : list message) :
  forall ud,
    forallb parses msgs = false ->
    foldM organize_step msgs ud = Raise ValueError.
Proof.
  induction msgs as [|m msgs IH]; simpl; intros ud H; [discriminate|].
  unfold organize_step, parse_timestamp, parses, message_time in *.
  destruct (fromisoformat (Py.replace_Z (timestamp_iso m)));
    [|reflexivity].
  simpl in *. now apply IH.
Qed.

(** [finalize_stats] never raises: the quotient is guarded. *)
Lemma finalize_stats_ret (st : stats_acc) :
  finalize_stats st = Ret (finalized_stats st).
Proof.
  unfold finalize_stats, finalized_stats, truediv.
  destruct (s_total_messages st >? 0)%Z eqn:E; [|reflexivity].
  assert (Hz : (s_total_messages st =? 0)%Z = false) by lia.
  rewrite Hz. reflexivity.
Qed.

Lemma mapM_finalize (ud : dict entry) :
  mapM finalize ud = Ret (map finalized ud).
Proof.
  induction ud as [|ke ud IH]; simpl; [reflexivity|].
  unfold finalize at 1. rewrite finalize_stats_ret. simpl.
  now rewrite IH.
Qed.

Lemma organize_ret (msgs : list message) :
  forallb parses msgs = true ->
  organize_messages_by_user msgs
  = Ret (map finalized (fold_left fold_message msgs [])).
Proof.
  intros H. unfold organize_messages_by_user.
  rewrite (foldM_organize _ _ H). simpl. apply mapM_finalize.
Qed.

Lemma organize_raise (msgs : list message) :
  forallb parses msgs = false ->
  organize_messages_by_user msgs = Raise ValueError.
Proof.
  intros H. unfold organize_messages_by_user.
  now rewrite (foldM_organize_raise _ _ H).
Qed.

(** *** One user at a time *)

Lemma parses_time (m : message) :
  parses m = true -> exists t, message_time m = Some t.
Proof.
  unfold parses. destruct (message_time m) as [t|]; [|discriminate].
  intros _. now exists t.
Qed.

Lemma add_message_parsed (e : entry) (m : message) (t : datetime) :
  message_time m = Some t -> add_message e m = update_entry e m t.
Proof. unfold add_message. now intros ->. Qed.

Lemma fold_message_parsed (ud : dict entry) (m : message) (t : datetime) :
  message_time m = Some t ->
  fold_message ud m
  = store (id (author m))
          (update_entry (get (lookup (id (author m)) ud) new_entry) m t) ud.
Proof. unfold fold_message. now intros ->. Qed.

Lemma times_parsed (m : message) (l : list message) (t : datetime) :
  message_time m = Some t -> times (m :: l) = t :: times l.
Proof. unfold times. simpl. now intros ->. Qed.

Lemma lookup_fold (uid : string) (l : list message) :
  forall ud,
    forallb parses l = true ->
    lookup uid (fold_left fold_message l ud)
    = match filter (is_author uid) l with
      | [] => lookup uid ud
      | l' => Some (fold_left add_message l'
                              (get (lookup uid ud) new_entry))
      end.
Proof.
  induction l as [|m l IH]; simpl; intros ud H; [reflexivity|].
  apply andb_prop in H. destruct H as [Hm H].
  destruct (parses_time _ Hm) as [t Ht].
  rewrite (IH _ H), (fold_message_parsed _ _ _ Ht).
  unfold is_author at 2. destruct (String.eqb (id (author m)) uid) eqn:E.
  - apply String.eqb_eq in E. subst uid.
    rewrite lookup_store_same. simpl.
    rewrite (add_message_parsed _ _ _ Ht).
    now destruct (filter (is_author (id (author m))) l).
  - apply String.eqb_neq in E.
    rewrite lookup_store_other by congruence. reflexivity.
Qed.

Lemma add_message_messages (l : list message) :
  forall e,
    forallb parses l = true ->
    e_messages (fold_left add_message l e) = e_messages e ++ l.
Proof.
  induction l as [|m l IH]; simpl; intros e H; [now rewrite app_nil_r|].
  apply andb_prop in H. destruct H as [Hm H].
  destruct (parses_time _ Hm) as [t Ht].
  rewrite (IH _ H), (add_message_parsed _ _ _ Ht).
  simpl. now rewrite <- app_assoc.
Qed.

Lemma add_message_user_info (l : list message) :
  forall e,
    forallb parses l = true ->
    e_user_info (fold_left add_message l e)
    = match e_user_info e with
      | Some ui => Some ui
      | None => option_map snapshot_of (head l)
      end.
Proof.
  induction l as [|m l IH]; simpl; intros e H; [now destruct (e_user_info e)|].
  apply andb_prop in H. destruct H as [Hm H].
  destruct (parses_time _ Hm) as [t Ht].
  rewrite (IH _ H), (add_message_parsed _ _ _ Ht).
  simpl. now destruct (e_user_info e).
Qed.

Lemma add_message_stats (l : list message) :
  forall e,
    forallb parses l = true ->
    e_stats (fold_left add_message l e) = stats_from (e_stats e) l.
Proof.
  induction l as [|m l IH]; simpl; intros e H.
  - unfold stats_from, len, times. simpl. destruct (e_stats e). simpl.
    f_equal; lia.
  - apply andb_prop in H. destruct H as [Hm H].
    destruct (parses_time _ Hm) as [t Ht].
    rewrite (IH _ H), (add_message_parsed _ _ _ Ht).
    unfold stats_from. rewrite (times_parsed _ _ _ Ht).
    assert (Hl : len (m :: l) = (1 + len l)%Z)
      by (unfold len; simpl List.length; lia).
    rewrite Hl.
    cbn [update_entry e_stats update_stats s_total_messages
         s_total_characters s_total_words s_channels_used s_attachments_sent
         s_embeds_sent s_reactions_received s_mentions_made s_first_message
         s_last_message map sumZ fold_left].
    f_equal; lia.
Qed.

(** Each user's aggregate is the aggregate of that user's messages, taken
    in arrival order. *)
Lemma organize_lookup (msgs : list message) :
  forallb parses msgs = true ->
  exists d,
    organize_messages_by_user msgs = Ret d /\
    keys d = keys (fold_left fold_message msgs []) /\
    forall uid,
      lookup uid d
      = match filter (is_author uid) msgs with
        | [] => None
        | l => Some (aggregate_of l)
        end.
Proof.
  intros H. exists (map finalized (fold_left fold_message msgs [])).
  split; [now apply organize_ret|]. split.
  - unfold keys. rewrite map_map. reflexivity.
  - intros uid. unfold finalized.
    rewrite (lookup_map finalized_entry), (lookup_fold _ _ _ H).
    now destruct (filter (is_author uid) msgs).
Qed.

Lemma forallb_filter {A : Type} (f g : A -> bool) (l : list A) :
  forallb f l = true -> forallb f (filter g l) = true.
Proof.
  induction l as [|a l IH]; simpl; [reflexivity|].
  intros H. apply andb_prop in H. destruct H as [Ha H].
  destruct (g a); simpl; [rewrite Ha|]; now apply IH.
Qed.

Lemma filter_all {A : Type} (f : A -> bool) (l : list A) :
  forallb f l = true -> filter f l = l.
Proof.
  induction l as [|a l IH]; simpl; [reflexivity|].
  intros H. apply andb_prop in H. destruct H as [-> H]. now rewrite IH.
Qed.

Lemma head_filter {A : Type} (f : A -> bool) (l : list A) :
  head (filter f l) = find f l.
Proof.
  induction l as [|a l IH]; simpl; [reflexivity|]. now destruct (f a).
Qed.

(** *** The stable sort *)

Lemma ltb_false_leb (s1 s2 : string) :
  String.ltb s1 s2 = false -> String.leb s2 s1 = true.
Proof.
  unfold String.ltb, String.leb. rewrite (String.compare_antisym s1 s2).
  now destruct (String.compare s2 s1).
Qed.

Lemma ltb_leb (s1 s2 : string) :
  String.ltb s1 s2 = true -> String.leb s1 s2 = true.
Proof.
  unfold String.ltb, String.leb. now destruct (String.compare s1 s2).
Qed.

Lemma ltb_lt (s1 s2 : string) :
  String.ltb s1 s2 = true <-> String_as_OT.lt s1 s2.
Proof.
  unfold String.ltb. rewrite <- String_as_OT.cmp_lt.
  unfold String_as_OT.cmp. destruct (String.compare s1 s2); split;
    congruence.
Qed.

Lemma ltb_trans (s1 s2 s3 : string) :
  String.ltb s1 s2 = true -> String.ltb s2 s3 = true ->
  String.ltb s1 s3 = true.
Proof.
  rewrite !ltb_lt. apply String_as_OT.lt_trans.
Qed.

Lemma ltb_irrefl (s : string) : String.ltb s s = false.
Proof.
  unfold String.ltb. pose proof (String.compare_antisym s s) as H.
  destruct (String.compare s s); [reflexivity|discriminate|reflexivity].
Qed.

Lemma ltb_asym (s1 s2 : string) :
  String.ltb s1 s2 = true -> String.ltb s2 s1 = false.
Proof.
  intros H. destruct (String.ltb s2 s1) eqn:E; [|reflexivity].
  rewrite <- (ltb_irrefl s1). symmetry. now apply (ltb_trans s1 s2 s1).
Qed.

Lemma ltb_total (s1 s2 : string) :
  String.ltb s1 s2 = false -> String.ltb s2 s1 = false -> s1 = s2.
Proof.
  unfold String.ltb. rewrite (String.compare_antisym s1 s2).
  destruct (String.compare s2 s1) eqn:E; simpl; try discriminate.
  intros _ _. symmetry. now apply String.compare_eq_iff.
Qed.

Lemma leb_trans (s1 s2 s3 : string) :
  String.leb s1 s2 = true -> String.leb s2 s3 = true ->
  String.leb s1 s3 = true.
Proof.
  intros H12 H23.
  destruct (String.ltb s3 s1) eqn:E; [|now apply ltb_false_leb].
  exfalso.
  assert (L : forall a b, String.leb a b = true ->
                          a = b \/ String.ltb a b = true).
  { intros a b. unfold String.leb, String.ltb.
    destruct (String.compare a b) eqn:C; try discriminate.
    - left. now apply String.compare_eq_iff.
    - now right. }
  destruct (L _ _ H12) as [->|L12]; destruct (L _ _ H23) as [->|L23].
  - now rewrite ltb_irrefl in E.
  - apply ltb_asym in L23. congruence.
  - apply ltb_asym in L12. congruence.
  - pose proof (ltb_trans _ _ _ L12 L23) as L13.
    apply ltb_asym in L13. congruence.
Qed.

Section Sorting.

Variables (A : Type) (key : A -> string).

Local Abbreviation ascending :=
  (fun a b : A => String.leb (key a) (key b) = true).

Lemma insert_by_perm (x : A) (l : list A) :
  Permutation (insert_by key x l) (x :: l).
Proof.
  induction l as [|y l IH]; simpl; [reflexivity|].
  destruct (String.ltb (key y) (key x)); [|reflexivity].
  rewrite IH. apply perm_swap.
Qed.

Lemma sort_by_perm (l : list A) : Permutation (sort_by key l) l.
Proof.
  induction l as [|x l IH]; simpl; [reflexivity|].
  rewrite insert_by_perm. now apply perm_skip.
Qed.

Lemma insert_by_sorted (x : A) (l : list A) :
  StronglySorted ascending l ->
  StronglySorted ascending (insert_by key x l).
Proof.
  induction 1 as [|y l Hs IH Hy]; simpl.
  - constructor; constructor.
  - destruct (String.ltb (key y) (key x)) eqn:E.
    + constructor; [exact IH|].
      apply Forall_forall. intros z Hz.
      apply (Permutation_in _ (insert_by_perm x l)) in Hz.
      destruct Hz as [<-|Hz]; [now apply ltb_leb|].
      rewrite Forall_forall in Hy. now apply Hy.
    + apply ltb_false_leb in E. constructor; [now constructor|].
      constructor; [exact E|].
      apply Forall_forall. intros z Hz.
      rewrite Forall_forall in Hy.
      apply (leb_trans _ (key y)); [exact E|now apply Hy].
Qed.

Lemma sort_by_sorted (l : list A) : StronglySorted ascending (sort_by key l).
Proof.
  induction l as [|x l IH]; simpl; [constructor|].
  now apply insert_by_sorted.
Qed.

End Sorting.

(** *** Counting *)

Lemma total_in_fold_store (ud : dict entry) (m : message) (t : datetime) :
  total_in_fold
    (store (id (author m))
           (update_entry (get (lookup (id (author m)) ud) new_entry) m t) ud)
  = (total_in_fold ud + 1)%Z.
Proof.
  unfold total_in_fold.
  induction ud as [|[k e] ud IH]; simpl; [reflexivity|].
  destruct (String.eqb (id (author m)) k); simpl; [lia|].
  rewrite IH. lia.
Qed.

Lemma total_in_fold_messages (msgs : list message) :
  forall ud,
    forallb parses msgs = true ->
    total_in_fold (fold_left fold_message msgs ud)
    = (total_in_fold ud + len msgs)%Z.
Proof.
  induction msgs as [|m msgs IH]; simpl; intros ud H.
  - unfold len; simpl; lia.
  - apply andb_prop in H. destruct H as [Hm H].
    destruct (parses_time _ Hm) as [t Ht].
    rewrite (IH _ H), (fold_message_parsed _ _ _ Ht), total_in_fold_store.
    unfold len; simpl List.length; lia.
Qed.

Lemma total_over_users_finalized (ud : dict entry) :
  total_over_users (map finalized ud) = total_in_fold ud.
Proof.
  unfold total_over_users, total_in_fold. rewrite map_map. reflexivity.
Qed.

Lemma keys_fold_nodup (msgs : list message) :
  forall ud, NoDup (keys ud) ->
             NoDup (keys (fold_left fold_message msgs ud)).
Proof.
  induction msgs as [|m msgs IH]; simpl; intros ud H; [exact H|].
  apply IH. unfold fold_message.
  destruct (message_time m); [now apply keys_store_nodup|exact H].
Qed.

Lemma filter_nonempty {A : Type} (f : A -> bool) (l : list A) :
  filter f l <> [] <-> exists a, In a l /\ f a = true.
Proof.
  split.
  - destruct (filter f l) as [|a l'] eqn:E; [congruence|]. intros _.
    assert (Ha : In a (filter f l)) by (rewrite E; now left).
    apply filter_In in Ha. now exists a.
  - intros (a & Ha & Hf) E.
    assert (Hin : In a (filter f l)) by (apply filter_In; now split).
    now rewrite E in Hin.
Qed.

(** *** Properties of [organize_messages_by_user] *)

(** A sorted list stays sorted for a relation that holds of its elements
    wherever the first one does. *)
Lemma StronglySorted_among {A : Type} (R R' : A -> A -> Prop)
      (l : list A) :
  StronglySorted R l ->
  (forall a b, In a l -> In b l -> R a b -> R' a b) ->
  StronglySorted R' l.
Proof.
  induction 1 as [|a l Hs IH Hall]; intros Himp; constructor.
  - apply IH. intros x y Hx Hy. apply Himp; now right.
  - rewrite Forall_forall in *. intros b Hb.
    apply Himp; [now left|now right|now apply Hall].
Qed.

(** X29. The fold keeps each user's messages in the order in which they
    arrived; the sort happens once, in the finalisation that follows the
    fold.  In the result each user's [messages] is the stable sort, by the
    [timestamp_iso] text, of that arrival-order list: it is in ascending
    order of that text and holds the same messages, whatever the arrival
    order.  It is oldest first when, among the user's messages, the order
    of the texts goes with the order of time. *)
Theorem messages_sorted_at_finalization (msgs : list message) :
  forallb parses msgs = true ->
  exists user_data d,
    foldM organize_step msgs [] = Ret user_data /\
    mapM finalize user_data = Ret d /\
    organize_messages_by_user msgs = Ret d /\
    forall uid,
      (forall e, lookup uid user_data = Some e ->
                 e_messages e = filter (is_author uid) msgs) /\
      (forall agg,
          lookup uid d = Some agg ->
          messages agg
          = sort_by timestamp_iso (filter (is_author uid) msgs) /\
          StronglySorted by_timestamp (messages agg) /\
          Permutation (messages agg) (filter (is_author uid) msgs) /\
          (text_order_is_time_order (filter (is_author uid) msgs) ->
           oldest_first (messages agg))).
Proof.
  intros H.
  exists (fold_left fold_message msgs []),
    (map finalized (fold_left fold_message msgs [])).
  split; [now apply foldM_organize|]. split; [apply mapM_finalize|].
  split; [now apply organize_ret|]. intros uid.
  assert (Hp : forallb parses (filter (is_author uid) msgs) = true)
    by now apply forallb_filter.
  split.
  - intros e He. rewrite (lookup_fold _ _ _ H) in He.
    destruct (filter (is_author uid) msgs) as [|m l] eqn:E; [discriminate|].
    injection He as <-.
    exact (add_message_messages (m :: l) new_entry Hp).
  - intros agg Hagg. unfold finalized in Hagg.
    rewrite (lookup_map finalized_entry), (lookup_fold _ _ _ H) in Hagg.
    destruct (filter (is_author uid) msgs) as [|m l] eqn:E; [discriminate|].
    injection Hagg as <-. unfold finalized_entry. cbn [messages].
    change (fold_left add_message l (add_message new_entry m))
      with (fold_left add_message (m :: l) new_entry).
    rewrite (add_message_messages (m :: l) _ Hp). simpl app.
    split; [reflexivity|]. split; [apply sort_by_sorted|].
    split; [apply sort_by_perm|].
    intros Htext. unfold oldest_first.
    apply (StronglySorted_among by_timestamp); [apply sort_by_sorted|].
    intros a b Ha Hb Hab.
    apply Htext; [| |exact Hab];
      apply (Permutation_in _ (sort_by_perm _ timestamp_iso (m :: l)));
      assumption.
Qed.

(** C6. A user's [user_info] is the author snapshot, with [full_username],
    of the first message of that user in the input; no later message
    changes it. *)
Theorem user_info_first_write_wins (msgs : list message) :
  forallb parses msgs = true ->
  exists d,
    organize_messages_by_user msgs = Ret d /\
    forall uid,
      option_map user_info (lookup uid d)
      = option_map (fun m => Some (snapshot_of m))
                   (find (is_author uid) msgs).
Proof.
  intros H. destruct (organize_lookup _ H) as (d & Hd & _ & Hl).
  exists d. split; [exact Hd|]. intros uid. rewrite Hl, <- head_filter.
  assert (Hp : forallb parses (filter (is_author uid) msgs) = true)
    by now apply forallb_filter.
  destruct (filter (is_author uid) msgs) as [|m l]; [reflexivity|].
  unfold aggregate_of, finalized_entry. cbn [option_map user_info].
  now rewrite (add_message_user_info _ _ Hp).
Qed.

(** C7. Finalising a [stats] dictionary never divides by zero: it always
    returns; with [total_messages] equal to 0 both averages are 0, and with
    [total_messages] positive they are [total_characters / total_messages]
    and [total_words / total_messages]. *)
Theorem averages_never_divide_by_zero (st : stats_acc) :
  exists r,
    finalize_stats st = Ret r /\
    total_messages r = s_total_messages st /\
    total_characters r = s_total_characters st /\
    total_words r = s_total_words st /\
    (total_messages r = 0%Z ->
     avg_message_length r = 0%Q /\ avg_words_per_message r = 0%Q) /\
    ((0 < total_messages r)%Z ->
     avg_message_length r
     = (inject_Z (total_characters r) / inject_Z (total_messages r))%Q /\
     avg_words_per_message r
     = (inject_Z (total_words r) / inject_Z (total_messages r))%Q).
Proof.
  exists (finalized_stats st). split; [apply finalize_stats_ret|].
  unfold finalized_stats; cbn. repeat split; try reflexivity.
  - rewrite H. reflexivity.
  - rewrite H. reflexivity.
  - assert (E : (s_total_messages st >? 0)%Z = true) by lia. now rewrite E.
  - assert (E : (s_total_messages st >? 0)%Z = true) by lia. now rewrite E.
Qed.

(** C10. The aggregation partitions its input: a user's [messages] holds,
    once each, the input messages whose author id is the user's key; the
    user's [total_messages] is the length of that list; the keys are
    distinct and are the author ids that occur in the input; and
    [total_messages] summed over the users is the length of the input. *)
Theorem aggregation_partitions_input (msgs : list message) :
  forallb parses msgs = true ->
  exists d,
    organize_messages_by_user msgs = Ret d /\
    (forall uid agg,
        lookup uid d = Some agg ->
        Permutation (messages agg) (filter (is_author uid) msgs) /\
        total_messages (stats agg) = len (messages agg)) /\
    (forall m,
        In m msgs ->
        exists agg,
          lookup (id (author m)) d = Some agg /\ In m (messages agg) /\
          forall uid agg',
            lookup uid d = Some agg' -> In m (messages agg') ->
            uid = id (author m)) /\
    NoDup (keys d) /\
    (forall uid,
        In uid (keys d) <-> exists m, In m msgs /\ id (author m) = uid) /\
    total_over_users d = len msgs.
Proof.
  intros H. destruct (organize_lookup _ H) as (d & Hd & Hk & Hl).
  assert (Hagg : forall uid agg,
             lookup uid d = Some agg ->
             Permutation (messages agg) (filter (is_author uid) msgs) /\
             total_messages (stats agg) = len (messages agg)).
  { intros uid agg Hagg. rewrite Hl in Hagg.
    assert (Hp : forallb parses (filter (is_author uid) msgs) = true)
      by now apply forallb_filter.
    destruct (filter (is_author uid) msgs) as [|m l] eqn:E; [discriminate|].
    inversion Hagg; subst agg. unfold aggregate_of, finalized_entry.
    cbn [messages stats finalized_stats total_messages].
    rewrite (add_message_messages _ _ Hp), (add_message_stats _ _ Hp).
    simpl app. split; [apply sort_by_perm|].
    unfold stats_from, len. cbn [s_total_messages new_entry e_stats].
    now rewrite (Permutation_length (sort_by_perm _ timestamp_iso (m :: l))). }
  exists d. split; [exact Hd|]. split; [exact Hagg|]. split; [|split; [|split]].
  - intros m Hm.
    assert (Hin : In m (filter (is_author (id (author m))) msgs)).
    { apply filter_In. split; [exact Hm|]. apply String.eqb_refl. }
    destruct (lookup (id (author m)) d) as [agg|] eqn:E.
    + exists agg. split; [reflexivity|].
      destruct (Hagg _ _ E) as [Hperm _]. split.
      * apply (Permutation_in _ (Permutation_sym Hperm) Hin).
      * intros uid agg' E' Hin'. destruct (Hagg _ _ E') as [Hperm' _].
        apply (Permutation_in _ Hperm') in Hin'.
        apply filter_In in Hin'. destruct Hin' as [_ Hu].
        symmetry. now apply String.eqb_eq.
    + rewrite Hl in E.
      destruct (filter (is_author (id (author m))) msgs);
        [contradiction|discriminate].
  - rewrite Hk. apply keys_fold_nodup. constructor.
  - intros uid. rewrite lookup_in_keys, Hl.
    pose proof (filter_nonempty (is_author uid) msgs) as Hne.
    unfold is_author in Hne at 2. split.
    + intros Hs. destruct Hne as [Hne _].
      destruct Hne as (m & Hm & Hu).
      * destruct (filter (is_author uid) msgs); congruence.
      * exists m. split; [exact Hm|now apply String.eqb_eq].
    + intros (m & Hm & Hu). destruct Hne as [_ Hne].
      destruct (filter (is_author uid) msgs); [|discriminate].
      exfalso. apply Hne; [|reflexivity].
      exists m. split; [exact Hm|now apply String.eqb_eq].
  - inversion Hd as [Hd']. rewrite (organize_ret _ H) in Hd'.
    inversion Hd'; subst d.
    rewrite total_over_users_finalized, (total_in_fold_messages _ _ H).
    unfold total_in_fold; simpl; lia.
Qed.

(** *** Independence of the arrival order *)

Lemma sumZ_perm (l l' : list Z) : Permutation l l' -> sumZ l = sumZ l'.
Proof. induction 1; simpl; lia. Qed.

Lemma filter_perm {A : Type} (f : A -> bool) (l l' : list A) :
  Permutation l l' -> Permutation (filter f l) (filter f l').
Proof.
  induction 1 as [|x l l' _ IH|x y l|l l' l'' _ IH1 _ IH2]; simpl.
  - constructor.
  - destruct (f x); [now constructor|exact IH].
  - destruct (f x), (f y); try reflexivity. apply perm_swap.
  - now transitivity (filter f l').
Qed.

Lemma forallb_perm {A : Type} (f : A -> bool) (l l' : list A) :
  Permutation l l' -> forallb f l = forallb f l'.
Proof.
  induction 1 as [|x l l' _ IH|x y l|l l' l'' _ IH1 _ IH2]; simpl.
  - reflexivity.
  - now rewrite IH.
  - now destruct (f x), (f y).
  - congruence.
Qed.

Lemma times_perm (l l' : list message) :
  Permutation l l' -> Permutation (times l) (times l').
Proof.
  unfold times.
  induction 1 as [|x l l' _ IH|x y l|l l' l'' _ IH1 _ IH2]; simpl.
  - constructor.
  - now apply Permutation_app_head.
  - rewrite !app_assoc. apply Permutation_app_tail, Permutation_app_comm.
  - now transitivity (flat_map (fun m => match message_time m with
                                         | Some t => [t]
                                         | None => []
                                         end) l').
Qed.

(** A fold whose steps commute does not depend on the order of the list. *)
Lemma fold_left_perm {A B : Type} (f : B -> A -> B) (l l' : list A) :
  (forall b x y, f (f b x) y = f (f b y) x) ->
  Permutation l l' -> forall b, fold_left f l b = fold_left f l' b.
Proof.
  intros Hc.
  induction 1 as [|x l l' _ IH|x y l|l l' l'' _ IH1 _ IH2]; simpl; intros b.
  - reflexivity.
  - apply IH.
  - now rewrite Hc.
  - now rewrite IH1.
Qed.

Lemma set_add_in (x c : string) (s : list string) :
  In c (set_add x s) <-> c = x \/ In c s.
Proof.
  unfold set_add. destruct (existsb (String.eqb x) s) eqn:E.
  - split; [now right|]. intros [->|H]; [|exact H].
    apply existsb_exists in E. destruct E as (y & Hy & Exy).
    apply String.eqb_eq in Exy. now subst.
  - rewrite in_app_iff. simpl. split.
    + intros [H|[<-|[]]]; [now right|now left].
    + intros [->|H]; [right; now left|now left].
Qed.

Lemma set_add_nodup (x : string) (s : list string) :
  NoDup s -> NoDup (set_add x s).
Proof.
  intros Hs. unfold set_add. destruct (existsb (String.eqb x) s) eqn:E;
    [exact Hs|].
  assert (Hx : ~ In x s).
  { intros Hx.
    assert (Ht : existsb (String.eqb x) s = true).
    { apply existsb_exists. exists x. split; [exact Hx|].
      apply String.eqb_refl. }
    congruence. }
  clear E. induction s as [|y s IH]; simpl.
  - constructor; [intros []|constructor].
  - inversion Hs; subst. constructor.
    + rewrite in_app_iff. simpl. intros [H|[<-|[]]]; [contradiction|].
      apply Hx. now left.
    + apply IH; [assumption|]. intros H. apply Hx. now right.
Qed.

Lemma set_add_all_in (cs : list string) :
  forall s c,
    In c (fold_left (fun s c => set_add c s) cs s) <-> In c s \/ In c cs.
Proof.
  induction cs as [|x cs IH]; simpl; intros s c; [tauto|].
  rewrite IH, set_add_in. split.
  - intros [[->|H]|H]; auto.
  - intros [H|[->|H]]; auto.
Qed.

Lemma set_add_all_nodup (cs : list string) :
  forall s, NoDup s -> NoDup (fold_left (fun s c => set_add c s) cs s).
Proof.
  induction cs as [|x cs IH]; simpl; intros s H; [exact H|].
  now apply IH, set_add_nodup.
Qed.

Lemma same_counts_from (st : stats_acc) (l l' : list message) :
  NoDup (s_channels_used st) ->
  Permutation l l' ->
  same_counts (finalized_stats (stats_from st l))
              (finalized_stats (stats_from st l')).
Proof.
  intros Hnd Hperm.
  assert (Hlen : len l = len l').
  { unfold len. now rewrite (Permutation_length Hperm). }
  assert (Hsum : forall f : message -> Z,
             sumZ (map f l) = sumZ (map f l')).
  { intros f. now apply sumZ_perm, Permutation_map. }
  assert (Hch : forall c,
             In c (fold_left (fun s c => set_add c s) (map channel_id l)
                             (s_channels_used st))
             <-> In c (fold_left (fun s c => set_add c s)
                                 (map channel_id l') (s_channels_used st))).
  { intros c. rewrite !set_add_all_in.
    assert (Hm : In c (map channel_id l) <-> In c (map channel_id l')).
    { split; apply Permutation_in;
        [|apply Permutation_sym]; now apply Permutation_map. }
    split; (intros [H|H]; [now left|right; now apply Hm]). }
  unfold same_counts, finalized_stats, stats_from.
  cbn [total_messages total_characters total_words channels_used
       attachments_sent embeds_sent reactions_received mentions_made
       unique_channels avg_message_length
       avg_words_per_message s_total_messages s_total_characters
       s_total_words s_channels_used s_attachments_sent s_embeds_sent
       s_reactions_received s_mentions_made].
  rewrite Hlen,
    (Hsum (fun m => Py.len (content m))),
    (Hsum (fun m => word_count (content m))),
    (Hsum (fun m => len (attachments m))),
    (Hsum (fun m => len (embeds m))),
    (Hsum (fun m => reaction_total (reactions m))),
    (Hsum (fun m => len (mentions m))).
  repeat split; try reflexivity; try (now apply Hch).
  unfold len. f_equal. apply Permutation_length.
  apply NoDup_Permutation; try (now apply set_add_all_nodup). exact Hch.
Qed.

Lemma same_stats_split (a b : user_stats) :
  same_counts a b ->
  first_message a = first_message b ->
  last_message a = last_message b ->
  same_stats a b.
Proof.
  intros (H1 & H2 & H3 & H4 & H5 & H6 & H7 & H8 & H9 & H10 & H11) Hf Hl.
  unfold same_stats. repeat (split; [assumption|]). exact Hl.
Qed.

Section Ordered.

(** The timestamps of one author, among which [<] is a strict total
    order. *)
Variable T : list datetime.
Hypothesis T_order : strict_total_on T.

(** The fold of [track_first] is a pairwise minimum. *)
Lemma track_first_earliest (ts : list datetime) :
  forall d0,
    incl (d0 :: ts) T ->
    exists d,
      fold_left track_first ts (Some d0) = Some d /\
      is_earliest d (d0 :: ts).
Proof.
  destruct T_order as (Hirr & Htr & Htot).
  unfold is_earliest.
  induction ts as [|t ts IH]; simpl; intros d0 Hin0.
  - exists d0. split; [reflexivity|]. split; [now left|].
    intros t [<-|[]]. apply Hirr, Hin0. now left.
  - assert (Hd0 : In d0 T) by (apply Hin0; now left).
    assert (Ht : In t T) by (apply Hin0; right; now left).
    assert (Hts : incl ts T)
      by (intros x Hx; apply Hin0; right; now right).
    destruct (dt_ltb t d0) eqn:E.
    + assert (Hi : incl (t :: ts) T)
        by (intros x [<-|Hx]; [exact Ht|now apply Hts]).
      destruct (IH t Hi) as (d & -> & Hin & Hmin).
      assert (Hd : In d T) by now apply Hi.
      exists d. split; [reflexivity|]. split.
      * destruct Hin as [<-|Hin]; auto.
      * intros u [<-|[<-|Hu]].
        -- destruct (dt_ltb d0 d) eqn:Hdd; [|reflexivity].
           pose proof (Htr _ _ _ Ht Hd0 Hd E Hdd) as Htd.
           rewrite (Hmin t (or_introl eq_refl)) in Htd. discriminate.
        -- apply Hmin. now left.
        -- apply Hmin. now right.
    + assert (Hi : incl (d0 :: ts) T)
        by (intros x [<-|Hx]; [exact Hd0|now apply Hts]).
      destruct (IH d0 Hi) as (d & -> & Hin & Hmin).
      assert (Hd : In d T) by now apply Hi.
      exists d. split; [reflexivity|]. split.
      * destruct Hin as [<-|Hin]; auto.
      * intros u [<-|[<-|Hu]].
        -- apply Hmin. now left.
        -- destruct (dt_ltb t d) eqn:Htd; [|reflexivity].
           destruct (dt_ltb d d0) eqn:Hdd.
           ++ pose proof (Htr _ _ _ Ht Hd Hd0 Htd Hdd). congruence.
           ++ pose proof (Hmin d0 (or_introl eq_refl)) as H0.
              rewrite (Htot _ _ Hd Hd0 Hdd H0) in Htd. congruence.
        -- apply Hmin. now right.
Qed.

(** The fold of [track_last] is a pairwise maximum. *)
Lemma track_last_latest (ts : list datetime) :
  forall d0,
    incl (d0 :: ts) T ->
    exists d,
      fold_left track_last ts (Some d0) = Some d /\
      is_latest d (d0 :: ts).
Proof.
  destruct T_order as (Hirr & Htr & Htot).
  unfold is_latest.
  induction ts as [|t ts IH]; simpl; intros d0 Hin0.
  - exists d0. split; [reflexivity|]. split; [now left|].
    intros t [<-|[]]. apply Hirr, Hin0. now left.
  - assert (Hd0 : In d0 T) by (apply Hin0; now left).
    assert (Ht : In t T) by (apply Hin0; right; now left).
    assert (Hts : incl ts T)
      by (intros x Hx; apply Hin0; right; now right).
    destruct (dt_ltb d0 t) eqn:E.
    + assert (Hi : incl (t :: ts) T)
        by (intros x [<-|Hx]; [exact Ht|now apply Hts]).
      destruct (IH t Hi) as (d & -> & Hin & Hmax).
      assert (Hd : In d T) by now apply Hi.
      exists d. split; [reflexivity|]. split.
      * destruct Hin as [<-|Hin]; auto.
      * intros u [<-|[<-|Hu]].
        -- destruct (dt_ltb d d0) eqn:Hdd; [|reflexivity].
           pose proof (Htr _ _ _ Hd Hd0 Ht Hdd E) as Htd.
           rewrite (Hmax t (or_introl eq_refl)) in Htd. discriminate.
        -- apply Hmax. now left.
        -- apply Hmax. now right.
    + assert (Hi : incl (d0 :: ts) T)
        by (intros x [<-|Hx]; [exact Hd0|now apply Hts]).
      destruct (IH d0 Hi) as (d & -> & Hin & Hmax).
      assert (Hd : In d T) by now apply Hi.
      exists d. split; [reflexivity|]. split.
      * destruct Hin as [<-|Hin]; auto.
      * intros u [<-|[<-|Hu]].
        -- apply Hmax. now left.
        -- destruct (dt_ltb d t) eqn:Htd; [|reflexivity].
           destruct (dt_ltb d0 d) eqn:Hdd.
           ++ pose proof (Htr _ _ _ Hd0 Hd Ht Hdd Htd). congruence.
           ++ pose proof (Hmax d0 (or_introl eq_refl)) as H0.
              rewrite (Htot _ _ Hd Hd0 H0 Hdd) in Htd. congruence.
        -- apply Hmax. now right.
Qed.

(** Two lists with the same timestamps have the same earliest one, and the
    same latest one. *)
Lemma earliest_unique (d d' : datetime) (ts ts' : list datetime) :
  incl ts T ->
  (forall x, In x ts <-> In x ts') ->
  is_earliest d ts -> is_earliest d' ts' -> d = d'.
Proof.
  destruct T_order as (_ & _ & Htot).
  intros Hi Hsame [Hin Hmin] [Hin' Hmin'].
  apply Htot.
  - now apply Hi.
  - now apply Hi, Hsame.
  - apply Hmin'. now apply Hsame.
  - apply Hmin. now apply Hsame.
Qed.

Lemma latest_unique (d d' : datetime) (ts ts' : list datetime) :
  incl ts T ->
  (forall x, In x ts <-> In x ts') ->
  is_latest d ts -> is_latest d' ts' -> d = d'.
Proof.
  destruct T_order as (_ & _ & Htot).
  intros Hi Hsame [Hin Hmax] [Hin' Hmax'].
  apply Htot.
  - now apply Hi.
  - now apply Hi, Hsame.
  - apply Hmax. now apply Hsame.
  - apply Hmax'. now apply Hsame.
Qed.

Lemma extremes_from (m : message) (l : list message) :
  forallb parses (m :: l) = true ->
  incl (times (m :: l)) T ->
  exists dmin dmax,
    is_earliest dmin (times (m :: l)) /\
    is_latest dmax (times (m :: l)) /\
    first_message
      (finalized_stats (stats_from (e_stats new_entry) (m :: l)))
    = Some (isoformat dmin) /\
    last_message
      (finalized_stats (stats_from (e_stats new_entry) (m :: l)))
    = Some (isoformat dmax).
Proof.
  intros H. simpl in H. apply andb_prop in H. destruct H as [Hm _].
  destruct (parses_time _ Hm) as [t Ht].
  rewrite (times_parsed _ _ _ Ht). intros Hi.
  destruct (track_first_earliest (times l) t Hi) as (dmin & Hf & Hmin).
  destruct (track_last_latest (times l) t Hi) as (dmax & Hl & Hmax).
  exists dmin, dmax. split; [exact Hmin|]. split; [exact Hmax|].
  unfold finalized_stats, stats_from.
  cbn [first_message last_message s_first_message s_last_message
       new_entry e_stats].
  rewrite (times_parsed _ _ _ Ht). cbn [fold_left track_first track_last].
  rewrite Hf, Hl. split; reflexivity.
Qed.

End Ordered.


(** *** A scenario *)

Lemma perm3 {A : Type} (a b c : A) (l : list A) :
  Permutation l [a; b; c] ->
  l = [a; b; c] \/ l = [a; c; b] \/ l = [b; a; c] \/
  l = [b; c; a] \/ l = [c; a; b] \/ l = [c; b; a].
Proof.
  intros H. destruct (Permutation_vs_cons_inv H) as (l1 & l2 & ->).
  apply Permutation_sym, Permutation_cons_app_inv in H.
  apply Permutation_length_2_inv in H.
  destruct l1 as [|x [|y [|z l1]]]; simpl in H;
    destruct H as [H|H]; inversion H; subst; simpl; auto 10.
Qed.

(** The scenario of three messages of one author with the contents "hi",
    "" and "bye", arriving in any order, when the texts of their timestamps
    are in that order: the aggregate counts 3 messages and 5 characters,
    the message with the empty content included, its [messages] are in the
    order of the texts, and the content list of the analyzer is "hi",
    "bye". *)
Theorem scenario_hi_empty_bye (uid : string) (m1 m2 m3 : message)
        (arrival : list message) :
  id (author m1) = uid -> id (author m2) = uid -> id (author m3) = uid ->
  content m1 = "hi" -> content m2 = "" -> content m3 = "bye" ->
  String.ltb (timestamp_iso m1) (timestamp_iso m2) = true ->
  String.ltb (timestamp_iso m2) (timestamp_iso m3) = true ->
  forallb parses [m1; m2; m3] = true ->
  Permutation arrival [m1; m2; m3] ->
  exists d agg,
    organize_messages_by_user arrival = Ret d /\
    lookup uid d = Some agg /\
    total_messages (stats agg) = 3%Z /\
    total_characters (stats agg) = 5%Z /\
    messages agg = [m1; m2; m3] /\
    extract_content_only agg = ["hi"; "bye"].
Proof.
  intros A1 A2 A3 C1 C2 C3 H12 H23 Hp Hperm.
  assert (Hpa : forallb parses arrival = true)
    by now rewrite (forallb_perm parses _ _ Hperm).
  assert (Hall : forallb (is_author uid) arrival = true).
  { rewrite (forallb_perm _ _ _ Hperm). simpl. unfold is_author.
    rewrite A1, A2, A3, String.eqb_refl. reflexivity. }
  destruct (organize_lookup _ Hpa) as (d & Hd & _ & Hl).
  exists d, (aggregate_of arrival). split; [exact Hd|]. split.
  { rewrite Hl, (filter_all _ _ Hall).
    destruct arrival; [|reflexivity].
    apply Permutation_length in Hperm. discriminate. }
  assert (Hsorted : sort_by timestamp_iso arrival = [m1; m2; m3]).
  { pose proof (ltb_trans _ _ _ H12 H23) as H13.
    pose proof (ltb_asym _ _ H12) as H21.
    pose proof (ltb_asym _ _ H23) as H32.
    pose proof (ltb_asym _ _ H13) as H31.
    destruct (perm3 _ _ _ _ Hperm) as [ -> | [ -> | [ -> | [ -> | [ -> | -> ] ] ] ] ];
      unfold sort_by; simpl;
        repeat (rewrite ?H12, ?H23, ?H13, ?H21, ?H32, ?H31; simpl);
        reflexivity. }
  unfold extract_content_only, aggregate_of, finalized_entry.
  cbn [stats messages finalized_stats total_messages total_characters].
  rewrite (add_message_stats _ _ Hpa), (add_message_messages _ _ Hpa).
  simpl app. rewrite Hsorted.
  unfold stats_from. cbn [s_total_messages s_total_characters new_entry
                          e_stats].
  split.
  { unfold len. now rewrite (Permutation_length Hperm). }
  split.
  { rewrite (sumZ_perm _ _ (Permutation_map _ Hperm)). simpl.
    rewrite C1, C2, C3. reflexivity. }
  split; [reflexivity|].
  simpl. rewrite C1, C2, C3. reflexivity.
Qed.

(** ** The analyzer's chunker *)

Lemma string_length_app (s1 s2 : string) :
  String.length (s1 ++ s2) = (String.length s1 + String.length s2)%nat.
Proof. induction s1 as [|c s1 IH]; simpl; [reflexivity|now rewrite IH]. Qed.

Lemma content_length_eq (c : string) :
  content_length c = (Py.len c + 3)%Z.
Proof.
  unfold content_length, Py.len, quote.
  rewrite !string_length_app. simpl String.length. lia.
Qed.

Lemma content_length_pos (c : string) : (0 < content_length c)%Z.
Proof. rewrite content_length_eq. unfold Py.len. lia. Qed.

Lemma chunk_size_app (l1 l2 : list string) :
  chunk_size (l1 ++ l2) = (chunk_size l1 + chunk_size l2)%Z.
Proof.
  unfold chunk_size.
  induction l1 as [|c l1 IH]; cbn [app map sumZ]; [reflexivity|].
  rewrite IH. lia.
Qed.

Lemma chunk_size_nonneg (l : list string) : (0 <= chunk_size l)%Z.
Proof.
  unfold chunk_size. induction l as [|c l IH]; cbn [map sumZ]; [lia|].
  pose proof (content_length_pos c). lia.
Qed.

(** The loop, read from the front of the list. *)
Lemma chunk_step_length (max : Z) (st : chunker) (c : string) :
  current_length st = chunk_size (current_chunk st) ->
  current_length (chunk_step max st c)
  = chunk_size (current_chunk (chunk_step max st c)).
Proof.
  intros Hlen. unfold chunk_step.
  destruct ((current_length st + content_length c >? max)%Z
            && negb (is_empty (current_chunk st)));
    cbn [current_chunk current_length].
  - unfold chunk_size. cbn [map sumZ]. lia.
  - rewrite chunk_size_app, Hlen. unfold chunk_size. cbn [map sumZ]. lia.
Qed.

Lemma chunk_fold (max : Z) (l : list string) :
  forall st,
    current_length st = chunk_size (current_chunk st) ->
    (if negb (is_empty (current_chunk (fold_left (chunk_step max) l st)))
     then chunks (fold_left (chunk_step max) l st)
          ++ [current_chunk (fold_left (chunk_step max) l st)]
     else chunks (fold_left (chunk_step max) l st))
    = chunks st ++ chunks_from max (current_chunk st) l.
Proof.
  induction l as [|c l IH]; intros st Hlen.
  - simpl. destruct (current_chunk st); simpl; [now rewrite app_nil_r|].
    reflexivity.
  - cbn [fold_left chunks_from].
    rewrite (IH _ (chunk_step_length max st c Hlen)), <- Hlen.
    unfold chunk_step.
    destruct ((current_length st + content_length c >? max)%Z
              && negb (is_empty (current_chunk st)));
      cbn [chunks current_chunk].
    + now rewrite <- app_assoc.
    + reflexivity.
Qed.

Lemma chunk_messages_from (l : list string) (max : Z) :
  chunk_messages l max = chunks_from max [] l.
Proof.
  unfold chunk_messages.
  exact (chunk_fold max l {| chunks := []; current_chunk := [];
                             current_length := 0 |} eq_refl).
Qed.

Lemma chunks_from_concat (max : Z) (l : list string) :
  forall cur, List.concat (chunks_from max cur l) = cur ++ l.
Proof.
  induction l as [|c l IH]; intros cur; simpl.
  - destruct cur; simpl; [reflexivity|]. now rewrite !app_nil_r.
  - destruct ((chunk_size cur + content_length c >? max)%Z
              && negb (is_empty cur)); simpl; rewrite IH.
    + reflexivity.
    + now rewrite <- app_assoc.
Qed.

Lemma chunks_from_nonempty (max : Z) (l : list string) :
  forall cur, Forall (fun chunk => chunk <> []) (chunks_from max cur l).
Proof.
  induction l as [|c l IH]; intros cur; simpl.
  - destruct cur; simpl; constructor; [discriminate|constructor].
  - destruct ((chunk_size cur + content_length c >? max)%Z
              && negb (is_empty cur)) eqn:E; [|apply IH].
    constructor; [|apply IH].
    apply andb_prop in E. destruct E as [_ E]. now destruct cur.
Qed.

Lemma chunks_from_head (max : Z) (l : list string) :
  forall cur,
    cur <> [] ->
    exists rest tl, chunks_from max cur l = (cur ++ rest) :: tl.
Proof.
  induction l as [|c l IH]; intros cur Hne; simpl.
  - destruct cur; [congruence|]. exists [], []. now rewrite app_nil_r.
  - destruct ((chunk_size cur + content_length c >? max)%Z
              && negb (is_empty cur)).
    + exists [], (chunks_from max [c] l). now rewrite app_nil_r.
    + destruct (IH (cur ++ [c])) as (rest & tl & ->);
        [now destruct cur|].
      exists (c :: rest), tl. now rewrite <- app_assoc.
Qed.

Lemma chunks_from_bound (max : Z) (l : list string) :
  forall cur,
    ((chunk_size cur <= max)%Z \/ (List.length cur <= 1)%nat) ->
    Forall (fun chunk => (chunk_size chunk <= max)%Z \/
                         exists m, chunk = [m])
           (chunks_from max cur l).
Proof.
  induction l as [|c l IH]; intros cur Hcur; simpl.
  - destruct cur as [|m cur]; simpl; constructor; [|constructor].
    destruct Hcur as [H|H]; [now left|]. right. exists m.
    destruct cur; [reflexivity|simpl in H; lia].
  - destruct ((chunk_size cur + content_length c >? max)%Z
              && negb (is_empty cur)) eqn:E.
    + constructor; [|apply IH; right; simpl; lia].
      destruct Hcur as [H|H]; [now left|]. right.
      apply andb_prop in E. destruct E as [_ E].
      destruct cur as [|m [|m' cur]]; [discriminate|now exists m|].
      simpl in H; lia.
    + apply IH. apply andb_false_iff in E. destruct E as [E|E].
      * left. rewrite chunk_size_app. unfold chunk_size at 2.
        cbn [map sumZ]. lia.
      * right. destruct cur; [simpl; lia|discriminate].
Qed.

Lemma chunks_from_packed (max : Z) (l : list string) :
  forall cur, packed max (chunks_from max cur l).
Proof.
  induction l as [|c l IH]; intros cur; simpl.
  - destruct cur; simpl; exact I.
  - destruct ((chunk_size cur + content_length c >? max)%Z
              && negb (is_empty cur)) eqn:E; [|apply IH].
    destruct (chunks_from_head max l [c]) as (rest & tl & Hh);
      [discriminate|].
    pose proof (IH [c]) as Hp. rewrite Hh in *.
    cbn [packed app]. split; [|exact Hp].
    apply andb_prop in E. destruct E as [E _]. lia.
Qed.

Lemma chunks_from_fit (max : Z) (l : list string) :
  forall cur,
    (chunk_size (cur ++ l) <= max)%Z ->
    chunks_from max cur l = if is_empty (cur ++ l) then [] else [cur ++ l].
Proof.
  induction l as [|c l IH]; intros cur H; simpl.
  - now rewrite app_nil_r.
  - assert (Hc : (chunk_size cur + content_length c >? max)%Z = false).
    { rewrite chunk_size_app in H. unfold chunk_size at 2 in H.
      cbn [map sumZ] in H. fold (chunk_size l) in H.
      pose proof (chunk_size_nonneg l). lia. }
    rewrite Hc. simpl. rewrite IH by now rewrite <- app_assoc.
    now rewrite <- app_assoc.
Qed.

(** X1. Chunking loses nothing and keeps the order: the chunks put end to
    end are the content list. *)
Theorem chunks_keep_every_message (content_list : list string) (max : Z) :
  List.concat (chunk_messages content_list max) = content_list.
Proof. rewrite chunk_messages_from. apply chunks_from_concat. Qed.

(** X2. No chunk is empty, whatever the limit, and there is no chunk at all
    exactly when there is no message. *)
Theorem chunks_are_never_empty (content_list : list string) (max : Z) :
  Forall (fun chunk => chunk <> []) (chunk_messages content_list max) /\
  (chunk_messages content_list max = [] <-> content_list = []).
Proof.
  split.
  - rewrite chunk_messages_from. apply chunks_from_nonempty.
  - split.
    + intros H. rewrite chunk_messages_from in H.
      pose proof (chunks_from_concat max content_list []) as Hc.
      rewrite H in Hc. simpl in Hc. now symmetry.
    + intros ->. reflexivity.
Qed.

(** X3. A chunk stays within the limit, each message counted with its two
    quotes and its newline, unless it is a single message that is by itself
    over the limit. *)
Theorem chunks_respect_the_limit (content_list : list string) (max : Z) :
  Forall (fun chunk => (chunk_size chunk <= max)%Z \/ exists m, chunk = [m])
         (chunk_messages content_list max).
Proof.
  rewrite chunk_messages_from. apply chunks_from_bound. right. simpl. lia.
Qed.

(** X4. The chunking is greedy: a chunk is closed only when the first
    message of the next chunk would have taken it over the limit. *)
Theorem chunks_are_packed (content_list : list string) (max : Z) :
  packed max (chunk_messages content_list max).
Proof. rewrite chunk_messages_from. apply chunks_from_packed. Qed.

(** X5. Messages that fit together under the limit are sent as one
    chunk. *)
Theorem one_chunk_when_all_fits (content_list : list string) (max : Z) :
  content_list <> [] ->
  (chunk_size content_list <= max)%Z ->
  chunk_messages content_list max = [content_list].
Proof.
  intros Hne H. rewrite chunk_messages_from, chunks_from_fit by exact H.
  simpl. now destruct content_list.
Qed.


(** ** The analyzer's content list *)

Lemma rstrip_idempotent (s : string) : Py.rstrip (Py.rstrip s) = Py.rstrip s.
Proof.
  induction s as [|c s IH]; simpl; [reflexivity|].
  destruct (Py.isspace c && negb (Py.nonempty (Py.rstrip s))) eqn:E;
    [reflexivity|].
  simpl. now rewrite IH, E.
Qed.

Lemma lstrip_fixed (s : string) : Py.lstrip (Py.lstrip s) = Py.lstrip s.
Proof.
  induction s as [|c s IH]; simpl; [reflexivity|].
  destruct (Py.isspace c) eqn:E; [exact IH|]. simpl. now rewrite E.
Qed.

Lemma lstrip_rstrip (s : string) :
  Py.lstrip s = s -> Py.lstrip (Py.rstrip s) = Py.rstrip s.
Proof.
  destruct s as [|c s]; simpl; [reflexivity|].
  destruct (Py.isspace c) eqn:E.
  - intros H. exfalso.
    assert (Hl : (String.length (Py.lstrip s) <= String.length s)%nat).
    { clear. induction s as [|c s IH]; simpl; [lia|].
      destruct (Py.isspace c); simpl; lia. }
    rewrite H in Hl. simpl in Hl. lia.
  - intros _. simpl. now rewrite E.
Qed.

Lemma strip_idempotent (s : string) : Py.strip (Py.strip s) = Py.strip s.
Proof.
  unfold Py.strip.
  rewrite (lstrip_rstrip (Py.lstrip s) (lstrip_fixed s)).
  apply rstrip_idempotent.
Qed.

(** X6. The content list of the analyzer holds no empty text and no text
    with white space at either end; it has at most one entry per
    message. *)
Theorem content_list_is_stripped (user_data : user_aggregate) :
  Forall (fun c => c <> "" /\ Py.strip c = c)
         (extract_content_only user_data) /\
  (List.length (extract_content_only user_data)
   <= List.length (messages user_data))%nat.
Proof.
  unfold extract_content_only.
  induction (messages user_data) as [|m l [IH1 IH2]]; simpl.
  - split; [constructor|lia].
  - destruct (Py.nonempty (Py.strip (content m))) eqn:E.
    + split; [|simpl; lia]. constructor; [|exact IH1]. split.
      * intros H. rewrite H in E. discriminate.
      * apply strip_idempotent.
    + split; [exact IH1|lia].
Qed.

(** ** What the loop body makes of a record *)

Lemma mapM_Forall2 {A B : Type} (f : A -> py B) (l : list A) :
  forall l', mapM f l = Ret l' -> Forall2 (fun a b => f a = Ret b) l l'.
Proof.
  induction l as [|a l IH]; simpl; intros l' H.
  - inversion H. constructor.
  - destruct (f a) as [b|e] eqn:E; simpl in H; [|discriminate].
    destruct (mapM f l) as [bs|e]; simpl in H; [|discriminate].
    inversion H; subst. constructor; [exact E|now apply IH].
Qed.

Lemma mapM_app {A B : Type} (f : A -> py B) (l1 l2 : list A)
      (m1 m2 : list B) :
  mapM f l1 = Ret m1 -> mapM f l2 = Ret m2 ->
  mapM f (l1 ++ l2) = Ret (m1 ++ m2).
Proof.
  revert m1. induction l1 as [|a l1 IH]; simpl; intros m1 H1 H2.
  - inversion H1. exact H2.
  - destruct (f a) as [b|e]; simpl in *; [|discriminate].
    destruct (mapM f l1) as [bs|e]; simpl in *; [|discriminate].
    inversion H1; subst. now rewrite (IH bs eq_refl H2).
Qed.

Lemma mapM_complete {A B : Type} (f : A -> py B) (ok : A -> bool)
      (l : list A) :
  (forall a, ok a = true -> exists b, f a = Ret b) ->
  forallb ok l = true -> exists l', mapM f l = Ret l'.
Proof.
  intros Hok. induction l as [|a l IH]; simpl; intros H; [now exists []|].
  apply andb_prop in H. destruct H as [Ha H].
  destruct (Hok a Ha) as [b ->]. destruct (IH H) as [bs ->].
  now exists (b :: bs).
Qed.

Lemma mapM_incomplete {A B : Type} (f : A -> py B) (ok : A -> bool)
      (l : list A) :
  (forall a, ok a = false -> raises (f a)) ->
  forallb ok l = false -> raises (mapM f l).
Proof.
  intros Hno. induction l as [|a l IH]; simpl; intros H; [discriminate|].
  destruct (ok a) eqn:Ea; simpl in H.
  - destruct (f a) as [b|e]; simpl; [|now exists e].
    destruct (IH H) as [e ->]. now exists e.
  - destruct (Hno a Ea) as [e ->]. now exists e.
Qed.

Lemma extract_attachment_complete (t : raw_attachment) :
  attachment_complete t = true -> exists a, extract_attachment t = Ret a.
Proof.
  unfold attachment_complete, extract_attachment.
  destruct (rt_id t), (rt_filename t), (rt_size t), (rt_url t);
    simpl; try discriminate. intros _. eauto.
Qed.

Lemma extract_attachment_incomplete (t : raw_attachment) :
  attachment_complete t = false -> raises (extract_attachment t).
Proof.
  unfold attachment_complete, extract_attachment, raises.
  destruct (rt_id t), (rt_filename t), (rt_size t), (rt_url t);
    simpl; try discriminate; intros _; eauto.
Qed.

Lemma extract_reaction_complete (r : raw_reaction) :
  reaction_complete r = true -> exists a, extract_reaction r = Ret a.
Proof.
  unfold reaction_complete, extract_reaction.
  destruct (rr_emoji r), (rr_count r); simpl; try discriminate.
  intros _. eauto.
Qed.

Lemma extract_reaction_incomplete (r : raw_reaction) :
  reaction_complete r = false -> raises (extract_reaction r).
Proof.
  unfold reaction_complete, extract_reaction, raises.
  destruct (rr_emoji r), (rr_count r); simpl; try discriminate;
    intros _; eauto.
Qed.

Lemma extract_mention_complete (m : raw_mention) :
  mention_complete m = true -> exists a, extract_mention m = Ret a.
Proof.
  unfold mention_complete, extract_mention.
  destruct (rm_id m), (rm_username m); simpl; try discriminate.
  intros _. eauto.
Qed.

Lemma extract_mention_incomplete (m : raw_mention) :
  mention_complete m = false -> raises (extract_mention m).
Proof.
  unfold mention_complete, extract_mention, raises.
  destruct (rm_id m), (rm_username m); simpl; try discriminate;
    intros _; eauto.
Qed.

(** X7. The loop body turns a record into a message exactly when the
    record has a timestamp that parses, an author with [id] and [username],
    an [id], and the mandatory keys of every attachment, reaction and
    mention; otherwise it raises. *)
Theorem extract_message_needs (cid cname : string) (msg : raw_message) :
  (well_formed msg = true ->
   exists m, extract_message cid cname msg = Ret m) /\
  (well_formed msg = false -> raises (extract_message cid cname msg)).
Proof.
  unfold well_formed, has_timestamp, extract_message, parse_timestamp,
    author_complete, extract_author.
  destruct (r_timestamp msg) as [ts|]; simpl;
    [|split; [discriminate|intros _; eexists; reflexivity]].
  destruct (fromisoformat (Py.replace_Z ts)) as [d|]; simpl;
    [|split; [discriminate|intros _; eexists; reflexivity]].
  destruct (r_author msg) as [a|]; simpl;
    [|split; [discriminate|intros _; eexists; reflexivity]].
  destruct (ra_id a) as [i|]; simpl;
    [|split; [discriminate|intros _; eexists; reflexivity]].
  destruct (ra_username a) as [u|]; simpl;
    [|split; [discriminate|intros _; eexists; reflexivity]].
  destruct (forallb attachment_complete (get (r_attachments msg) [])) eqn:Ea.
  2:{ split; [discriminate|]. intros _.
      destruct (mapM_incomplete _ _ _ extract_attachment_incomplete Ea)
        as [e ->].
      now exists e. }
  destruct (mapM_complete _ _ _ extract_attachment_complete Ea) as [ats ->].
  simpl.
  destruct (forallb reaction_complete (get (r_reactions msg) [])) eqn:Er.
  2:{ split; [discriminate|]. intros _.
      destruct (mapM_incomplete _ _ _ extract_reaction_incomplete Er)
        as [e ->].
      now exists e. }
  destruct (mapM_complete _ _ _ extract_reaction_complete Er) as [res ->].
  simpl.
  destruct (forallb mention_complete (get (r_mentions msg) [])) eqn:Em.
  2:{ split; [discriminate|]. intros _.
      destruct (mapM_incomplete _ _ _ extract_mention_incomplete Em)
        as [e ->].
      now exists e. }
  destruct (mapM_complete _ _ _ extract_mention_complete Em) as [mes ->].
  simpl.
  destruct (r_id msg) as [i'|]; simpl.
  - split; [intros _; eexists; reflexivity|discriminate].
  - split; [discriminate|intros _; eexists; reflexivity].
Qed.

Lemma extract_message_inv (cid cname : string) (msg : raw_message)
      (m : message) :
  extract_message cid cname msg = Ret m ->
  exists ts d a i u ats res mes i',
    r_timestamp msg = Some ts /\
    fromisoformat (Py.replace_Z ts) = Some d /\
    r_author msg = Some a /\ ra_id a = Some i /\ ra_username a = Some u /\
    mapM extract_attachment (get (r_attachments msg) []) = Ret ats /\
    mapM extract_reaction (get (r_reactions msg) []) = Ret res /\
    mapM extract_mention (get (r_mentions msg) []) = Ret mes /\
    r_id msg = Some i' /\
    message_id m = i' /\ channel_id m = cid /\ channel_name m = cname /\
    timestamp m = strftime d /\ timestamp_iso m = ts /\
    content m = get (r_content msg) "" /\
    attachments m = ats /\ reactions m = res /\ mentions m = mes /\
    embeds m = get (r_embeds msg) [] /\
    author m = {| id := i; username := u;
                  discriminator := get (ra_discriminator a) "0";
                  display_name := or_else (ra_global_name a) u;
                  bot := get (ra_bot a) false;
                  avatar := ra_avatar a |} /\
    full_username m
    = make_full_username
        {| id := i; username := u;
           discriminator := get (ra_discriminator a) "0";
           display_name := or_else (ra_global_name a) u;
           bot := get (ra_bot a) false;
           avatar := ra_avatar a |}.
Proof.
  unfold extract_message, parse_timestamp, extract_author.
  destruct (r_timestamp msg) as [ts|] eqn:E1; simpl; [|discriminate].
  destruct (fromisoformat (Py.replace_Z ts)) as [d|] eqn:E2; simpl;
    [|discriminate].
  destruct (r_author msg) as [a|] eqn:E3; simpl; [|discriminate].
  destruct (ra_id a) as [i|] eqn:E4; simpl; [|discriminate].
  destruct (ra_username a) as [u|] eqn:E5; simpl; [|discriminate].
  destruct (mapM extract_attachment (get (r_attachments msg) []))
    as [ats|] eqn:E6; simpl; [|discriminate].
  destruct (mapM extract_reaction (get (r_reactions msg) []))
    as [res|] eqn:E7; simpl; [|discriminate].
  destruct (mapM extract_mention (get (r_mentions msg) []))
    as [mes|] eqn:E8; simpl; [|discriminate].
  destruct (r_id msg) as [i'|] eqn:E9; simpl; [|discriminate].
  intros H. inversion H; subst; clear H. simpl.
  exists ts, d, a, i, u, ats, res, mes, i'.
  repeat split; try reflexivity; assumption.
Qed.


(** X8. A message built by the loop body keeps the identity of its record:
    its id, its timestamp text (which parses), its content (empty when the
    record has none), the id of its author, and as many attachments,
    embeds, reactions and mentions as the record has; its channel is the
    one the crawl was called for. *)
Theorem normalised_record_keeps_identity (cid cname : string)
        (msg : raw_message) (m : message) :
  extract_message cid cname msg = Ret m ->
  r_id msg = Some (message_id m) /\
  r_timestamp msg = Some (timestamp_iso m) /\
  parses m = true /\
  channel_id m = cid /\ channel_name m = cname /\
  content m = get (r_content msg) "" /\
  (exists a, r_author msg = Some a /\ ra_id a = Some (id (author m))) /\
  len (attachments m) = len (get (r_attachments msg) []) /\
  len (embeds m) = len (get (r_embeds msg) []) /\
  len (reactions m) = len (get (r_reactions msg) []) /\
  len (mentions m) = len (get (r_mentions msg) []).
Proof.
  intros H. destruct (extract_message_inv _ _ _ _ H)
    as (ts & d & a & i & u & ats & res & mes & i' & Hts & Hd & Ha & Hi & Hu
        & Hats & Hres & Hmes & Hid & Hmid & Hcid & Hcn & _ & Hiso & Hc
        & Hmats & Hmres & Hmmes & Hemb & Hauth & _).
  unfold parses, message_time, len.
  rewrite Hmid, Hiso, Hcid, Hcn, Hc, Hmats, Hmres, Hmmes, Hemb, Hauth, Hd,
    (mapM_length _ _ _ Hats), (mapM_length _ _ _ Hres),
    (mapM_length _ _ _ Hmes).
  repeat split; try assumption; try reflexivity.
  exists a. now split.
Qed.

(** X9. The full user name is the user name alone when the record gives no
    discriminator or the discriminator "0", and the user name, "#" and the
    discriminator otherwise; the display name is the global name unless
    that is absent or empty, in which case it is the user name. *)
Theorem full_username_rule (cid cname : string) (msg : raw_message)
        (m : message) :
  extract_message cid cname msg = Ret m ->
  exists a u,
    r_author msg = Some a /\ ra_username a = Some u /\
    username (author m) = u /\
    full_username m
    = match ra_discriminator a with
      | Some d => if String.eqb d "0" then u else (u ++ "#" ++ d)%string
      | None => u
      end /\
    display_name (author m)
    = match ra_global_name a with
      | Some g => if String.eqb g "" then u else g
      | None => u
      end.
Proof.
  intros H. destruct (extract_message_inv _ _ _ _ H)
    as (ts & d & a & i & u & ats & res & mes & i' & _ & _ & Ha & _ & Hu
        & _ & _ & _ & _ & _ & _ & _ & _ & _ & _ & _ & _ & _ & _ & Hauth
        & Hfull).
  exists a, u. split; [exact Ha|]. split; [exact Hu|].
  rewrite Hauth, Hfull. split; [reflexivity|].
  unfold make_full_username. simpl. split.
  - destruct (ra_discriminator a) as [dd|]; simpl; [|reflexivity].
    now destruct (String.eqb dd "0").
  - unfold or_else. destruct (ra_global_name a) as [g|]; [|reflexivity].
    now destruct g.
Qed.

Section LoopMore.

Variables (cid cname : string) (limit : Z) (max_messages : option Z).

Local Abbreviation loop := (extract_loop cid cname limit max_messages).
Local Abbreviation normalize := (mapM (extract_message cid cname)).
Local Abbreviation continuing hm total :=
  (hm && under_budget max_messages total).
Local Abbreviation crawl before rs :=
  (extract_messages_with_content cid cname limit before max_messages rs).

Lemma records_cons (r0 : response) (c : list response) :
  records (r0 :: c)
  = match r0 with
    | Ok200 batch => batch
    | _ => []
    end ++ records c.
Proof. reflexivity. Qed.

(** What a call returns is what it started with followed by the
    normalisation of the records it read. *)
Lemma loop_returned (rs : list response) :
  forall msgs before total hm r out,
    loop rs msgs before total hm = Some r ->
    returned r = Ret out ->
    exists consumed ms,
      rs = consumed ++ unread r /\
      normalize (records consumed) = Ret ms /\
      out = msgs ++ ms.
Proof.
  induction rs as [|r0 rs IH]; intros msgs before total hm r out H Hout.
  - simpl in H. destruct (continuing hm total); [discriminate|].
    inversion H; subst; simpl in *. inversion Hout; subst.
    exists [], []. repeat split. now rewrite app_nil_r.
  - simpl in H. destruct (continuing hm total).
    2:{ inversion H; subst; simpl in *. inversion Hout; subst.
        exists [], []. repeat split. now rewrite app_nil_r. }
    destruct r0 as [[|m batch]|ra|code text].
    + apply emit_Some in H. destruct H as (r' & H & Hr & _ & Hu).
      rewrite Hr in Hout.
      destruct (IH _ _ _ _ _ _ H Hout) as (c & ms & -> & Hms & ->).
      exists (Ok200 [] :: c), ms. rewrite Hu. now split.
    + destruct (normalize (m :: batch)) as [ms0|e] eqn:E.
      * apply emit_Some in H. destruct H as (r' & H & Hr & _ & Hu).
        rewrite Hr in Hout.
        destruct (IH _ _ _ _ _ _ H Hout) as (c & ms & -> & Hms & ->).
        exists (Ok200 (m :: batch) :: c), (ms0 ++ ms). rewrite Hu.
        split; [reflexivity|]. split; [|now rewrite app_assoc].
        rewrite records_cons. now apply mapM_app.
      * inversion H; subst; simpl in *. discriminate.
    + apply emit_Some in H. destruct H as (r' & H & Hr & _ & Hu).
      rewrite Hr in Hout.
      destruct (IH _ _ _ _ _ _ H Hout) as (c & ms & -> & Hms & ->).
      exists (RateLimited ra :: c), ms. rewrite Hu. now split.
    + apply emit_Some in H. destruct H as (r' & H & Hr & _ & Hu).
      rewrite Hr in Hout.
      destruct (IH _ _ _ _ _ _ H Hout) as (c & ms & -> & Hms & ->).
      exists (HttpError code text :: c), ms. rewrite Hu. now split.
Qed.

(** X10. When the call returns, its result is, record by record and in the
    order in which the pages delivered them, the normalisation of the
    records it read: nothing is dropped, repeated or reordered. *)
Theorem returned_messages_are_the_records_read (before : option string)
        (rs : list response) (r : run) (out : list message) :
  crawl before rs = Some r ->
  returned r = Ret out ->
  exists consumed,
    rs = consumed ++ unread r /\
    Forall2 (fun raw m => extract_message cid cname raw = Ret m)
            (records consumed) out.
Proof.
  intros Hr Hout.
  destruct (loop_returned _ _ _ _ _ _ _ Hr Hout) as (c & ms & Hc & Hms & ->).
  exists c. split; [exact Hc|]. simpl. now apply mapM_Forall2.
Qed.

Lemma normalised_parse (l : list raw_message) (ms : list message) :
  Forall2 (fun raw m => extract_message cid cname raw = Ret m) l ms ->
  forallb parses ms = true.
Proof.
  induction 1 as [|raw m l l' Hm _ IH]; simpl; [reflexivity|].
  rewrite IH, andb_true_r.
  destruct (extract_message_inv _ _ _ _ Hm)
    as (ts & d & a & i & u & ats & res & mes & i' & _ & Hd & _ & _ & _
        & _ & _ & _ & _ & _ & _ & _ & _ & Hiso & _).
  unfold parses, message_time. now rewrite Hiso, Hd.
Qed.

Lemma normalised_timestamps (l : list raw_message) (ms : list message) :
  Forall2 (fun raw m => extract_message cid cname raw = Ret m) l ms ->
  Forall (fun m => exists t, message_time m = Some t /\
                             timestamp m = strftime t) ms.
Proof.
  induction 1 as [|raw m l l' Hm _ IH]; constructor; [|exact IH].
  destruct (extract_message_inv _ _ _ _ Hm)
    as (ts & d & a & i & u & ats & res & mes & i' & _ & Hd & _ & _ & _
        & _ & _ & _ & _ & _ & _ & _ & Hts & Hiso & _).
  exists d. unfold message_time. rewrite Hiso. split; assumption.
Qed.

(** X11. Every message that the extractor returns carries a timestamp
    text that parses again, by the parse that [organize_messages_by_user]
    applies to it, and its [timestamp] is the rendering of the value
    parsed: on what the extractor returns, the [fromisoformat] of the
    aggregation does not fail. *)
Theorem extracted_timestamps_parse_again (before : option string)
        (rs : list response) (r : run) (out : list message) :
  crawl before rs = Some r ->
  returned r = Ret out ->
  Forall (fun m => exists t, message_time m = Some t /\
                             timestamp m = strftime t) out.
Proof.
  intros Hr Hout.
  destruct (loop_returned _ _ _ _ _ _ _ Hr Hout) as (c & ms & _ & Hms & ->).
  simpl. apply (normalised_timestamps (records c)).
  now apply mapM_Forall2.
Qed.

Lemma requests_emit (p : params) (ev : list event) (tr : list event) :
  requests ev = [] ->
  requests ((Request p :: ev) ++ tr) = p :: requests tr.
Proof.
  intros Hev. simpl. f_equal.
  induction ev as [|[q|d] ev IH]; simpl in *;
    [reflexivity|discriminate|now apply IH].
Qed.

Lemma loop_budget (m : Z) (rs : list response) :
  max_messages = Some m ->
  forall msgs before total hm r out,
    loop rs msgs before total hm = Some r ->
    returned r = Ret out ->
    (forall i batch p,
        nth_error rs i = Some (Ok200 batch) ->
        nth_error (requests (trace r)) i = Some p ->
        (len batch <= p_limit p)%Z) ->
    (len out - len msgs <= Z.max 0 (m - total))%Z.
Proof.
  intros Hmax.
  induction rs as [|r0 rs IH]; intros msgs before total hm r out H Hout Hp.
  - simpl in H. destruct (continuing hm total); [discriminate|].
    inversion H; subst; simpl in *. inversion Hout; subst. lia.
  - simpl in H. destruct (continuing hm total) eqn:C.
    2:{ inversion H; subst; simpl in *. inversion Hout; subst. lia. }
    assert (Hgo : forall ev msgs' before' total' hm' r',
               loop rs msgs' before' total' hm' = Some r' ->
               returned r = returned r' ->
               trace r
               = (Request {| p_limit :=
                               batch_limit_of limit max_messages total;
                             p_before := truthy before |} :: ev)
                   ++ trace r' ->
               requests ev = [] ->
               (len out - len msgs' <= Z.max 0 (m - total'))%Z).
    { intros ev msgs' before' total' hm' r' H' Hr Ht Hev.
      rewrite Hr in Hout. apply (IH _ _ _ _ _ _ H' Hout).
      intros i batch p Hi Hpi. apply (Hp (S i) batch p Hi).
      rewrite Ht, (requests_emit _ _ _ Hev). exact Hpi. }
    destruct r0 as [[|r1 batch]|ra|code text].
    + apply emit_Some in H. destruct H as (r' & H & Hr & Ht & _).
      pose proof (Hgo [] _ _ _ _ _ H Hr Ht eq_refl). lia.
    + destruct (normalize (r1 :: batch)) as [ms|e] eqn:E.
      * apply emit_Some in H. destruct H as (r' & H & Hr & Ht & _).
        pose proof (Hgo [] _ _ _ _ _ H Hr Ht eq_refl) as Hle.
        assert (Hb : (len (r1 :: batch)
                      <= batch_limit_of limit max_messages total)%Z).
        { apply (Hp 0%nat (r1 :: batch)
                    {| p_limit := batch_limit_of limit max_messages total;
                       p_before := truthy before |} eq_refl).
          rewrite Ht. reflexivity. }
        apply mapM_length in E. unfold len in *.
        rewrite length_app, E in Hle.
        unfold batch_limit_of in Hb. rewrite Hmax in Hb. lia.
      * inversion H; subst; simpl in *. discriminate.
    + apply emit_Some in H. destruct H as (r' & H & Hr & Ht & _).
      pose proof (Hgo [Sleep (get ra 5 + (1 # 2))%Q] _ _ _ _ _ H Hr Ht
                      eq_refl). lia.
    + apply emit_Some in H. destruct H as (r' & H & Hr & Ht & _).
      pose proof (Hgo [] _ _ _ _ _ H Hr Ht eq_refl). lia.
Qed.

(** X12. With a cap of [m] messages the call returns at most [m] of them
    (none when [m] is negative), provided that every page holds at most as
    many records as its request asked for. *)
Theorem message_cap_is_respected (m : Z) (before : option string)
        (rs : list response) (r : run) (out : list message) :
  max_messages = Some m ->
  crawl before rs = Some r ->
  returned r = Ret out ->
  (forall i batch p,
      nth_error rs i = Some (Ok200 batch) ->
      nth_error (requests (trace r)) i = Some p ->
      (len batch <= p_limit p)%Z) ->
  (len out <= Z.max 0 m)%Z.
Proof.
  intros Hmax Hr Hout Hp.
  pose proof (loop_budget m rs Hmax _ _ _ _ _ _ Hr Hout Hp) as H.
  unfold len in *. simpl in H. lia.
Qed.

Lemma loop_limits (rs : list response) :
  forall msgs before total hm r,
    (0 <= total)%Z ->
    loop rs msgs before total hm = Some r ->
    Forall (fun p =>
              (p_limit p <= limit)%Z /\
              ((0 < limit)%Z -> (0 < p_limit p)%Z) /\
              forall m, max_messages = Some m -> (p_limit p <= m)%Z)
           (requests (trace r)).
Proof.
  induction rs as [|r0 rs IH]; intros msgs before total hm r Htot H.
  - simpl in H. destruct (continuing hm total); [discriminate|].
    inversion H; subst. constructor.
  - simpl in H. destruct (continuing hm total) eqn:C;
      [|inversion H; subst; constructor].
    assert (Hreq : (batch_limit_of limit max_messages total <= limit)%Z /\
                   ((0 < limit)%Z ->
                    (0 < batch_limit_of limit max_messages total)%Z) /\
                   forall m, max_messages = Some m ->
                             (batch_limit_of limit max_messages total
                              <= m)%Z).
    { apply andb_prop in C. destruct C as [_ C].
      unfold batch_limit_of, under_budget in *.
      destruct max_messages as [mx|].
      - apply Z.ltb_lt in C. split; [lia|]. split; [lia|].
        intros m Hm. inversion Hm; subst. lia.
      - split; [lia|]. split; [lia|]. intros m Hm. discriminate. }
    assert (Hgo : forall ev msgs' before' total' hm' r',
               (0 <= total')%Z ->
               loop rs msgs' before' total' hm' = Some r' ->
               trace r
               = (Request {| p_limit :=
                               batch_limit_of limit max_messages total;
                             p_before := truthy before |} :: ev)
                   ++ trace r' ->
               requests ev = [] ->
               Forall (fun p =>
                         (p_limit p <= limit)%Z /\
                         ((0 < limit)%Z -> (0 < p_limit p)%Z) /\
                         forall m, max_messages = Some m ->
                                   (p_limit p <= m)%Z)
                      (requests (trace r))).
    { intros ev msgs' before' total' hm' r' Ht' H' Ht Hev.
      rewrite Ht, (requests_emit _ _ _ Hev).
      constructor; [exact Hreq|]. now apply (IH _ _ _ _ _ Ht' H'). }
    destruct r0 as [[|r1 batch]|ra|code text].
    + apply emit_Some in H. destruct H as (r' & H & _ & Ht & _).
      now apply (Hgo [] _ _ _ _ _ Htot H Ht).
    + destruct (normalize (r1 :: batch)) as [ms|e].
      * apply emit_Some in H. destruct H as (r' & H & _ & Ht & _).
        apply (Hgo [] _ _ _ _ _ (Z.add_nonneg_nonneg _ _ Htot
                                   (Nat2Z.is_nonneg _)) H Ht eq_refl).
      * inversion H; subst. simpl. constructor; [exact Hreq|constructor].
    + apply emit_Some in H. destruct H as (r' & H & _ & Ht & _).
      now apply (Hgo [Sleep (get ra 5 + (1 # 2))%Q] _ _ _ _ _ Htot H Ht).
    + apply emit_Some in H. destruct H as (r' & H & _ & Ht & _).
      now apply (Hgo [] _ _ _ _ _ Htot H Ht).
Qed.

(** X13. No request over-fetches: the page size asked for is never above
    [limit] nor above the cap on messages, and it is positive as soon as
    [limit] is. *)
Theorem requests_never_overfetch (before : option string)
        (rs : list response) (r : run) :
  crawl before rs = Some r ->
  Forall (fun p =>
            (p_limit p <= limit)%Z /\
            ((0 < limit)%Z -> (0 < p_limit p)%Z) /\
            forall m, max_messages = Some m -> (p_limit p <= m)%Z)
         (requests (trace r)).
Proof. intros Hr. apply (loop_limits _ _ _ _ _ _ (Z.le_refl 0) Hr). Qed.

Lemma loop_http_error (code : Z) (text : string)
      (pre post : list response) :
  forall msgs before total hm,
    exists r,
      loop (pre ++ HttpError code text :: post) msgs before total hm
      = Some r /\
      (exists u, unread r = u ++ post) /\
      option_map returned (loop (pre ++ [Ok200 []]) msgs before total hm)
      = Some (returned r).
Proof.
  induction pre as [|r0 pre IH]; intros msgs before total hm.
  - simpl. destruct (continuing hm total) eqn:C.
    + rewrite !loop_stop by reflexivity. simpl. eexists.
      split; [reflexivity|]. simpl. split; [now exists []|reflexivity].
    + eexists. split; [reflexivity|]. simpl.
      split; [now exists [HttpError code text]|reflexivity].
  - simpl. destruct (continuing hm total).
    2:{ eexists. split; [reflexivity|]. simpl. split; [|reflexivity].
        exists (r0 :: pre ++ [HttpError code text]).
        simpl. now rewrite <- app_assoc. }
    destruct r0 as [[|r1 batch]|ra|code0 text0].
    + destruct (IH msgs before total false) as (r & -> & Hu & Hr).
      rewrite returned_emit, Hr. simpl. eexists.
      split; [reflexivity|]. simpl. now split.
    + destruct (normalize (r1 :: batch)) as [ms|e].
      * match goal with
        | |- context [loop (pre ++ HttpError _ _ :: _) ?a ?b ?c ?d] =>
            destruct (IH a b c d) as (r & -> & Hu & Hr)
        end.
        rewrite returned_emit, Hr. simpl. eexists.
        split; [reflexivity|]. simpl. now split.
      * eexists. split; [reflexivity|]. simpl. split; [|reflexivity].
        exists (pre ++ [HttpError code text]). now rewrite <- app_assoc.
    + destruct (IH msgs before total hm) as (r & -> & Hu & Hr).
      rewrite returned_emit, Hr. simpl. eexists.
      split; [reflexivity|]. simpl. now split.
    + destruct (IH msgs before total false) as (r & -> & Hu & Hr).
      rewrite returned_emit, Hr. simpl. eexists.
      split; [reflexivity|]. simpl. now split.
Qed.

(** X14. A response that is neither 200 nor 429 ends the crawl of the
    channel without raising: the call finishes, reads nothing after the
    error, and hands back what it would hand back had the channel been
    exhausted at that point. *)
Theorem http_error_ends_the_channel (before : option string) (code : Z)
        (text : string) (pre post : list response) :
  exists r,
    crawl before (pre ++ HttpError code text :: post) = Some r /\
    (exists u, unread r = u ++ post) /\
    option_map returned (crawl before (pre ++ [Ok200 []]))
    = Some (returned r).
Proof. apply loop_http_error. Qed.

Lemma sleeps_emit_request (p : params) (tr : list event) :
  sleeps ([Request p] ++ tr) = sleeps tr.
Proof. reflexivity. Qed.

Lemma loop_sleeps (rs : list response) :
  forall msgs before total hm r,
    loop rs msgs before total hm = Some r ->
    exists consumed,
      rs = consumed ++ unread r /\
      sleeps (trace r)
      = map (fun ra => (get ra 5 + (1 # 2))%Q) (rate_limits consumed).
Proof.
  induction rs as [|r0 rs IH]; intros msgs before total hm r H.
  - simpl in H. destruct (continuing hm total); [discriminate|].
    inversion H; subst. now exists [].
  - simpl in H. destruct (continuing hm total);
      [|inversion H; subst; now exists []].
    destruct r0 as [[|r1 batch]|ra|code text].
    + apply emit_Some in H. destruct H as (r' & H & _ & Ht & Hu).
      destruct (IH _ _ _ _ _ H) as (c & -> & Hc).
      exists (Ok200 [] :: c). rewrite Hu, Ht. now split.
    + destruct (normalize (r1 :: batch)) as [ms|e].
      * apply emit_Some in H. destruct H as (r' & H & _ & Ht & Hu).
        destruct (IH _ _ _ _ _ H) as (c & -> & Hc).
        exists (Ok200 (r1 :: batch) :: c). rewrite Hu, Ht. now split.
      * inversion H; subst. now exists [Ok200 (r1 :: batch)].
    + apply emit_Some in H. destruct H as (r' & H & _ & Ht & Hu).
      destruct (IH _ _ _ _ _ H) as (c & -> & Hc).
      exists (RateLimited ra :: c). rewrite Hu, Ht. split; [reflexivity|].
      simpl. now rewrite Hc.
    + apply emit_Some in H. destruct H as (r' & H & _ & Ht & Hu).
      destruct (IH _ _ _ _ _ H) as (c & -> & Hc).
      exists (HttpError code text :: c). rewrite Hu, Ht. now split.
Qed.

(** X27. The call sleeps once for each rate-limit response it reads, and
    for nothing else: the sleeps are, in order, the delays those responses
    name (5 when they name none), each plus 0.5. *)
Theorem one_sleep_per_rate_limit (before : option string)
        (rs : list response) (r : run) (consumed : list response) :
  crawl before rs = Some r ->
  rs = consumed ++ unread r ->
  sleeps (trace r)
  = map (fun ra => (get ra 5 + (1 # 2))%Q) (rate_limits consumed).
Proof.
  intros Hr Hc. destruct (loop_sleeps _ _ _ _ _ _ Hr) as (c & Hc' & Hs).
  rewrite Hc in Hc'. apply app_inv_tail in Hc'. now subst c.
Qed.

End LoopMore.


(** ** More on the aggregation *)

Lemma keys_store (k : string) (e : entry) (d : dict entry) :
  keys (store k e d) = set_add k (keys d).
Proof.
  unfold set_add, keys.
  induction d as [|[k' e'] d IH]; simpl; [reflexivity|].
  destruct (String.eqb k k') eqn:E; simpl; [reflexivity|].
  rewrite IH. now destruct (existsb (String.eqb k) (map fst d)).
Qed.

Lemma keys_fold (msgs : list message) :
  forall ud,
    forallb parses msgs = true ->
    keys (fold_left fold_message msgs ud)
    = fold_left (fun s c => set_add c s)
                (map (fun m => id (author m)) msgs) (keys ud).
Proof.
  induction msgs as [|m msgs IH]; simpl; intros ud H; [reflexivity|].
  apply andb_prop in H. destruct H as [Hm H].
  destruct (parses_time _ Hm) as [t Ht].
  now rewrite (IH _ H), (fold_message_parsed _ _ _ Ht), keys_store.
Qed.

Lemma filter_twice {A : Type} (f g : A -> bool) (l : list A) :
  filter f (filter g l) = filter (fun x => g x && f x) l.
Proof.
  induction l as [|a l IH]; simpl; [reflexivity|].
  destruct (g a); simpl; [|exact IH]. destruct (f a); now rewrite IH.
Qed.

Lemma set_add_all_distinct (l : list string) :
  forall s,
    fold_left (fun s c => set_add c s) l s
    = s ++ filter (fun c => negb (existsb (String.eqb c) s)) (distinct l).
Proof.
  induction l as [|x l IH]; intros s; simpl; [now rewrite app_nil_r|].
  rewrite IH, filter_twice. unfold set_add.
  destruct (existsb (String.eqb x) s) eqn:E; simpl.
  - f_equal. apply filter_ext. intros c.
    destruct (String.eqb c x) eqn:Ec; simpl; [|reflexivity].
    apply String.eqb_eq in Ec. subst c. now rewrite E.
  - rewrite <- app_assoc. simpl. f_equal. f_equal.
    apply filter_ext. intros c. rewrite existsb_app. simpl.
    rewrite orb_false_r, negb_orb. apply andb_comm.
Qed.

(** X15. The users come out in the order in which they first appear in the
    input, each once. *)
Theorem users_in_order_of_first_appearance (msgs : list message) :
  forallb parses msgs = true ->
  exists d,
    organize_messages_by_user msgs = Ret d /\
    keys d = distinct (map (fun m => id (author m)) msgs).
Proof.
  intros H. destruct (organize_lookup _ H) as (d & Hd & Hk & _).
  exists d. split; [exact Hd|].
  rewrite Hk, (keys_fold _ _ H), set_add_all_distinct. simpl.
  clear. induction (distinct (map (fun m => id (author m)) msgs))
    as [|x l IH]; simpl; [reflexivity|now rewrite IH].
Qed.

(** X16. Every user of the result has at least one message, so that its
    [user_info] is set (to the snapshot of one of the input messages), its
    first and last timestamps are set, and its averages are the quotients
    by a positive [total_messages]: the branch for zero messages is never
    the one taken. *)
Theorem every_user_has_messages (msgs : list message) :
  forallb parses msgs = true ->
  exists d,
    organize_messages_by_user msgs = Ret d /\
    forall uid agg,
      lookup uid d = Some agg ->
      (exists m, In m msgs /\ user_info agg = Some (snapshot_of m)) /\
      messages agg <> [] /\
      (0 < total_messages (stats agg))%Z /\
      first_message (stats agg) <> None /\
      last_message (stats agg) <> None /\
      avg_message_length (stats agg)
      = (inject_Z (total_characters (stats agg))
         / inject_Z (total_messages (stats agg)))%Q /\
      avg_words_per_message (stats agg)
      = (inject_Z (total_words (stats agg))
         / inject_Z (total_messages (stats agg)))%Q.
Proof.
  intros H. destruct (organize_lookup _ H) as (d & Hd & _ & Hl).
  exists d. split; [exact Hd|]. intros uid agg Hagg. rewrite Hl in Hagg.
  assert (Hp : forallb parses (filter (is_author uid) msgs) = true)
    by now apply forallb_filter.
  destruct (filter (is_author uid) msgs) as [|m l] eqn:E; [discriminate|].
  injection Hagg as <-. unfold aggregate_of, finalized_entry.
  cbn [user_info messages stats].
  rewrite (add_message_user_info _ _ Hp), (add_message_messages _ _ Hp),
    (add_message_stats _ _ Hp).
  assert (Hpos : (0 < s_total_messages
                         (stats_from (e_stats new_entry) (m :: l)))%Z).
  { unfold stats_from, len. cbn [s_total_messages new_entry e_stats].
    simpl List.length. lia. }
  assert (Hgt : (s_total_messages (stats_from (e_stats new_entry) (m :: l))
                 >? 0)%Z = true) by lia.
  split.
  { exists m. split; [|reflexivity].
    assert (Hin : In m (filter (is_author uid) msgs))
      by (rewrite E; now left).
    now apply filter_In in Hin. }
  split.
  { intros Hnil.
    pose proof (Permutation_length (sort_by_perm _ timestamp_iso (m :: l)))
      as Hlen.
    simpl app in Hnil. rewrite Hnil in Hlen. discriminate. }
  unfold finalized_stats.
  cbn [total_messages total_characters total_words first_message
       last_message avg_message_length avg_words_per_message].
  rewrite Hgt. split; [exact Hpos|].
  destruct (parses_time m) as [t Ht].
  { simpl in Hp. now apply andb_prop in Hp. }
  unfold stats_from. cbn [s_first_message s_last_message new_entry e_stats].
  rewrite (times_parsed _ _ _ Ht). cbn [fold_left track_first track_last].
  assert (Hf : forall ts d0, fold_left track_first ts (Some d0) <> None).
  { induction ts as [|x ts IHts]; intros d0; simpl; [discriminate|].
    destruct (dt_ltb x d0); apply IHts. }
  assert (Hla : forall ts d0, fold_left track_last ts (Some d0) <> None).
  { induction ts as [|x ts IHts]; intros d0; simpl; [discriminate|].
    destruct (dt_ltb d0 x); apply IHts. }
  split.
  { specialize (Hf (times l) t).
    destruct (fold_left track_first (times l) (Some t)); [discriminate|].
    congruence. }
  split.
  { specialize (Hla (times l) t).
    destruct (fold_left track_last (times l) (Some t)); [discriminate|].
    congruence. }
  split; reflexivity.
Qed.


(** X17. A user's statistics count exactly that user's messages: the
    totals are the sums, over the user's [messages], of the content
    lengths, word counts, attachments, embeds, reaction counts and
    mentions; [channels_used] lists, each once, the channels of those
    messages, and [unique_channels] is its length. *)
Theorem stats_count_the_users_messages (msgs : list message) :
  forallb parses msgs = true ->
  exists d,
    organize_messages_by_user msgs = Ret d /\
    forall uid agg,
      lookup uid d = Some agg ->
      total_characters (stats agg)
      = sumZ (map (fun m => Py.len (content m)) (messages agg)) /\
      total_words (stats agg)
      = sumZ (map (fun m => word_count (content m)) (messages agg)) /\
      attachments_sent (stats agg)
      = sumZ (map (fun m => len (attachments m)) (messages agg)) /\
      embeds_sent (stats agg)
      = sumZ (map (fun m => len (embeds m)) (messages agg)) /\
      reactions_received (stats agg)
      = sumZ (map (fun m => reaction_total (reactions m)) (messages agg)) /\
      mentions_made (stats agg)
      = sumZ (map (fun m => len (mentions m)) (messages agg)) /\
      NoDup (channels_used (stats agg)) /\
      (forall c, In c (channels_used (stats agg)) <->
                 exists m, In m (messages agg) /\ channel_id m = c) /\
      unique_channels (stats agg) = len (channels_used (stats agg)).
Proof.
  intros H. destruct (organize_lookup _ H) as (d & Hd & _ & Hl).
  exists d. split; [exact Hd|]. intros uid agg Hagg. rewrite Hl in Hagg.
  assert (Hp : forallb parses (filter (is_author uid) msgs) = true)
    by now apply forallb_filter.
  destruct (filter (is_author uid) msgs) as [|m l] eqn:E; [discriminate|].
  injection Hagg as <-. unfold aggregate_of, finalized_entry.
  cbn [messages stats].
  rewrite (add_message_messages _ _ Hp), (add_message_stats _ _ Hp).
  simpl app.
  pose proof (sort_by_perm _ timestamp_iso (m :: l)) as Hperm.
  assert (Hsum : forall f : message -> Z,
             sumZ (map f (sort_by timestamp_iso (m :: l)))
             = sumZ (map f (m :: l))).
  { intros f. now apply sumZ_perm, Permutation_map. }
  rewrite !Hsum.
  unfold finalized_stats, stats_from.
  cbn [total_characters total_words attachments_sent embeds_sent
       reactions_received mentions_made channels_used unique_channels
       s_total_characters s_total_words s_attachments_sent s_embeds_sent
       s_reactions_received s_mentions_made s_channels_used new_entry
       e_stats].
  repeat split; try (rewrite Z.add_0_l; reflexivity).
  - apply set_add_all_nodup. constructor.
  - intros Hc. apply set_add_all_in in Hc. destruct Hc as [[]|Hc].
    apply in_map_iff in Hc. destruct Hc as (x & Hx & Hin).
    exists x. split; [|exact Hx].
    now apply (Permutation_in _ (Permutation_sym Hperm)).
  - intros (x & Hin & Hx). apply set_add_all_in. right.
    apply in_map_iff. exists x. split; [exact Hx|].
    now apply (Permutation_in _ Hperm).
Qed.

(** *** Stability and the order of arrival *)

Section SortMore.

Variables (A : Type) (key : A -> string).

Lemma insert_by_stable (k : string) (x : A) (l : list A) :
  filter (fun a => String.eqb (key a) k) (insert_by key x l)
  = filter (fun a => String.eqb (key a) k) (x :: l).
Proof.
  induction l as [|y l IH]; [reflexivity|].
  cbn [insert_by]. destruct (String.ltb (key y) (key x)) eqn:E;
    [|reflexivity].
  cbn [filter] in *. rewrite IH.
  destruct (String.eqb (key y) k) eqn:Ey, (String.eqb (key x) k) eqn:Ex;
    try reflexivity.
  apply String.eqb_eq in Ey, Ex. rewrite Ey, Ex, ltb_irrefl in E.
  discriminate.
Qed.

Lemma sort_by_stable (k : string) (l : list A) :
  filter (fun a => String.eqb (key a) k) (sort_by key l)
  = filter (fun a => String.eqb (key a) k) l.
Proof.
  induction l as [|x l IH]; [reflexivity|].
  cbn [sort_by fold_right]. fold (sort_by key l).
  rewrite insert_by_stable. cbn [filter]. now rewrite IH.
Qed.

Lemma sort_by_ascending (l : list A) :
  StronglySorted (fun a b => String.leb (key a) (key b) = true) l ->
  sort_by key l = l.
Proof.
  induction 1 as [|x l Hs IH Hx]; [reflexivity|].
  cbn [sort_by fold_right]. fold (sort_by key l). rewrite IH.
  destruct l as [|y l]; [reflexivity|]. cbn [insert_by].
  inversion Hx as [|? ? Hxy _]; subst.
  destruct (String.ltb (key y) (key x)) eqn:E; [|reflexivity].
  pose proof (ltb_asym _ _ E) as Hlt.
  assert (Heq : key x = key y).
  { apply String.leb_antisym; [exact Hxy|now apply ltb_leb]. }
  rewrite Heq, ltb_irrefl in E. discriminate.
Qed.

Lemma insert_by_last (x : A) (l : list A) :
  Forall (fun y => String.ltb (key y) (key x) = true) l ->
  insert_by key x l = l ++ [x].
Proof.
  induction 1 as [|y l Hy _ IH]; [reflexivity|].
  cbn [insert_by]. now rewrite Hy, IH.
Qed.

Lemma sort_by_descending (l : list A) :
  StronglySorted (fun a b => String.ltb (key b) (key a) = true) l ->
  sort_by key l = rev l.
Proof.
  induction 1 as [|x l Hs IH Hx]; [reflexivity|].
  cbn [sort_by fold_right]. fold (sort_by key l). rewrite IH.
  simpl rev. apply insert_by_last.
  apply Forall_forall. intros y Hy. apply in_rev in Hy.
  rewrite Forall_forall in Hx. now apply Hx.
Qed.

End SortMore.

(** X18. The sort at finalisation is stable: the messages of a user that
    carry the same timestamp text stay in the order in which they
    arrived. *)
Theorem equal_timestamps_keep_arrival_order (msgs : list message) :
  forallb parses msgs = true ->
  exists d,
    organize_messages_by_user msgs = Ret d /\
    forall uid agg ts,
      lookup uid d = Some agg ->
      stamped ts (messages agg) = stamped ts (filter (is_author uid) msgs).
Proof.
  intros H. destruct (organize_lookup _ H) as (d & Hd & _ & Hl).
  exists d. split; [exact Hd|]. intros uid agg ts Hagg. rewrite Hl in Hagg.
  assert (Hp : forallb parses (filter (is_author uid) msgs) = true)
    by now apply forallb_filter.
  destruct (filter (is_author uid) msgs) as [|m l] eqn:E; [discriminate|].
  injection Hagg as <-. unfold aggregate_of, finalized_entry, stamped.
  cbn [messages]. rewrite (add_message_messages _ _ Hp). simpl app.
  apply sort_by_stable.
Qed.



(** ** Saving *)

Lemma keep_chars (f : ascii -> bool) (s : string) :
  Forall (fun c => f c = true) (list_ascii_of_string (keep f s)).
Proof.
  induction s as [|c s IH]; simpl; [constructor|].
  destruct (f c) eqn:E; simpl; [now constructor|exact IH].
Qed.

Lemma keep_idempotent (f : ascii -> bool) (s : string) :
  keep f (keep f s) = keep f s.
Proof.
  induction s as [|c s IH]; simpl; [reflexivity|].
  destruct (f c) eqn:E; simpl; [now rewrite E, IH|exact IH].
Qed.

Lemma keep_all (f : ascii -> bool) (s : string) :
  Forall (fun c => f c = true) (list_ascii_of_string s) -> keep f s = s.
Proof.
  induction s as [|c s IH]; simpl; [reflexivity|].
  intros H. inversion H; subst. rewrite H2. now rewrite IH.
Qed.

(** X20. The name under which a user's file is saved holds only letters,
    digits, dots, underscores and hyphens, hence no path separator; a user
    name made of such characters is kept as it is, and cleaning twice
    changes nothing more. *)
Theorem safe_username_is_safe (username : string) :
  Forall (fun c => safe_char c = true)
         (list_ascii_of_string (safe_username username)) /\
  ~ In "/"%char (list_ascii_of_string (safe_username username)) /\
  ~ In "\"%char (list_ascii_of_string (safe_username username)) /\
  safe_username (safe_username username) = safe_username username /\
  (Forall (fun c => safe_char c = true) (list_ascii_of_string username) ->
   safe_username username = username).
Proof.
  pose proof (keep_chars safe_char username) as H.
  split; [exact H|]. rewrite Forall_forall in H.
  split; [intros Hin; apply H in Hin; discriminate|].
  split; [intros Hin; apply H in Hin; discriminate|].
  split; [apply keep_idempotent|apply keep_all].
Qed.

Section SortDesc.

Variables (A : Type) (key : A -> Z).

Lemma insert_desc_perm (x : A) (l : list A) :
  Permutation (insert_desc key x l) (x :: l).
Proof.
  induction l as [|y l IH]; simpl; [reflexivity|].
  destruct (key x <? key y)%Z; [|reflexivity].
  rewrite IH. apply perm_swap.
Qed.

Lemma sort_desc_perm (l : list A) : Permutation (sort_desc key l) l.
Proof.
  induction l as [|x l IH]; simpl; [reflexivity|].
  rewrite insert_desc_perm. now apply perm_skip.
Qed.

Lemma insert_desc_sorted (x : A) (l : list A) :
  StronglySorted (fun a b => (key b <= key a)%Z) l ->
  StronglySorted (fun a b => (key b <= key a)%Z) (insert_desc key x l).
Proof.
  induction 1 as [|y l Hs IH Hy]; simpl.
  - constructor; constructor.
  - destruct (key x <? key y)%Z eqn:E.
    + constructor; [exact IH|].
      apply Forall_forall. intros z Hz.
      apply (Permutation_in _ (insert_desc_perm x l)) in Hz.
      destruct Hz as [<-|Hz]; [lia|].
      rewrite Forall_forall in Hy. now apply Hy.
    + constructor; [now constructor|].
      constructor; [lia|].
      apply Forall_forall. intros z Hz.
      rewrite Forall_forall in Hy. specialize (Hy z Hz). lia.
Qed.

Lemma sort_desc_sorted (l : list A) :
  StronglySorted (fun a b => (key b <= key a)%Z) (sort_desc key l).
Proof.
  induction l as [|x l IH]; simpl; [constructor|].
  now apply insert_desc_sorted.
Qed.

Lemma insert_desc_stable (k : Z) (x : A) (l : list A) :
  filter (fun a => (key a =? k)%Z) (insert_desc key x l)
  = filter (fun a => (key a =? k)%Z) (x :: l).
Proof.
  induction l as [|y l IH]; [reflexivity|].
  cbn [insert_desc]. destruct (key x <? key y)%Z eqn:E; [|reflexivity].
  cbn [filter] in *. rewrite IH.
  destruct (key y =? k)%Z eqn:Ey, (key x =? k)%Z eqn:Ex; try reflexivity.
  lia.
Qed.

Lemma sort_desc_stable (k : Z) (l : list A) :
  filter (fun a => (key a =? k)%Z) (sort_desc key l)
  = filter (fun a => (key a =? k)%Z) l.
Proof.
  induction l as [|x l IH]; [reflexivity|].
  cbn [sort_desc fold_right]. fold (sort_desc key l).
  rewrite insert_desc_stable. cbn [filter]. now rewrite IH.
Qed.

End SortDesc.

Lemma store_user_info (k : string) (e : entry) (d : dict entry) :
  e_user_info e <> None ->
  Forall (fun ke => e_user_info (snd ke) <> None) d ->
  Forall (fun ke => e_user_info (snd ke) <> None) (store k e d).
Proof.
  intros He. induction 1 as [|[k' e'] d Hk Hd IH]; simpl.
  - constructor; [exact He|constructor].
  - destruct (String.eqb k k'); constructor; assumption.
Qed.

Lemma fold_user_info (msgs : list message) :
  forall ud,
    Forall (fun ke => e_user_info (snd ke) <> None) ud ->
    Forall (fun ke => e_user_info (snd ke) <> None)
           (fold_left fold_message msgs ud).
Proof.
  induction msgs as [|m msgs IH]; simpl; intros ud H; [exact H|].
  apply IH. unfold fold_message.
  destruct (message_time m) as [t|]; [|exact H].
  apply store_user_info; [|exact H]. simpl.
  destruct (e_user_info (get (lookup (id (author m)) ud) new_entry));
    discriminate.
Qed.

Lemma all_rows_finalized (ud : dict entry) :
  Forall (fun ke => e_user_info (snd ke) <> None) ud ->
  exists rows,
    all_rows (map finalized ud) = Some rows /\
    map row_user_id rows = keys ud /\
    map row_total_messages rows
    = map (fun ke => s_total_messages (e_stats (snd ke))) ud.
Proof.
  induction 1 as [|[k e] ud Hk Hd (rows & IH & Hids & Htot)]; simpl.
  - now exists [].
  - rewrite IH. unfold csv_row_of. simpl in *.
    destruct (e_user_info e) as [ui|]; [|congruence].
    eexists. split; [reflexivity|]. simpl. unfold keys in *.
    now rewrite Hids, Htot.
Qed.

(** X21. The summary has one row for each user of the aggregation, in
    descending order of [total_messages], users with as many messages as
    each other staying in the order of the aggregation; on what
    [organize_messages_by_user] returns, building it never fails. *)
Theorem csv_lists_most_active_first (msgs : list message) :
  forallb parses msgs = true ->
  exists d rows,
    organize_messages_by_user msgs = Ret d /\
    csv_data d = Some rows /\
    Permutation (map row_user_id rows) (keys d) /\
    StronglySorted
      (fun a b => (row_total_messages b <= row_total_messages a)%Z) rows /\
    (forall n unsorted,
        all_rows d = Some unsorted ->
        filter (fun r => (row_total_messages r =? n)%Z) rows
        = filter (fun r => (row_total_messages r =? n)%Z) unsorted).
Proof.
  intros H.
  destruct (all_rows_finalized (fold_left fold_message msgs []))
    as (rows0 & Hrows & Hids & _).
  { apply fold_user_info. constructor. }
  exists (map finalized (fold_left fold_message msgs [])),
    (sort_desc row_total_messages rows0).
  split; [now apply organize_ret|].
  unfold csv_data. rewrite Hrows. split; [reflexivity|]. split.
  - unfold keys at 1. rewrite map_map. simpl.
    change (map (fun x : string * entry => fst x)
                (fold_left fold_message msgs []))
      with (keys (fold_left fold_message msgs [])).
    rewrite <- Hids. apply Permutation_map, sort_desc_perm.
  - split; [apply sort_desc_sorted|].
    intros n unsorted Hu. inversion Hu; subst. apply sort_desc_stable.
Qed.


(** ** Crawling several channels *)

Lemma crawl_channels_same (tc : dict channel_entry) (mx : option Z)
      (cid : string) (ids : list string) (rs rs' : list response)
      (answers : list (list response)) (acc : list message) :
  (forall cname,
      option_map returned
                 (extract_messages_with_content cid cname 100 None mx rs)
      = option_map returned
                   (extract_messages_with_content cid cname 100 None mx rs'))
  ->
  crawl_channels tc mx (cid :: ids) (rs :: answers) acc
  = crawl_channels tc mx (cid :: ids) (rs' :: answers) acc.
Proof.
  intros H. cbn [crawl_channels].
  specialize (H match lookup cid tc with
                | Some info => ce_name info
                | None => "Unknown"
                end).
  destruct (extract_messages_with_content cid _ 100 None mx rs) as [r|];
    destruct (extract_messages_with_content cid _ 100 None mx rs')
    as [r'|]; simpl in H; try discriminate; [|reflexivity].
  injection H as ->. reflexivity.
Qed.

(** X22. An HTTP error in one channel does not stop the crawl of the
    server: the channel counts for what was read before the error, and the
    channels after it are crawled as if that channel had simply ended
    there. *)
Theorem channel_error_does_not_stop_the_crawl
        (tc : dict channel_entry) (mx : option Z)
        (ids1 : list string) (cid : string) (ids2 : list string)
        (answers1 : list (list response)) (pre post : list response)
        (code : Z) (text : string) (answers2 : list (list response))
        (acc : list message) :
  List.length ids1 = List.length answers1 ->
  crawl_channels tc mx (ids1 ++ cid :: ids2)
                 (answers1 ++ (pre ++ HttpError code text :: post)
                           :: answers2) acc
  = crawl_channels tc mx (ids1 ++ cid :: ids2)
                   (answers1 ++ (pre ++ [Ok200 []]) :: answers2) acc.
Proof.
  revert answers1 acc.
  induction ids1 as [|i ids1 IH]; intros [|rs answers1] acc Hlen;
    try discriminate.
  - simpl app. apply crawl_channels_same. intros cname.
    destruct (loop_http_error cid cname 100 mx code text
                pre post [] None 0%Z true) as (r & Hr & _ & Hsame).
    unfold extract_messages_with_content. now rewrite Hr, Hsame.
  - simpl app. cbn [crawl_channels].
    destruct (extract_messages_with_content i _ 100 None mx rs) as [r|];
      [|reflexivity].
    destruct (returned r); [|reflexivity].
    apply IH. simpl in Hlen. lia.
Qed.


Lemma crawl_messages_channel (cid cname : string) (limit : Z)
      (before : option string) (mx : option Z) (rs : list response)
      (r : run) (out : list message) :
  extract_messages_with_content cid cname limit before mx rs = Some r ->
  returned r = Ret out ->
  Forall (fun m => channel_id m = cid /\ channel_name m = cname) out /\
  forallb parses out = true.
Proof.
  intros Hr Hout.
  destruct (loop_returned _ _ _ _ _ _ _ _ _ _ _ Hr Hout)
    as (c & ms & _ & Hms & ->).
  simpl. apply mapM_Forall2 in Hms. split.
  - clear - Hms. induction Hms as [|raw m l l' Hm _ IH]; constructor;
      [|exact IH].
    destruct (extract_message_inv _ _ _ _ Hm)
      as (ts & d & a & i & u & ats & res & mes & i' & _ & _ & _ & _ & _
          & _ & _ & _ & _ & _ & Hc & Hn & _).
    now split.
  - now apply (normalised_parse cid cname (records c)).
Qed.

Lemma forallb_app_true {A : Type} (f : A -> bool) (l1 l2 : list A) :
  forallb f l1 = true -> forallb f l2 = true ->
  forallb f (l1 ++ l2) = true.
Proof. intros H1 H2. now rewrite forallb_app, H1, H2. Qed.

Lemma crawl_channels_groups (tc : dict channel_entry) (mx : option Z)
      (ids : list string) :
  forall answers acc all,
    crawl_channels tc mx ids answers acc = Some (Ret all) ->
    exists per_channel,
      all = acc ++ List.concat per_channel /\
      Forall2 (fun cid ms =>
                 Forall (fun m => channel_id m = cid /\
                                  channel_name m = channel_name_of tc cid)
                        ms)
              ids per_channel /\
      (forallb parses acc = true -> forallb parses all = true).
Proof.
  induction ids as [|cid ids IH]; intros answers acc all H.
  - simpl in H. inversion H; subst. exists []. simpl.
    rewrite app_nil_r. repeat split; [constructor|auto].
  - cbn [crawl_channels] in H. destruct answers as [|rs answers];
      [discriminate|].
    fold (channel_name_of tc cid) in H.
    destruct (extract_messages_with_content cid (channel_name_of tc cid)
                100 None mx rs) as [r|] eqn:E; [|discriminate].
    destruct (returned r) as [ms|e] eqn:Er; [|discriminate].
    destruct (IH _ _ _ H) as (pc & -> & Hpc & Hp).
    destruct (crawl_messages_channel _ _ _ _ _ _ _ _ E Er) as [Hch Hpa].
    exists (ms :: pc). simpl. rewrite app_assoc. split; [reflexivity|].
    split; [now constructor|].
    intros Hacc. apply Hp. now apply forallb_app_true.
Qed.

(** X23. The messages of a crawl come grouped by channel, in the order of
    the channel ids, and each carries the id of its channel and the name
    under which the channel was crawled: the name listed for it among the
    text channels, or "Unknown". *)
Theorem crawl_groups_messages_by_channel
        (tc : dict channel_entry) (mx : option Z) (ids : list string)
        (answers : list (list response)) (all : list message) :
  crawl_channels tc mx ids answers [] = Some (Ret all) ->
  exists per_channel,
    all = List.concat per_channel /\
    Forall2 (fun cid ms =>
               Forall (fun m => channel_id m = cid /\
                                channel_name m = channel_name_of tc cid) ms)
            ids per_channel.
Proof.
  intros H. destruct (crawl_channels_groups _ _ _ _ _ _ H)
    as (pc & Hall & Hpc & _).
  exists pc. now split.
Qed.

Lemma grouped_channel_ids (tc : dict channel_entry) (ids : list string)
      (per_channel : list (list message)) :
  Forall2 (fun cid ms =>
             Forall (fun m => channel_id m = cid /\
                              channel_name m = channel_name_of tc cid)
                    ms)
          ids per_channel ->
  forall m, In m (List.concat per_channel) -> In (channel_id m) ids.
Proof.
  induction 1 as [|cid ms ids pc Hms _ IH]; simpl; intros m Hm;
    [contradiction|].
  apply in_app_or in Hm. destruct Hm as [Hm|Hm].
  - left. rewrite Forall_forall in Hms. symmetry. now apply Hms.
  - right. now apply IH.
Qed.

(** X24. What [extract_server_content] hands to [save_user_data] accounts
    for the messages crawled, which are then at least one: it is their
    aggregation, the users' totals add up to their number, the users are
    their authors, and every message saved under a user is a crawled
    message of that author, from one of the channels crawled. *)
Theorem server_content_accounts_for_every_message
        (server : http unit) (channel_list : http (list raw_channel))
        (channel_ids : option (list string)) (mx : option Z)
        (answers : list (list response)) (d : dict user_aggregate) :
  extract_server_content server channel_list channel_ids mx answers
  = Some (Saved d) ->
  exists tc ids all,
    crawl_channels tc mx ids answers [] = Some (Ret all) /\
    all <> [] /\
    organize_messages_by_user all = Ret d /\
    total_over_users d = len all /\
    (forall uid, In uid (keys d) <->
                 exists m, In m all /\ id (author m) = uid) /\
    (forall uid agg m,
        lookup uid d = Some agg -> In m (messages agg) ->
        In m all /\ id (author m) = uid /\ In (channel_id m) ids).
Proof.
  unfold extract_server_content. intros H.
  destruct (enumerate_channels server channel_list) as [ac|e];
    [|discriminate].
  destruct (select_channels channel_ids ac) as [o|[tc ids]] eqn:Hs.
  { injection H as ->.
    unfold select_channels in Hs.
    destruct channel_ids as [ids0|], ac as [[|kv info]|];
      try discriminate Hs.
    - destruct ids0; discriminate Hs.
    - destruct ids0; discriminate Hs.
    - cbv zeta in Hs.
      destruct (keys (filter (fun kv0 => is_text (snd kv0)) (kv :: info)));
        discriminate Hs. }
  destruct (crawl_channels tc mx ids answers []) as [[all|e]|] eqn:Hc;
    [|discriminate|discriminate].
  exists tc, ids, all. split; [exact Hc|].
  destruct (crawl_channels_groups _ _ _ _ _ _ Hc) as (pc & Hall & Hpc & Hp).
  specialize (Hp eq_refl). simpl in Hall.
  destruct (organize_lookup _ Hp) as (d0 & Hd & Hk & Hl).
  assert (Hne : all <> []).
  { intros ->. discriminate H. }
  assert (Ed : d0 = d).
  { destruct all as [|m all]; [congruence|].
    rewrite Hd in H. congruence. }
  subst d0. split; [exact Hne|]. split; [exact Hd|]. split.
  { pose proof Hd as Hd'. rewrite (organize_ret _ Hp) in Hd'.
    injection Hd' as <-.
    rewrite total_over_users_finalized, (total_in_fold_messages _ _ Hp).
    unfold total_in_fold. simpl. lia. }
  split.
  { intros uid. rewrite lookup_in_keys, Hl.
    pose proof (filter_nonempty (is_author uid) all) as Hf.
    unfold is_author in Hf at 2. split.
    - intros Hs'. destruct Hf as [Hf _].
      destruct Hf as (x & Hx & Hu).
      + destruct (filter (is_author uid) all); congruence.
      + exists x. split; [exact Hx|now apply String.eqb_eq].
    - intros (x & Hx & Hu). destruct Hf as [_ Hf].
      destruct (filter (is_author uid) all); [|discriminate].
      exfalso. apply Hf; [|reflexivity].
      exists x. split; [exact Hx|now apply String.eqb_eq]. }
  intros uid agg m Hagg Hm. rewrite Hl in Hagg.
  assert (Hq : forallb parses (filter (is_author uid) all) = true)
    by now apply forallb_filter.
  destruct (filter (is_author uid) all) as [|x l] eqn:E; [discriminate|].
  injection Hagg as <-.
  unfold aggregate_of, finalized_entry in Hm. cbn [messages] in Hm.
  rewrite (add_message_messages (x :: l) _ Hq) in Hm. simpl app in Hm.
  apply (Permutation_in _ (sort_by_perm _ timestamp_iso (x :: l))) in Hm.
  rewrite <- E in Hm. apply filter_In in Hm. destruct Hm as [Hin Hau].
  split; [exact Hin|]. split; [now apply String.eqb_eq|].
  apply (grouped_channel_ids tc ids pc Hpc). now rewrite <- Hall.
Qed.

(** X25. When the server or its channel list cannot be fetched (the
    request raises or the status is not 200), a call without channel ids
    returns [None], but a call with channel ids raises [AttributeError]:
    it reads the items of the channel list that it did not get. *)
Theorem unfetched_channel_list (server : http unit)
        (channel_list : http (list raw_channel)) (mx : option Z)
        (answers : list (list response)) :
  server = None \/
  (exists st b, server = Some (st, b) /\ st <> 200%Z) \/
  channel_list = None \/
  (exists st b, channel_list = Some (st, b) /\ st <> 200%Z) ->
  extract_server_content server channel_list None mx answers
  = Some Nothing /\
  forall ids,
    extract_server_content server channel_list (Some ids) mx answers
    = Some AttributeError.
Proof.
  intros H.
  assert (He : enumerate_channels server channel_list = Ret None).
  { unfold enumerate_channels.
    destruct server as [[st b]|]; [|reflexivity].
    destruct (st =? 200)%Z eqn:E; [|reflexivity].
    destruct channel_list as [[st' b']|]; [|reflexivity].
    destruct (st' =? 200)%Z eqn:E'; [|reflexivity].
    exfalso. destruct H as [H|[(s1 & b1 & H & Hn)|[H|(s1 & b1 & H & Hn)]]];
      try discriminate; inversion H; subst; lia. }
  unfold extract_server_content. rewrite He. split; reflexivity.
Qed.


(** ** The channels of a server *)

Lemma add_category_complete (cats : dict string) (c : raw_channel) :
  channel_complete c = true ->
  add_category cats c = Ret (with_category cats c).
Proof.
  unfold add_category, with_category, is_category, channel_complete.
  destruct (ch_id c), (ch_name c), (ch_type c) as [t|];
    try discriminate. simpl. intros _. now destruct (t =? 4)%Z.
Qed.

Lemma add_channel_complete (cats : dict string) (info : dict channel_entry)
      (c : raw_channel) :
  channel_complete c = true ->
  add_channel cats info c = Ret (with_channel cats info c).
Proof.
  unfold add_channel, with_channel, channel_complete.
  destruct (ch_id c), (ch_name c), (ch_type c) as [t|];
    try discriminate. simpl. intros _.
  destruct (t =? 4)%Z; [reflexivity|].
  now destruct ((t =? 0)%Z || (t =? 5)%Z).
Qed.

Lemma foldM_add_category (channels : list raw_channel) :
  forall cats,
    forallb channel_complete channels = true ->
    foldM add_category channels cats
    = Ret (fold_left with_category channels cats).
Proof.
  induction channels as [|c l IH]; simpl; intros cats H; [reflexivity|].
  apply andb_prop in H. destruct H as [Hc H].
  rewrite (add_category_complete _ _ Hc). simpl. now apply IH.
Qed.

Lemma foldM_add_channel (cats : dict string) (channels : list raw_channel) :
  forall info,
    forallb channel_complete channels = true ->
    foldM (add_channel cats) channels info
    = Ret (fold_left (with_channel cats) channels info).
Proof.
  induction channels as [|c l IH]; simpl; intros info H; [reflexivity|].
  apply andb_prop in H. destruct H as [Hc H].
  rewrite (add_channel_complete _ _ _ Hc). simpl. now apply IH.
Qed.

Lemma find_none_id (i : string) (f : raw_channel -> bool)
      (l : list raw_channel) :
  ~ In (Some i) (map ch_id l) ->
  find (fun c => f c && has_id i c) l = None.
Proof.
  induction l as [|c l IH]; simpl; intros H; [reflexivity|].
  assert (Hl : ~ In (Some i) (map ch_id l))
    by (intros Hin; apply H; now right).
  unfold has_id at 1. destruct (ch_id c) as [i'|] eqn:E.
  - destruct (String.eqb i' i) eqn:Ei.
    + apply String.eqb_eq in Ei. subst. exfalso. apply H. now left.
    + rewrite andb_false_r. now apply IH.
  - rewrite andb_false_r. now apply IH.
Qed.

Lemma lookup_categories (p : string) (channels : list raw_channel) :
  NoDup (map ch_id channels) ->
  forall cats,
    lookup p (fold_left with_category channels cats)
    = match find (fun c => is_category c && has_id p c) channels with
      | Some c => match ch_name c with
                  | Some n => Some n
                  | None => lookup p cats
                  end
      | None => lookup p cats
      end.
Proof.
  induction channels as [|c l IH]; simpl; intros Hnd cats; [reflexivity|].
  inversion Hnd as [|? ? Hnotin Hnd']; subst. rewrite (IH Hnd').
  unfold with_category, has_id at 2.
  destruct (ch_id c) as [i|] eqn:Ei.
  2:{ rewrite andb_false_r. reflexivity. }
  destruct (String.eqb i p) eqn:Eip.
  - apply String.eqb_eq in Eip. subst i.
    rewrite (find_none_id p is_category l Hnotin).
    destruct (is_category c); simpl; [|now destruct (ch_name c)].
    destruct (ch_name c) as [n|]; [|reflexivity].
    apply lookup_store_same.
  - rewrite andb_false_r.
    assert (Hother : forall n, lookup p (store i n cats) = lookup p cats).
    { intros n. apply lookup_store_other. intros ->.
      now rewrite String.eqb_refl in Eip. }
    destruct (ch_name c) as [n|]; [|reflexivity].
    destruct (is_category c); [|reflexivity].
    now rewrite Hother.
Qed.

Lemma lookup_channels (cats : dict string) (i : string)
      (channels : list raw_channel) :
  forallb channel_complete channels = true ->
  NoDup (map ch_id channels) ->
  forall info,
    lookup i (fold_left (with_channel cats) channels info)
    = match find (fun c => negb (is_category c) && has_id i c)
                 channels with
      | Some c =>
          Some {| ce_name := get (ch_name c) "";
                  ce_type := type_label (get (ch_type c) 0%Z);
                  ce_category := category_of cats c |}
      | None => lookup i info
      end.
Proof.
  induction channels as [|c l IH]; intros Hc Hnd info; [reflexivity|].
  cbn [forallb map] in Hc, Hnd.
  apply andb_prop in Hc. destruct Hc as [Hc Hl].
  inversion Hnd as [|? ? Hnotin Hnd']; subst.
  cbn [fold_left find]. rewrite (IH Hl Hnd').
  unfold channel_complete in Hc.
  destruct (ch_id c) as [j|] eqn:Ej; [|discriminate].
  destruct (ch_name c) as [n|] eqn:En; [|discriminate].
  destruct (ch_type c) as [t|] eqn:Et; [|discriminate].
  assert (Hcat : is_category c = (t =? 4)%Z)
    by (unfold is_category; now rewrite Et).
  assert (Hid : has_id i c = String.eqb j i)
    by (unfold has_id; now rewrite Ej).
  assert (Hw : with_channel cats info c
               = if (t =? 4)%Z then info
                 else store j {| ce_name := n; ce_type := type_label t;
                                 ce_category := category_of cats c |}
                            info)
    by (unfold with_channel; now rewrite Ej, En, Et).
  rewrite Hcat, Hid, Hw.
  destruct (String.eqb j i) eqn:Eji.
  - apply String.eqb_eq in Eji. subst j.
    rewrite (find_none_id i (fun c => negb (is_category c)) l Hnotin).
    destruct (t =? 4)%Z; simpl; [reflexivity|].
    rewrite En, Et. apply lookup_store_same.
  - rewrite andb_false_r.
    destruct (t =? 4)%Z; [reflexivity|].
    destruct (find (fun c0 => negb (is_category c0) && has_id i c0) l);
      [reflexivity|].
    apply lookup_store_other. intros ->.
    now rewrite String.eqb_refl in Eji.
Qed.

Lemma find_unique_id (f : raw_channel -> bool) (i : string)
      (c : raw_channel) (l : list raw_channel) :
  NoDup (map ch_id l) ->
  In c l -> ch_id c = Some i -> f c = true ->
  find (fun c' => f c' && has_id i c') l = Some c.
Proof.
  induction l as [|y l IH]; simpl; intros Hnd Hin Hid Hf; [contradiction|].
  inversion Hnd as [|? ? Hnotin Hnd']; subst.
  destruct Hin as [->|Hin].
  - unfold has_id. now rewrite Hf, Hid, String.eqb_refl.
  - unfold has_id at 1. destruct (ch_id y) as [j|] eqn:Ej.
    + destruct (String.eqb j i) eqn:Eji.
      * apply String.eqb_eq in Eji. subst j. exfalso. apply Hnotin.
        rewrite <- Hid. now apply in_map.
      * rewrite andb_false_r. now apply IH.
    + rewrite andb_false_r. now apply IH.
Qed.

(** X26. For a channel list whose records have their [id], [name] and
    [type], the ids being distinct, the channel information has an entry
    exactly for the channels that are not categories; the entry of a
    channel holds its name, the label of its type, and as category the name
    of the category channel that its [parent_id] names, wherever that
    category stands in the list, or "Uncategorized" when there is none or
    the [parent_id] is [null]. *)
Theorem channel_info_describes_the_channels
        (channels : list raw_channel) :
  forallb channel_complete channels = true ->
  NoDup (map ch_id channels) ->
  exists info,
    build_channel_info channels = Ret info /\
    (forall i,
        lookup i info <> None <->
        exists c, In c channels /\ ch_id c = Some i /\
                  is_category c = false) /\
    (forall c i n t,
        In c channels -> ch_id c = Some i -> ch_name c = Some n ->
        ch_type c = Some t -> t <> 4%Z ->
        exists category,
          lookup i info
          = Some {| ce_name := n; ce_type := type_label t;
                    ce_category := category |} /\
          (forall parent p pn,
              In parent channels -> is_category parent = true ->
              parent_key c = Some p -> ch_id parent = Some p ->
              ch_name parent = Some pn -> category = pn) /\
          ((forall parent p,
               In parent channels -> is_category parent = true ->
               parent_key c = Some p -> ch_id parent <> Some p) ->
           category = "Uncategorized")).
Proof.
  intros Hc Hnd.
  exists (fold_left (with_channel (fold_left with_category channels []))
                    channels []).
  split.
  { unfold build_channel_info.
    rewrite (foldM_add_category _ _ Hc). simpl.
    now apply foldM_add_channel. }
  split.
  - intros i. rewrite (lookup_channels _ i _ Hc Hnd). split.
    + destruct (find (fun c => negb (is_category c) && has_id i c) channels)
        as [c|] eqn:E; [|simpl; congruence].
      intros _. apply find_some in E. destruct E as [Hin E].
      apply andb_prop in E. destruct E as [Ecat Eid].
      exists c. split; [exact Hin|]. unfold has_id in Eid.
      destruct (ch_id c) as [j|]; [|discriminate].
      apply String.eqb_eq in Eid. subst j.
      split; [reflexivity|]. now destruct (is_category c).
    + intros (c & Hin & Hid & Hcat).
      rewrite (find_unique_id (fun c => negb (is_category c)) i c channels
                              Hnd Hin Hid); [discriminate|].
      now rewrite Hcat.
  - intros c i n t Hin Hid Hn Ht Hne.
    assert (Hcat : is_category c = false).
    { unfold is_category. rewrite Ht. lia. }
    exists (category_of (fold_left with_category channels []) c).
    rewrite (lookup_channels _ i _ Hc Hnd),
      (find_unique_id (fun c => negb (is_category c)) i c channels
                      Hnd Hin Hid) by now rewrite Hcat.
    rewrite Hn, Ht. split; [reflexivity|].
    unfold category_of. destruct (parent_key c) as [p|] eqn:Ep.
    2:{ split; [intros parent p pn _ _ Hk; discriminate Hk|reflexivity]. }
    rewrite (lookup_categories _ _ Hnd). split.
    + intros parent p' pn Hpin Hpcat Hk Hpid Hpn.
      injection Hk as Hk. subst p'.
      now rewrite (find_unique_id is_category _ parent channels
                                  Hnd Hpin Hpid Hpcat), Hpn.
    + intros Hnone.
      destruct (find (fun c0 => is_category c0 && has_id p c0) channels)
        as [parent|] eqn:E; [|reflexivity].
      exfalso. apply find_some in E. destruct E as [Hpin E].
      apply andb_prop in E. destruct E as [Epcat Epid].
      apply (Hnone parent p Hpin Epcat eq_refl). unfold has_id in Epid.
      destruct (ch_id parent) as [j|]; [|discriminate].
      apply String.eqb_eq in Epid. now subst.
Qed.


(** ** Channel mentions *)

Lemma all_digits_snoc (ds : string) (c : ascii) :
  all_digits ds = true -> is_digit c = true ->
  all_digits (ds ++ String c "") = true.
Proof.
  induction ds as [|d ds IH]; simpl; intros H Hc; [now rewrite Hc|].
  apply andb_prop in H. destruct H as [-> H]. now apply IH.
Qed.

Lemma find_channel_mentions_digits (s : string) :
  forall st,
    match st with
    | Some (Some ds) => all_digits ds = true
    | _ => True
    end ->
    Forall (fun m => m <> "" /\ all_digits m = true)
           (find_channel_mentions st s).
Proof.
  induction s as [|c s IH]; intros st Hst; simpl; [constructor|].
  destruct (Ascii.eqb c "<"); [now apply IH|].
  destruct st as [[ds|]|].
  - destruct (is_digit c) eqn:Ed.
    + apply IH. now apply all_digits_snoc.
    + destruct (Ascii.eqb c ">" && Py.nonempty ds) eqn:E.
      * constructor; [|now apply IH].
        apply andb_prop in E. destruct E as [_ E].
        split; [|exact Hst]. intros ->. discriminate.
      * now apply IH.
  - destruct (Ascii.eqb c "#"); now apply IH.
  - now apply IH.
Qed.

(** X28. The channel mentions of a message are non-empty runs of decimal
    digits, and a message without content has none. *)
Theorem channel_mentions_are_ids (cid cname : string) (msg : raw_message)
        (m : message) :
  extract_message cid cname msg = Ret m ->
  Forall (fun c => c <> "" /\ all_digits c = true) (channel_mentions m) /\
  (content m = "" -> channel_mentions m = []).
Proof.
  unfold extract_message, parse_timestamp, extract_author.
  destruct (r_timestamp msg) as [ts|]; simpl; [|discriminate].
  destruct (fromisoformat (Py.replace_Z ts)) as [d|]; simpl; [|discriminate].
  destruct (r_author msg) as [a|]; simpl; [|discriminate].
  destruct (ra_id a) as [i|]; simpl; [|discriminate].
  destruct (ra_username a) as [u|]; simpl; [|discriminate].
  destruct (mapM extract_attachment (get (r_attachments msg) []))
    as [ats|]; simpl; [|discriminate].
  destruct (mapM extract_reaction (get (r_reactions msg) []))
    as [res|]; simpl; [|discriminate].
  destruct (mapM extract_mention (get (r_mentions msg) []))
    as [mes|]; simpl; [|discriminate].
  destruct (r_id msg) as [i'|]; simpl; [|discriminate].
  intros H. inversion H; subst; clear H. simpl. split.
  - destruct (r_content msg) as [c|]; [|constructor].
    destruct (Py.nonempty c); [|constructor].
    now apply find_channel_mentions_digits.
  - destruct (r_content msg) as [c|]; [|reflexivity].
    simpl. now intros ->.
Qed.


End Extractor.

(** * Concrete runs on UTC timestamps *)

Import Sample.

Local Abbreviation crawl_utc :=
  (extract_messages_with_content Utc.datetime Utc.fromisoformat Utc.strftime).
Local Abbreviation normalize_utc :=
  (extract_message Utc.datetime Utc.fromisoformat Utc.strftime).
Local Abbreviation organize_utc :=
  (organize_messages_by_user Utc.datetime Utc.fromisoformat Utc.isoformat
                             Utc.ltb).
Local Abbreviation parses_utc := (parses Utc.datetime Utc.fromisoformat).
Local Abbreviation organize_iso :=
  (organize_messages_by_user Iso.datetime Iso.fromisoformat Iso.isoformat
                             Iso.ltb).
Local Abbreviation parses_iso := (parses Iso.datetime Iso.fromisoformat).
Local Abbreviation times_iso := (times Iso.datetime Iso.fromisoformat).
Local Abbreviation precedes_iso :=
  (precedes Iso.datetime Iso.fromisoformat Iso.ltb).
Local Abbreviation oldest_first_iso :=
  (oldest_first Iso.datetime Iso.fromisoformat Iso.ltb).

(** Case analysis on the members of a list that is given. *)
Ltac members :=
  repeat match goal with
         | H : In _ _ |- _ => vm_compute in H
         | H : _ \/ _ |- _ => destruct H as [H|H]
         | H : False |- _ => destruct H
         | H : _ = ?x |- _ => is_var x; subst x
         end.

(** A page of two, a rate limit, then a short page: the call stops there
    and hands back three messages. *)
Lemma pagination_terminates_witness :
  ([raw1] = [] \/ (len [raw1] < 2)%Z) /\
  exists r consumed,
    crawl_utc "c1" "general" 2%Z None None
              ([Ok200 [raw3; raw2]; RateLimited None] ++ [Ok200 [raw1]])
    = Some r /\
    [Ok200 [raw3; raw2]; RateLimited None] ++ [Ok200 [raw1]]
    = consumed ++ unread r /\
    (forall out, returned r = Ret out ->
                 len out = sumZ (map page_size consumed)) /\
    ((forall batch, In (Ok200 batch) consumed ->
                    ~ raises (mapM (normalize_utc "c1" "general") batch))
     -> exists out, returned r = Ret out).
Proof.
  split.
  - right. reflexivity.
  - apply (pagination_terminates Utc.datetime Utc.fromisoformat Utc.strftime
             "c1" "general" 2%Z None None
             [Ok200 [raw3; raw2]; RateLimited None] [raw1]).
    right. reflexivity.
Defined.

(** C2 as stated fails: a page with a record that has no timestamp makes
    the call raise [KeyError], and the record before it is lost as well. *)
Lemma missing_timestamp_aborts_crawl :
  ~ crawl_survives Utc.datetime Utc.fromisoformat Utc.strftime
      "c1" "general" 100%Z None None
      [Ok200 [raw3; raw_untimed]; Ok200 [raw1]].
Proof.
  intros H.
  assert (E : crawl_utc "c1" "general" 100%Z None None
                        [Ok200 [raw3; raw_untimed]; Ok200 [raw1]]
              = Some {| returned := Raise (KeyError "timestamp");
                        trace := [Request {| p_limit := 100;
                                             p_before := None |}];
                        unread := [Ok200 [raw1]] |})
    by (vm_compute; reflexivity).
  destruct (H _ E) as [out Hout]. discriminate Hout.
Qed.

Lemma bad_timestamp_raises_witness :
  exists r,
    crawl_utc "c1" "general" 100%Z None None
              [Ok200 [raw3; raw_untimed]; Ok200 [raw1]] = Some r /\
    [Ok200 [raw3; raw_untimed]; Ok200 [raw1]]
    = [Ok200 [raw3; raw_untimed]] ++ unread r /\
    has_timestamp Utc.datetime Utc.fromisoformat raw_untimed = false /\
    raises (returned r).
Proof.
  exists {| returned := Raise (KeyError "timestamp");
            trace := [Request {| p_limit := 100; p_before := None |}];
            unread := [Ok200 [raw1]] |}.
  assert (E : crawl_utc "c1" "general" 100%Z None None
                        [Ok200 [raw3; raw_untimed]; Ok200 [raw1]]
              = Some {| returned := Raise (KeyError "timestamp");
                        trace := [Request {| p_limit := 100;
                                             p_before := None |}];
                        unread := [Ok200 [raw1]] |})
    by (vm_compute; reflexivity).
  split; [exact E|]. split; [reflexivity|]. split; [reflexivity|].
  apply (bad_timestamp_raises Utc.datetime Utc.fromisoformat Utc.strftime
           "c1" "general" 100%Z None None
           [Ok200 [raw3; raw_untimed]; Ok200 [raw1]] _
           [Ok200 [raw3; raw_untimed]] [raw3; raw_untimed] raw_untimed E).
  - reflexivity.
  - now left.
  - right. now left.
  - reflexivity.
Defined.

Lemma rate_limit_is_transparent_witness :
  exists r,
    crawl_utc "c1" "general" 2%Z None None
              ([Ok200 [raw3; raw2]] ++ RateLimited None :: [Ok200 [raw1]])
    = Some r /\
    (List.length (unread r) <= List.length [Ok200 [raw1]])%nat /\
    exists tr1 p tr2,
      trace r = tr1 ++ [Request p; Sleep (get None 5 + (1 # 2))%Q; Request p]
                    ++ tr2 /\
      List.length (requests tr1) = List.length [Ok200 [raw3; raw2]].
Proof.
  destruct (crawl_utc "c1" "general" 2%Z None None
              ([Ok200 [raw3; raw2]] ++ RateLimited None :: [Ok200 [raw1]]))
    as [r|] eqn:E; [|vm_compute in E; discriminate E].
  exists r. split; [reflexivity|].
  assert (Hu : (List.length (unread r) <= List.length [Ok200 [raw1]])%nat).
  { vm_compute in E. inversion E; subst r. simpl. lia. }
  split; [exact Hu|].
  exact (proj2 (rate_limit_is_transparent
                  Utc.datetime Utc.fromisoformat Utc.strftime
                  "c1" "general" 2%Z None None None
                  [Ok200 [raw3; raw2]] [Ok200 [raw1]]) r E Hu).
Defined.

(** The page after the rate limit is asked for with the cursor of the
    page before it. *)
Lemma cursor_follows_last_record_witness :
  exists r p,
    crawl_utc "c1" "general" 2%Z None None pages = Some r /\
    nth_error pages 0 = Some (Ok200 [raw3; raw2]) /\
    nth_error pages 1 = Some (RateLimited None) /\
    last_id [raw3; raw2] = Some "1002" /\
    "1002" <> "" /\
    nth_error (requests (trace r)) 2 = Some p /\
    p_before p = Some "1002".
Proof.
  destruct (crawl_utc "c1" "general" 2%Z None None pages) as [r|] eqn:E;
    [|vm_compute in E; discriminate E].
  assert (Hp : nth_error (requests (trace r)) 2
               = Some {| p_limit := 2; p_before := Some "1002" |}).
  { vm_compute in E. inversion E; subst r. reflexivity. }
  exists r, {| p_limit := 2; p_before := Some "1002" |}.
  split; [reflexivity|]. split; [reflexivity|]. split; [reflexivity|].
  split; [reflexivity|]. split; [discriminate|]. split; [exact Hp|].
  destruct (cursor_follows_last_record
              Utc.datetime Utc.fromisoformat Utc.strftime
              "c1" "general" 2%Z None pages r E) as (_ & _ & Hc).
  apply (Hc 0%nat 2%nat [raw3; raw2] "1002"
            {| p_limit := 2; p_before := Some "1002" |} eq_refl eq_refl).
  - discriminate.
  - lia.
  - intros k Hk. assert (k = 1%nat) as -> by lia. now exists None.
  - exact Hp.
Defined.



(** Two messages in one format arrive newest first. *)
Lemma messages_sorted_at_finalization_witness :
  forallb parses_iso [fifth; tenth] = true /\
  text_order_is_time_order Iso.datetime Iso.fromisoformat Iso.ltb
    (filter (is_author "42") [fifth; tenth]) /\
  exists d agg,
    organize_iso [fifth; tenth] = Ret d /\
    lookup "42" d = Some agg /\
    messages agg
    = sort_by timestamp_iso (filter (is_author "42") [fifth; tenth]) /\
    StronglySorted by_timestamp (messages agg) /\
    Permutation (messages agg) (filter (is_author "42") [fifth; tenth]) /\
    oldest_first_iso (messages agg).
Proof.
  assert (Htext : text_order_is_time_order
                    Iso.datetime Iso.fromisoformat Iso.ltb
                    (filter (is_author "42") [fifth; tenth])).
  { intros a b Ha Hb Hab. members;
      try reflexivity; vm_compute in Hab; discriminate Hab. }
  split; [reflexivity|]. split; [exact Htext|].
  destruct (messages_sorted_at_finalization
              Iso.datetime Iso.fromisoformat Iso.isoformat Iso.ltb
              [fifth; tenth] eq_refl)
    as (user_data & d & _ & _ & Hd & Hall).
  destruct (lookup "42" d) as [agg|] eqn:Eagg.
  2:{ exfalso. vm_compute in Hd. injection Hd as Hd. subst d.
      vm_compute in Eagg. discriminate Eagg. }
  exists d, agg. split; [exact Hd|]. split; [exact Eagg|].
  destruct (proj2 (Hall "42") agg Eagg) as (H1 & H2 & H3 & H4).
  split; [exact H1|]. split; [exact H2|]. split; [exact H3|].
  exact (H4 Htext).
Defined.

(** C5. The sort compares the texts of the timestamps, not the instants
    they were parsed to.  Of two messages of one author, the one on the
    whole second is the older, and the text of its timestamp is the
    greater: the list returned has it last, so it is not oldest first. *)
Lemma text_order_is_not_time_order :
  exists d agg,
    organize_iso [whole; tenth] = Ret d /\
    lookup "42" d = Some agg /\
    messages agg = [tenth; whole] /\
    precedes_iso whole tenth = true /\
    ~ oldest_first_iso (messages agg).
Proof.
  destruct (organize_iso [whole; tenth]) as [d|e] eqn:E;
    [|vm_compute in E; discriminate E].
  vm_compute in E. injection E as E. subst d.
  eexists. eexists.
  split; [reflexivity|]. split; [reflexivity|].
  split; [reflexivity|]. split; [reflexivity|].
  intros H. inversion H as [|a l _ Hall]; subst.
  inversion Hall as [|b l' Hb _]; subst.
  vm_compute in Hb. discriminate Hb.
Qed.

(** The second message of user 42 carries another user name; the snapshot
    kept is that of the message that arrived first. *)
Lemma user_info_first_write_wins_witness :
  forallb parses_utc [a2; b1; a1; a3] = true /\
  exists d,
    organize_utc [a2; b1; a1; a3] = Ret d /\
    forall uid,
      option_map user_info (lookup uid d)
      = option_map (fun m => Some (snapshot_of m))
                   (find (is_author uid) [a2; b1; a1; a3]).
Proof.
  split; [reflexivity|].
  apply (user_info_first_write_wins
           Utc.datetime Utc.fromisoformat Utc.isoformat Utc.ltb
           [a2; b1; a1; a3]).
  reflexivity.
Defined.

Lemma aggregation_partitions_input_witness :
  forallb parses_utc [a3; b1; a2; a1] = true /\
  exists d,
    organize_utc [a3; b1; a2; a1] = Ret d /\
    NoDup (keys d) /\
    total_over_users d = len [a3; b1; a2; a1].
Proof.
  split; [reflexivity|].
  destruct (aggregation_partitions_input
              Utc.datetime Utc.fromisoformat Utc.isoformat Utc.ltb
              [a3; b1; a2; a1] eq_refl)
    as (d & Hd & _ & _ & Hnd & _ & Htotal).
  exists d. split; [exact Hd|]. split; [exact Hnd|exact Htotal].
Defined.

Lemma scenario_hi_empty_bye_witness :
  (String.ltb (timestamp_iso a1) (timestamp_iso a2) = true /\
   String.ltb (timestamp_iso a2) (timestamp_iso a3) = true /\
   Permutation [a3; a1; a2] [a1; a2; a3]) /\
  exists d agg,
    organize_utc [a3; a1; a2] = Ret d /\
    lookup "42" d = Some agg /\
    total_messages (stats agg) = 3%Z /\
    total_characters (stats agg) = 5%Z /\
    messages agg = [a1; a2; a3] /\
    extract_content_only agg = ["hi"; "bye"].
Proof.
  assert (Hperm : Permutation [a3; a1; a2] [a1; a2; a3])
    by apply (Permutation_cons_append [a1; a2] a3).
  split; [split; [reflexivity|split; [reflexivity|exact Hperm]]|].
  apply (scenario_hi_empty_bye
           Utc.datetime Utc.fromisoformat Utc.isoformat Utc.ltb
           "42" a1 a2 a3 [a3; a1; a2]);
    try reflexivity.
  exact Hperm.
Defined.

(** C9. The scenario on three messages of one author at ascending
    instants, the first on a whole second: the counts are 3 messages and 5
    characters, but the text of the first timestamp is the greatest of the
    three, so that message is sorted last, and the content list has "bye"
    before "hi". *)
Lemma whole_second_is_sorted_last :
  precedes_iso whole tenth = true /\
  precedes_iso tenth fifth = true /\
  exists d agg,
    organize_iso [whole; tenth; fifth] = Ret d /\
    lookup "42" d = Some agg /\
    total_messages (stats agg) = 3%Z /\
    total_characters (stats agg) = 5%Z /\
    messages agg = [tenth; fifth; whole] /\
    extract_content_only agg = ["bye"; "hi"] /\
    extract_content_only agg <> ["hi"; "bye"].
Proof.
  split; [reflexivity|]. split; [reflexivity|].
  destruct (organize_iso [whole; tenth; fifth]) as [d|e] eqn:E;
    [|vm_compute in E; discriminate E].
  vm_compute in E. injection E as E. subst d.
  eexists. eexists.
  split; [reflexivity|]. split; [reflexivity|].
  split; [reflexivity|]. split; [reflexivity|].
  split; [reflexivity|]. split; [reflexivity|].
  intros H. vm_compute in H. discriminate H.
Qed.


(** ** Further runs *)

Local Abbreviation crawl_server :=
  (crawl_channels Utc.datetime Utc.fromisoformat Utc.strftime).
Local Abbreviation extract_server_utc :=
  (extract_server_content Utc.datetime Utc.fromisoformat Utc.strftime
                          Utc.isoformat Utc.ltb).

(** A record whose author has a discriminator and a global name, and
    whose content mentions two channels. *)
Local Abbreviation raw_tagged :=
  {| r_id := Some "1007"; r_timestamp := Some t1;
     r_author :=
       Some {| ra_id := Some "42"; ra_username := Some "ada";
               ra_discriminator := Some "1234";
               ra_global_name := Some "Ada L.";
               ra_bot := None; ra_avatar := None |};
     r_content := Some "see <#123> and <#77>";
     r_attachments := None; r_embeds := None; r_reactions := None;
     r_mentions := None; r_mention_roles := None;
     r_message_reference := None; r_pinned := None;
     r_edited_timestamp := None; r_type := None; r_flags := None |}.

(** A category, a text channel in it, and a voice channel whose
    [parent_id] is [null]. *)
Local Abbreviation lobby :=
  {| ch_id := Some "c0"; ch_name := Some "Lobby"; ch_type := Some 4%Z;
     ch_parent_id := Some None |}.
Local Abbreviation general :=
  {| ch_id := Some "c1"; ch_name := Some "general"; ch_type := Some 0%Z;
     ch_parent_id := Some (Some "c0") |}.
Local Abbreviation voice :=
  {| ch_id := Some "c2"; ch_name := Some "talk"; ch_type := Some 2%Z;
     ch_parent_id := Some None |}.
Local Abbreviation general_entry :=
  {| ce_name := "general"; ce_type := "Text"; ce_category := "Lobby" |}.

Lemma one_chunk_when_all_fits_witness :
  ["hi"; "bye"] <> [] /\
  (chunk_size ["hi"; "bye"] <= 100)%Z /\
  chunk_messages ["hi"; "bye"] 100 = [["hi"; "bye"]].
Proof.
  assert (H1 : ["hi"; "bye"] <> []) by discriminate.
  assert (H2 : (chunk_size ["hi"; "bye"] <= 100)%Z)
    by (vm_compute; discriminate).
  split; [exact H1|]. split; [exact H2|].
  exact (one_chunk_when_all_fits ["hi"; "bye"] 100%Z H1 H2).
Defined.

Lemma normalised_record_keeps_identity_witness :
  exists m,
    normalize_utc "c1" "general" raw1 = Ret m /\
    r_id raw1 = Some (message_id m) /\
    r_timestamp raw1 = Some (timestamp_iso m) /\
    parses_utc m = true /\
    channel_id m = "c1" /\ channel_name m = "general" /\ content m = "hi".
Proof.
  destruct (normalize_utc "c1" "general" raw1) as [m|e] eqn:E;
    [|vm_compute in E; discriminate E].
  exists m. split; [reflexivity|].
  destruct (normalised_record_keeps_identity
              Utc.datetime Utc.fromisoformat Utc.strftime
              "c1" "general" raw1 m E)
    as (H1 & H2 & H3 & H4 & H5 & H6 & _).
  repeat split; assumption.
Defined.

Lemma full_username_rule_witness :
  exists m,
    normalize_utc "c1" "general" raw_tagged = Ret m /\
    full_username m = "ada#1234" /\
    display_name (author m) = "Ada L.".
Proof.
  destruct (normalize_utc "c1" "general" raw_tagged) as [m|e] eqn:E;
    [|vm_compute in E; discriminate E].
  exists m. split; [reflexivity|].
  destruct (full_username_rule
              Utc.datetime Utc.fromisoformat Utc.strftime
              "c1" "general" raw_tagged m E)
    as (a & u & Ha & Hu & _ & Hfull & Hdisp).
  cbn in Ha. injection Ha as Ha. subst a.
  cbn in Hu. injection Hu as Hu. subst u.
  split; [exact Hfull|exact Hdisp].
Defined.

Lemma channel_mentions_are_ids_witness :
  exists m,
    normalize_utc "c1" "general" raw_tagged = Ret m /\
    Forall (fun c => c <> "" /\ all_digits c = true) (channel_mentions m).
Proof.
  destruct (normalize_utc "c1" "general" raw_tagged) as [m|e] eqn:E;
    [|vm_compute in E; discriminate E].
  exists m. split; [reflexivity|].
  exact (proj1 (channel_mentions_are_ids
                  Utc.datetime Utc.fromisoformat Utc.strftime
                  "c1" "general" raw_tagged m E)).
Defined.

Lemma returned_messages_are_the_records_read_witness :
  exists r out consumed,
    crawl_utc "c1" "general" 2%Z None None pages = Some r /\
    returned r = Ret out /\
    pages = consumed ++ unread r /\
    Forall2 (fun raw m => normalize_utc "c1" "general" raw = Ret m)
            (records consumed) out.
Proof.
  destruct (crawl_utc "c1" "general" 2%Z None None pages) as [r|] eqn:E;
    [|vm_compute in E; discriminate E].
  destruct (returned r) as [out|e] eqn:Eo.
  2:{ exfalso. vm_compute in E. injection E as E. subst r.
      vm_compute in Eo. discriminate Eo. }
  destruct (returned_messages_are_the_records_read
              Utc.datetime Utc.fromisoformat Utc.strftime
              "c1" "general" 2%Z None None pages r out E Eo)
    as (consumed & Hc & Hall).
  exists r, out, consumed. repeat split; assumption.
Defined.

Lemma extracted_timestamps_parse_again_witness :
  exists r out,
    crawl_utc "c1" "general" 2%Z None None pages = Some r /\
    returned r = Ret out /\
    Forall (fun m => exists t,
                message_time Utc.datetime Utc.fromisoformat m = Some t /\
                timestamp m = Utc.strftime t) out.
Proof.
  destruct (crawl_utc "c1" "general" 2%Z None None pages) as [r|] eqn:E;
    [|vm_compute in E; discriminate E].
  destruct (returned r) as [out|e] eqn:Eo.
  2:{ exfalso. vm_compute in E. injection E as E. subst r.
      vm_compute in Eo. discriminate Eo. }
  exists r, out. split; [reflexivity|]. split; [exact Eo|].
  exact (extracted_timestamps_parse_again
           Utc.datetime Utc.fromisoformat Utc.strftime
           "c1" "general" 2%Z None None pages r out E Eo).
Defined.

(** With a cap of three messages the request after the rate limit asks
    for one message only. *)
Lemma message_cap_is_respected_witness :
  exists r out,
    crawl_utc "c1" "general" 2%Z None (Some 3%Z) pages = Some r /\
    returned r = Ret out /\
    (forall i batch p,
        nth_error pages i = Some (Ok200 batch) ->
        nth_error (requests (trace r)) i = Some p ->
        (len batch <= p_limit p)%Z) /\
    (len out <= Z.max 0 3)%Z.
Proof.
  destruct (crawl_utc "c1" "general" 2%Z None (Some 3%Z) pages)
    as [r|] eqn:E; [|vm_compute in E; discriminate E].
  destruct (returned r) as [out|e] eqn:Eo.
  2:{ exfalso. vm_compute in E. injection E as E. subst r.
      vm_compute in Eo. discriminate Eo. }
  assert (Hr : requests (trace r)
               = [{| p_limit := 2; p_before := None |};
                  {| p_limit := 1; p_before := Some "1002" |};
                  {| p_limit := 1; p_before := Some "1002" |}]).
  { vm_compute in E. injection E as E. subst r. reflexivity. }
  assert (H : forall i batch p,
             nth_error pages i = Some (Ok200 batch) ->
             nth_error (requests (trace r)) i = Some p ->
             (len batch <= p_limit p)%Z).
  { rewrite Hr. intros [|[|[|i]]] batch p Hi Hp; cbn in Hi, Hp.
    - injection Hi as Hi. injection Hp as Hp. subst batch p.
      vm_compute. discriminate.
    - discriminate Hi.
    - injection Hi as Hi. injection Hp as Hp. subst batch p.
      vm_compute. discriminate.
    - destruct i; discriminate Hi. }
  exists r, out. split; [reflexivity|]. split; [exact Eo|].
  split; [exact H|].
  exact (message_cap_is_respected
           Utc.datetime Utc.fromisoformat Utc.strftime
           "c1" "general" 2%Z (Some 3%Z) 3%Z None pages r out
           eq_refl E Eo H).
Defined.

Lemma requests_never_overfetch_witness :
  exists r,
    crawl_utc "c1" "general" 2%Z None (Some 3%Z) pages = Some r /\
    Forall (fun p => (p_limit p <= 2)%Z /\ (p_limit p <= 3)%Z)
           (requests (trace r)).
Proof.
  destruct (crawl_utc "c1" "general" 2%Z None (Some 3%Z) pages)
    as [r|] eqn:E; [|vm_compute in E; discriminate E].
  exists r. split; [reflexivity|].
  pose proof (requests_never_overfetch
                Utc.datetime Utc.fromisoformat Utc.strftime
                "c1" "general" 2%Z (Some 3%Z) None pages r E) as H.
  apply (Forall_impl _ (P := fun p =>
           (p_limit p <= 2)%Z /\
           ((0 < 2)%Z -> (0 < p_limit p)%Z) /\
           (forall m, Some 3%Z = Some m -> (p_limit p <= m)%Z)));
    [|exact H].
  intros p (H1 & _ & H3). split; [exact H1|exact (H3 3%Z eq_refl)].
Defined.

Lemma one_sleep_per_rate_limit_witness :
  exists r,
    crawl_utc "c1" "general" 2%Z None None pages = Some r /\
    pages = pages ++ unread r /\
    sleeps (trace r)
    = map (fun ra => (get ra 5 + (1 # 2))%Q) (rate_limits pages).
Proof.
  destruct (crawl_utc "c1" "general" 2%Z None None pages) as [r|] eqn:E;
    [|vm_compute in E; discriminate E].
  assert (Hu : pages = pages ++ unread r).
  { vm_compute in E. injection E as E. subst r. reflexivity. }
  exists r. split; [reflexivity|]. split; [exact Hu|].
  exact (one_sleep_per_rate_limit
           Utc.datetime Utc.fromisoformat Utc.strftime
           "c1" "general" 2%Z None None pages r pages E Hu).
Defined.

Lemma users_in_order_of_first_appearance_witness :
  forallb parses_utc [a3; b1; a2; a1] = true /\
  exists d,
    organize_utc [a3; b1; a2; a1] = Ret d /\
    keys d = distinct (map (fun m => id (author m)) [a3; b1; a2; a1]).
Proof.
  split; [reflexivity|].
  apply (users_in_order_of_first_appearance
           Utc.datetime Utc.fromisoformat Utc.isoformat Utc.ltb
           [a3; b1; a2; a1]).
  reflexivity.
Defined.

Lemma every_user_has_messages_witness :
  forallb parses_utc [a3; b1; a2; a1] = true /\
  exists d,
    organize_utc [a3; b1; a2; a1] = Ret d /\
    forall uid agg,
      lookup uid d = Some agg ->
      messages agg <> [] /\ (0 < total_messages (stats agg))%Z.
Proof.
  split; [reflexivity|].
  destruct (every_user_has_messages
              Utc.datetime Utc.fromisoformat Utc.isoformat Utc.ltb
              [a3; b1; a2; a1] eq_refl) as (d & Hd & Hall).
  exists d. split; [exact Hd|].
  intros uid agg Hagg.
  destruct (Hall uid agg Hagg) as (_ & H1 & H2 & _).
  split; [exact H1|exact H2].
Defined.

Lemma stats_count_the_users_messages_witness :
  forallb parses_utc [a3; b1; a2; a1] = true /\
  exists d,
    organize_utc [a3; b1; a2; a1] = Ret d /\
    forall uid agg,
      lookup uid d = Some agg ->
      total_characters (stats agg)
      = sumZ (map (fun m => Py.len (content m)) (messages agg)) /\
      unique_channels (stats agg) = len (channels_used (stats agg)).
Proof.
  split; [reflexivity|].
  destruct (stats_count_the_users_messages
              Utc.datetime Utc.fromisoformat Utc.isoformat Utc.ltb
              [a3; b1; a2; a1] eq_refl) as (d & Hd & Hall).
  exists d. split; [exact Hd|].
  intros uid agg Hagg.
  destruct (Hall uid agg Hagg) as (H1 & _ & _ & _ & _ & _ & _ & _ & H9).
  split; [exact H1|exact H9].
Defined.

(** The messages [a2] and [b1] carry the same timestamp. *)
Lemma equal_timestamps_keep_arrival_order_witness :
  forallb parses_utc [a3; b1; a2; a1] = true /\
  exists d,
    organize_utc [a3; b1; a2; a1] = Ret d /\
    forall uid agg ts,
      lookup uid d = Some agg ->
      stamped ts (messages agg)
      = stamped ts (filter (is_author uid) [a3; b1; a2; a1]).
Proof.
  split; [reflexivity|].
  apply (equal_timestamps_keep_arrival_order
           Utc.datetime Utc.fromisoformat Utc.isoformat Utc.ltb
           [a3; b1; a2; a1]).
  reflexivity.
Defined.


Lemma csv_lists_most_active_first_witness :
  forallb parses_utc [b1; a3; a2; a1] = true /\
  exists d rows,
    organize_utc [b1; a3; a2; a1] = Ret d /\
    csv_data Qred d = Some rows /\
    Permutation (map row_user_id rows) (keys d) /\
    StronglySorted
      (fun a b => (row_total_messages b <= row_total_messages a)%Z) rows.
Proof.
  split; [reflexivity|].
  destruct (csv_lists_most_active_first
              Utc.datetime Utc.fromisoformat Utc.isoformat Utc.ltb Qred
              [b1; a3; a2; a1] eq_refl)
    as (d & rows & Hd & Hrows & Hperm & Hsorted & _).
  exists d, rows. repeat split; assumption.
Defined.

(** The second of three channels answers 403; the third is crawled all
    the same. *)
Lemma channel_error_does_not_stop_the_crawl_witness :
  List.length ["c1"] = List.length [[Ok200 [raw1]]] /\
  crawl_server [] None (["c1"] ++ "c2" :: ["c3"])
               ([[Ok200 [raw1]]]
                  ++ ([] ++ HttpError 403 "Missing Access" :: [])
                  :: [[Ok200 [raw3]]]) []
  = crawl_server [] None (["c1"] ++ "c2" :: ["c3"])
                 ([[Ok200 [raw1]]] ++ ([] ++ [Ok200 []])
                                   :: [[Ok200 [raw3]]]) [].
Proof.
  split; [reflexivity|].
  apply (channel_error_does_not_stop_the_crawl
           Utc.datetime Utc.fromisoformat Utc.strftime
           [] None ["c1"] "c2" ["c3"] [[Ok200 [raw1]]] [] []
           403%Z "Missing Access" [[Ok200 [raw3]]] []).
  reflexivity.
Defined.

Lemma crawl_groups_messages_by_channel_witness :
  exists all per_channel,
    crawl_server [("c1", general_entry)] None ["c1"; "c9"]
                 [[Ok200 [raw3; raw2]]; [Ok200 [raw1]]] []
    = Some (Ret all) /\
    all = List.concat per_channel /\
    Forall2
      (fun cid ms =>
         Forall (fun m =>
                   channel_id m = cid /\
                   channel_name m
                   = channel_name_of [("c1", general_entry)] cid) ms)
      ["c1"; "c9"] per_channel.
Proof.
  destruct (crawl_server [("c1", general_entry)] None ["c1"; "c9"]
                         [[Ok200 [raw3; raw2]]; [Ok200 [raw1]]] [])
    as [[all|e]|] eqn:E;
    [|vm_compute in E; discriminate E|vm_compute in E; discriminate E].
  destruct (crawl_groups_messages_by_channel
              Utc.datetime Utc.fromisoformat Utc.strftime
              [("c1", general_entry)] None ["c1"; "c9"]
              [[Ok200 [raw3; raw2]]; [Ok200 [raw1]]] all E)
    as (per_channel & Hall & Hper).
  exists all, per_channel. repeat split; assumption.
Defined.

Lemma server_content_accounts_for_every_message_witness :
  exists d tc ids all,
    extract_server_utc (Some (200%Z, tt))
                       (Some (200%Z, [lobby; general; voice]))
                       None None [[Ok200 [raw3; raw2; raw1]]]
    = Some (Saved d) /\
    crawl_server tc None ids [[Ok200 [raw3; raw2; raw1]]] []
    = Some (Ret all) /\
    all <> [] /\
    organize_utc all = Ret d /\
    total_over_users d = len all.
Proof.
  destruct (extract_server_utc (Some (200%Z, tt))
                               (Some (200%Z, [lobby; general; voice]))
                               None None [[Ok200 [raw3; raw2; raw1]]])
    as [[d| | |]|] eqn:E; try (vm_compute in E; discriminate E).
  destruct (server_content_accounts_for_every_message
              Utc.datetime Utc.fromisoformat Utc.strftime Utc.isoformat
              Utc.ltb (Some (200%Z, tt))
              (Some (200%Z, [lobby; general; voice])) None None
              [[Ok200 [raw3; raw2; raw1]]] d E)
    as (tc & ids & all & Hc & Hne & Hd & Htotal & _).
  exists d, tc, ids, all. repeat split; assumption.
Defined.

Lemma unfetched_channel_list_witness :
  (@None (Z * unit) = None \/
   (exists st b, @None (Z * unit) = Some (st, b) /\ st <> 200%Z) \/
   Some (200%Z, [general]) = None \/
   (exists st b, Some (200%Z, [general]) = Some (st, b) /\ st <> 200%Z)) /\
  extract_server_utc None (Some (200%Z, [general])) None None []
  = Some Nothing /\
  extract_server_utc None (Some (200%Z, [general])) (Some ["c1"]) None []
  = Some AttributeError.
Proof.
  assert (H : @None (Z * unit) = None \/
              (exists st b, @None (Z * unit) = Some (st, b) /\
                            st <> 200%Z) \/
              Some (200%Z, [general]) = None \/
              (exists st b, Some (200%Z, [general]) = Some (st, b) /\
                            st <> 200%Z))
    by (left; reflexivity).
  split; [exact H|].
  destruct (unfetched_channel_list
              Utc.datetime Utc.fromisoformat Utc.strftime Utc.isoformat
              Utc.ltb None (Some (200%Z, [general])) None [] H)
    as (H1 & H2).
  split; [exact H1|exact (H2 ["c1"])].
Defined.

Lemma channel_info_describes_the_channels_witness :
  forallb channel_complete [general; lobby; voice] = true /\
  NoDup (map ch_id [general; lobby; voice]) /\
  exists info,
    build_channel_info [general; lobby; voice] = Ret info /\
    forall i,
      lookup i info <> None <->
      exists c, In c [general; lobby; voice] /\ ch_id c = Some i /\
                is_category c = false.
Proof.
  assert (Hnd : NoDup (map ch_id [general; lobby; voice])).
  { cbn. repeat constructor; cbn; intuition discriminate. }
  split; [reflexivity|]. split; [exact Hnd|].
  destruct (channel_info_describes_the_channels
              [general; lobby; voice] eq_refl Hnd)
    as (info & Hinfo & Hkeys & _).
  exists info. split; [exact Hinfo|exact Hkeys].
Defined.
